(** * FSXPluginManager: the Plugin Manager of the FrostSentinel plugin system

  A shallow embedding of [src/PluginManager.ts] and the properties of its
  block extractor, scope validator, dispatcher, HTTP limiter and
  install/enable/uninstall bookkeeping.

  Text is a list of code units ([ascii]); the model covers code units
  below 256.  Numbers are [Z], indices are [nat].  Insertion-ordered JS
  [Map]s whose iteration order matters are association lists, the others
  are [gmap]s.  A plain object used as a map is the [gmap] of its own
  properties, with what its inherited members do to reads and writes
  written out.  An [async] function that can reject is a state
  transformer together with the outcome of the call. *)

From Stdlib Require Import ZArith Ascii String List Lia Bool DecimalString.
From stdpp Require Import base gmap strings list fin_maps.

Local Open Scope Z_scope.
Local Open Scope list_scope.

Abbreviation Str := (list ascii).

(** A string literal of the source, as a list of code units. *)
Definition str (s : string) : Str := list_ascii_of_string s.

(* ===================================================================== *)
(** * Part I. The embedding                                               *)
(* ===================================================================== *)

(** ** JavaScript string primitives used by the manager *)
Module Text.

Definition chr_eqb (a b : ascii) : bool := Ascii.eqb a b.

Fixpoint startsWith (prefix s : Str) : bool :=
  match prefix, s with
  | [], _ => true
  | _ :: _, [] => false
  | p :: prefix', c :: s' => chr_eqb p c && startsWith prefix' s'
  end.

(** [hay.includes(needle)] *)
Fixpoint includes (needle hay : Str) : bool :=
  startsWith needle hay ||
  match hay with
  | [] => false
  | _ :: hay' => includes needle hay'
  end.

(** [s.split(sep)] for a one-character separator *)
Fixpoint split (sep : ascii) (s : Str) : list Str :=
  match s with
  | [] => [[]]
  | c :: s' =>
      if chr_eqb c sep then [] :: split sep s'
      else match split sep s' with
           | [] => [[c]]
           | part :: parts => (c :: part) :: parts
           end
  end.

(** [parts.join(sep)] *)
Fixpoint join (sep : Str) (parts : list Str) : Str :=
  match parts with
  | [] => []
  | [p] => p
  | p :: rest => p ++ sep ++ join sep rest
  end.

(** [arr.includes(x)] on an array of strings *)
Definition arrayIncludes (xs : list Str) (x : Str) : bool :=
  bool_decide (x ∈ xs).

(** The code units below 256 that [String.prototype.trim] removes:
    TAB, LF, VT, FF, CR, SP and NBSP. *)
Definition isWhitespace (c : ascii) : bool :=
  let n := nat_of_ascii c in
  ((9 <=? n)%nat && (n <=? 13)%nat) || (n =? 32)%nat || (n =? 160)%nat.

Fixpoint trimStart (s : Str) : Str :=
  match s with
  | [] => []
  | c :: s' => if isWhitespace c then trimStart s' else s
  end.

Definition trimEnd (s : Str) : Str := rev (trimStart (rev s)).

Definition trim (s : Str) : Str := trimEnd (trimStart s).

(** [s.substring(a, b)]: both indices are clamped to the length and
    swapped when out of order. *)
Definition substring (a b : nat) (s : Str) : Str :=
  let a' := Nat.min a (length s) in
  let b' := Nat.min b (length s) in
  let lo := Nat.min a' b' in
  let hi := Nat.max a' b' in
  take (hi - lo) (drop lo s).

End Text.

(** ** Block Extractor ([extractBlockContent]) *)
Module BlockExtractor.
Import Text.

Record BlockResult := { content : Str; endIndex : nat }.

(** First loop: look for the opening brace from index [i] on; the result
    is the index just past it ([contentStart]). *)
Fixpoint findOpen (rest : Str) (i : nat) : option nat :=
  match rest with
  | [] => None
  | c :: rest' =>
      if chr_eqb c "{" then Some (S i) else findOpen rest' (S i)
  end.

(** Second loop: [rest] is the text from index [i] on.  The result is
    the value of [i] when the loop is left, by [break] at the brace that
    brings [depth] to zero or by reaching the end of the text. *)
Fixpoint scanClose (depth : Z) (rest : Str) (i : nat) : nat :=
  match rest with
  | [] => i
  | c :: rest' =>
      let depth1 := if chr_eqb c "{" then depth + 1 else depth in
      if chr_eqb c "}" then
        let depth2 := depth1 - 1 in
        if depth2 =? 0 then i else scanClose depth2 rest' (S i)
      else scanClose depth1 rest' (S i)
  end.

Definition extractBlockContent (text : Str) (startIndex : nat) : BlockResult :=
  match findOpen (drop startIndex text) startIndex with
  | None => {| content := []; endIndex := startIndex |}
  | Some contentStart =>
      let i := scanClose 1 (drop contentStart text) contentStart in
      {| content := trim (substring contentStart i text);
         endIndex := (i + 1)%nat |}
  end.

(** Brace-balanced text: every brace is part of a matched pair. *)
Inductive Balanced : Str -> Prop :=
| Balanced_nil : Balanced []
| Balanced_char c w :
    c <> "{"%char -> c <> "}"%char -> Balanced w -> Balanced (c :: w)
| Balanced_block b w :
    Balanced b -> Balanced w ->
    Balanced ("{"%char :: b ++ "}"%char :: w).

(** [MatchAt rest j]: the closing brace at offset [j] of [rest] matches
    an opening brace that stands immediately before [rest]. *)
Definition MatchAt (rest : Str) (j : nat) : Prop :=
  rest !! j = Some "}"%char /\ Balanced (take j rest).

(** Balanced segments separated by [n] closing braces. *)
Fixpoint Closing (n : nat) (w : Str) : Prop :=
  match n with
  | O => Balanced w
  | S n' => exists b w', w = b ++ "}"%char :: w' /\ Balanced b /\ Closing n' w'
  end.

End BlockExtractor.

(** ** Scope Validator ([ImportValidator.validate]) *)
Module ImportValidator.
Import Text.

(** [MODULE_REQUIREMENTS], in the order of its keys. *)
Definition MODULE_REQUIREMENTS : list (Str * list Str) :=
  [
    (str "buttons.create_button", [str "buttons.use"]);
    (str "buttons.create", [str "buttons.use"]);
    (str "on_click", [str "buttons.use"]);
    (str "interactions.create", [str "buttons.use"]);
    (str "db.set", [str "db.write"]);
    (str "db.use", [str "db.read"]);
    (str "db.send", [str "messages.send"]);
    (str "db.insert", [str "db.write"]);
    (str "db.update", [str "db.write"]);
    (str "db.delete", [str "db.write"]);
    (str "db.query", [str "db.read"]);
    (str "db.query_one", [str "db.read"]);
    (str "guilds.send", [str "messages.send"]);
    (str "guilds.create_channel", [str "channels.create"]);
    (str "guilds.fetch_channel", [str "channels.read"]);
    (str "guilds.fetch", [str "channels.read"]);
    (str "channel.delete", [str "channels.delete"]);
    (str "channel.send", [str "messages.send"]);
    (str "embeds.create", [str "messages.send"]);
    (str "fastlink.connect", [str "voice.connect"]);
    (str "users.get", [str "messages.send"]);
    (str "users.fetch", [str "messages.send"]);
    (str "user_has_permission", [str "messages.send"]);
    (str "discord.permissions.has", [str "messages.send"]);
    (str "on_member_join", [str "messages.send"]);
    (str "on_member_leave", [str "messages.send"]);
    (str "on_member_update", [str "messages.send"]);
    (str "on_message_delete", [str "messages.send"]);
    (str "on_voice_state_change", [str "voice.connect"]);
    (str "on_reaction", [str "events.reaction"]);
    (str "on_setting", [str "messages.send"]);
    (str "on_load", [str "db.read"; str "db.write"]);
    (str "emit.trigger", [str "messages.send"]);
    (str "cooldown.is_on", [str "messages.send"]);
    (str "cooldown.remaining", [str "messages.send"]);
    (str "cooldown.set", [str "messages.send"]);
    (str "time.now", [str "messages.send"]);
    (str "math.random_int", [str "messages.send"]);
    (str "event ", [str "messages.send"]);
    (str "logic", [str "messages.send"])
  ]%string.

(** [Set.prototype.add] on an insertion-ordered set. *)
Definition setAdd (x : Str) (s : list Str) : list Str :=
  if arrayIncludes s x then s else s ++ [x].

Definition setHas (s : list Str) (x : Str) : bool := arrayIncludes s x.

(** The first loop of [validate]: the scopes required by the features
    found in the code. *)
Definition addRequired (dslCode : Str) (acc : list Str)
    (entry : Str * list Str) : list Str :=
  let (feature, required) := entry in
  if includes feature dslCode
  then fold_left (fun acc' scope => setAdd scope acc') required acc
  else acc.

Definition scanTable (dslCode : Str) (table : list (Str * list Str))
    (acc : list Str) : list Str :=
  fold_left (addRequired dslCode) table acc.

Definition requiredScopes (dslCode : Str) : list Str :=
  scanTable dslCode MODULE_REQUIREMENTS [].

Definition missingScopes (dslCode : Str) (scopes : list Str) : list Str :=
  List.filter (fun required => negb (arrayIncludes scopes required))
              (requiredScopes dslCode).

Definition usedModules (dslCode : Str) : list Str :=
  fold_left
    (fun acc (entry : Str * list Str) =>
       let (feature, _) := entry in
       if includes feature dslCode then
         let parts := split "." feature in
         if (1 <? length parts)%nat then setAdd (hd [] parts) acc else acc
       else acc)
    MODULE_REQUIREMENTS [].

Definition unusedImports (dslCode : Str) (declaredImports : list Str) : list Str :=
  let used := usedModules dslCode in
  List.filter
    (fun declared =>
       let modulePrefix := hd [] (split "." declared) in
       negb (setHas used modulePrefix) && negb (setHas used declared))
    declaredImports.

Record ValidationResult :=
  { valid : bool; errors : list Str; warnings : list Str }.

Definition missingScopesMessage (missing : list Str) : Str :=
  str "Missing required scopes in manifest: " ++ join (str ", ") missing.

Definition unusedImportsMessage (unused : list Str) : Str :=
  str "Unused 'use' statements (can be removed): " ++ join (str ", ") unused.

Definition validate (dslCode : Str) (declaredImports scopes : list Str)
  : ValidationResult :=
  let missing := missingScopes dslCode scopes in
  let errors :=
    if (0 <? length missing)%nat then [missingScopesMessage missing] else [] in
  let unused := unusedImports dslCode declaredImports in
  let warnings :=
    if (0 <? length unused)%nat then [unusedImportsMessage unused] else [] in
  {| valid := (length errors =? 0)%nat; errors := errors; warnings := warnings |}.

(** [feature] occurs in [code] as a substring. *)
Definition Occurs (feature code : Str) : Prop :=
  exists pre post, code = pre ++ feature ++ post.

(** [scope] is required by some construct of the requirements table
    that occurs in [code]. *)
Definition RequiredBy (code scope : Str) : Prop :=
  exists feature required,
    (feature, required) ∈ MODULE_REQUIREMENTS
    /\ Occurs feature code /\ scope ∈ required.

End ImportValidator.

(** ** Data model of the Plugin Manager *)
Module Model.

(** Values bound to command parameters and passed as trigger data. *)
Inductive Value :=
| VUndefined
| VString (s : Str)
| VNumber (n : Z)
| VBool (b : bool).

Inductive ParamType := TString | TInt | TBool.

Record ParameterDef :=
  { ptype : ParamType; pdescription : Str; prequired : bool }.

Record CommandHandler :=
  { cmd_description : Str;
    cmd_usage : Str;
    cmd_parameters : list (Str * ParameterDef);
    cmd_cooldown : option Z;
    cmd_userPermissions : option (list Str);
    cmd_botPermissions : option (list Str);
    cmd_onCommand : Str;
    cmd_onCooldown : option Str;
    cmd_onPermissionDeniedUser : option Str;
    cmd_onPermissionDeniedBot : option Str }.

Record ButtonHandler :=
  { btn_cooldown : option Z; btn_execute : Str; btn_onCooldown : option Str }.

(** The objects that [parseReactionHandlers] pushes on
    [eventHandlers.onReaction]. *)
Record ReactionHandler :=
  { rh_cooldown : option Z; rh_onCooldown : Str; rh_execute : Str }.

Inductive LogicType := on_listen | on_trigger.

Record LogicHandler :=
  { lh_pattern : Str; lh_action : Str; lh_type : LogicType }.

Record PluginManifest :=
  { mf_name : Str; mf_version : Str; mf_author : Str; mf_description : Str;
    mf_tags : list Str; mf_scopes : list Str; mf_price : Z; mf_homepage : Str;
    mf_iconUrl : Str; mf_license : Str; mf_faq : Str }.

Record SettingDef :=
  { st_type : ParamType; st_description : Str; st_default : Value;
    st_value : option Value }.

Record InstalledPlugin :=
  { ip_itemId : Str; ip_guildId : Str; ip_manifest : PluginManifest;
    ip_dslCode : Str; ip_settings : list (Str * SettingDef);
    ip_installedAt : Z; ip_enabled : bool; ip_imports : list Str }.

Record LoadedPlugin :=
  { lp_itemId : Str; lp_manifest : PluginManifest; lp_dslCode : Str;
    lp_settings : list (Str * SettingDef);
    lp_commands : list (Str * CommandHandler);
    lp_buttonHandlers : list (Str * ButtonHandler);
    lp_onReaction : list ReactionHandler;
    lp_customEvents : list (Str * list Str);
    lp_customFunctions : list (Str * Str);
    lp_logicHandlers : list LogicHandler;
    lp_imports : list Str }.

Record Message :=
  { msg_guild : option Str; msg_content : Str; msg_channelId : Str;
    msg_authorId : Str; msg_authorName : Str; msg_id : Str;
    msg_channelName : Str }.

Record ButtonInteraction :=
  { bi_guild : option Str; bi_customId : Str; bi_userId : Str;
    bi_channelId : Str }.

Record ReactionAdd :=
  { ra_userBot : bool; ra_userId : Str; ra_guild : option Str;
    ra_channelId : Str; ra_messageId : Str; ra_emoji : Str }.

(** The [parameters] of the context of a command-kind trigger: a field
    of the data, or an object. *)
Inductive TriggerParameters :=
| ParametersValue (v : Value)
| ParametersObject (o : gmap Str Value).

(** The [context] object handed to [executeCode]. *)
Inductive Context :=
| CommandContext (m : Message) (parameters : gmap Str Value)
| ListenerContext (m : Message)
| InteractionContext (i : ButtonInteraction)
| ReactionContext (r : ReactionAdd) (guild : Str)
| TriggerContext (guild : Str) (parameters : gmap Str Value)
                 (data : option (gmap Str Value))
| CommandTriggerContext (guild : Str) (parameters : TriggerParameters)
                        (data : option (gmap Str Value)).
    (* the context that [handleCommandTrigger] builds from the guild, the
       parameters it takes from the data, and the other fields of the
       data, with the name of the channel [data.channel_id] as the client
       gives it *)

Record HttpRequestLog :=
  { log_timestamp : Z; log_method : Str; log_url : Str; log_status : Z;
    log_responseSize : Z; log_duration : Z; log_pluginId : Str;
    log_guildId : Str; log_success : bool; log_errorReason : option Str }.

Record RequestLimits :=
  { maxRequestsPerMinute : Z; maxRequestsPerHour : Z;
    maxDataPerRequest : Z; timeoutMs : Z }.

(** What the manager does to the outside world. *)
Inductive Event :=
| Exec (itemId : Str) (code : Str) (ctx : Context)
| Reply (m : Message) (text : Str)
| InteractionReply (i : ButtonInteraction) (text : Str)
| NetworkCall (method : Str) (url : Str).

(** The fields of [PluginManager], with the clock ([Date.now()]) and the
    effects performed so far. *)
Record PluginManager :=
  { installedPlugins : gmap Str (list InstalledPlugin);
    loadedPlugins : gmap Str (list (Str * LoadedPlugin));
    cooldowns : gmap Str Z;
    httpLogs : gmap Str (list HttpRequestLog);
    blockedDomains : gset Str;
    requestLimits : RequestLimits;
    clock : Z;
    trace : list Event }.

Definition defaultLimits : RequestLimits :=
  {| maxRequestsPerMinute := 30; maxRequestsPerHour := 200;
     maxDataPerRequest := 50 * 1024 * 1024; timeoutMs := 10000 |}.

(** The manager as its constructor leaves it. *)
Definition newManager (t : Z) : PluginManager :=
  {| installedPlugins := ∅; loadedPlugins := ∅; cooldowns := ∅;
     httpLogs := ∅; blockedDomains := ∅; requestLimits := defaultLimits;
     clock := t; trace := [] |}.

Definition setTables (m : PluginManager)
    (inst : gmap Str (list InstalledPlugin))
    (loaded : gmap Str (list (Str * LoadedPlugin))) : PluginManager :=
  {| installedPlugins := inst; loadedPlugins := loaded;
     cooldowns := cooldowns m; httpLogs := httpLogs m;
     blockedDomains := blockedDomains m; requestLimits := requestLimits m;
     clock := clock m; trace := trace m |}.

Definition setCooldowns (m : PluginManager) (cd : gmap Str Z) : PluginManager :=
  {| installedPlugins := installedPlugins m; loadedPlugins := loadedPlugins m;
     cooldowns := cd; httpLogs := httpLogs m;
     blockedDomains := blockedDomains m; requestLimits := requestLimits m;
     clock := clock m; trace := trace m |}.

Definition setHttpLogs (m : PluginManager)
    (logs : gmap Str (list HttpRequestLog)) : PluginManager :=
  {| installedPlugins := installedPlugins m; loadedPlugins := loadedPlugins m;
     cooldowns := cooldowns m; httpLogs := logs;
     blockedDomains := blockedDomains m; requestLimits := requestLimits m;
     clock := clock m; trace := trace m |}.

Definition setClock (m : PluginManager) (t : Z) : PluginManager :=
  {| installedPlugins := installedPlugins m; loadedPlugins := loadedPlugins m;
     cooldowns := cooldowns m; httpLogs := httpLogs m;
     blockedDomains := blockedDomains m; requestLimits := requestLimits m;
     clock := t; trace := trace m |}.

Definition emit (m : PluginManager) (e : Event) : PluginManager :=
  {| installedPlugins := installedPlugins m; loadedPlugins := loadedPlugins m;
     cooldowns := cooldowns m; httpLogs := httpLogs m;
     blockedDomains := blockedDomains m; requestLimits := requestLimits m;
     clock := clock m; trace := trace m ++ [e] |}.

(** *** Insertion-ordered [Map<string, V>] *)
Fixpoint mapGet {V} (m : list (Str * V)) (k : Str) : option V :=
  match m with
  | [] => None
  | (k', v) :: m' => if decide (k' = k) then Some v else mapGet m' k
  end.

Definition mapHas {V} (m : list (Str * V)) (k : Str) : bool :=
  match mapGet m k with Some _ => true | None => false end.

Fixpoint mapSet {V} (m : list (Str * V)) (k : Str) (v : V) : list (Str * V) :=
  match m with
  | [] => [(k, v)]
  | (k', v') :: m' =>
      if decide (k' = k) then (k, v) :: m' else (k', v') :: mapSet m' k v
  end.

Fixpoint mapDelete {V} (m : list (Str * V)) (k : Str) : list (Str * V) :=
  match m with
  | [] => []
  | (k', v') :: m' =>
      if decide (k' = k) then mapDelete m' k else (k', v') :: mapDelete m' k
  end.

(** The regular expressions of the source. *)
Inductive Regex :=
| ReCommand          (* /command\s+([\w.]+)\s*{/g *)
| ReOnCommand        (* /on_command\s*{/ *)
| ReCooldown         (* /cooldown\s+(\d+)s/ *)
| ReOnReaction       (* /on_reaction\s*{/g *)
| ReOnCooldown       (* /on_cooldown\s*{/ *)
| ReExecute          (* /execute\s*{/ *)
| ReOnClick          (* /on_click\s+([\w_]+)\s*{/g *)
| ReLogic            (* /logic\s*{/ *)
| ReFun              (* /fun\s+([\w_]+)\s*\([^)]*\)(?:\s*->\s*\w+)?\s*{/g *)
| ReOnListen         (* /on_listen\s*{/ *)
| ReIfArrow          (* /if\s+([^{]+)\s*->\s*{/g *)
| ReOnTrigger        (* /on_trigger\s+([\w_]+)\s*{/g *)
| ReEvent            (* /event\s+([\w_]+)\s*{/g *)
| ReParameters       (* /parameters\s*{([\s\S]*?)}\s*(?=on_permission_denied|on_cooldown|on_command|$)/ *)
| ReParameter        (* /(string|int|bool)\s+<quoted name>\s*{/g *)
| ReField (field : Str)      (* new RegExp of field, \s+ and a quoted value *)
| ReFunctionNamed (name : Str).
    (* new RegExp built from fun, \s+, the name pasted in as it is (so
       read as a pattern, not as a literal), \s*, the captured parameter
       list in parentheses, an optional return type and the opening
       brace *)

Record RegexMatch :=
  { rm_index : nat; rm_text : Str; rm_groups : list Str }.

(** The host: the regular-expression engine, the sandbox ([vm2]) and
    the built-ins whose results the manager consumes. *)
Class Host :=
  { (** [new RegExp(...)] for a pattern built at run time: the message of
        the [SyntaxError] it throws, if the pattern is not well formed *)
    regexError : Regex -> option Str;
    (** [re.exec(text)] / [text.match(re)]: the first match *)
    regexFirst : Regex -> Str -> option RegexMatch;
    (** the successive matches of [while ((m = re.exec(text)) !== null)] *)
    regexAll : Regex -> Str -> list RegexMatch;
    toLowerCase : Str -> Str;
    (** [parseInt]; [None] is [NaN] *)
    parseInt : Str -> option Z;
    jsonStringify : Value -> Str;
    (** [plugin.vm.run] on a listener predicate: whether it gave [true] *)
    vmEvalPattern : Str -> Str -> Message -> bool;
    (** [plugin.vm.run] on a handler body: the cooldown store and the
        clock it leaves *)
    vmRun : Str -> Str -> Context -> gmap Str Z -> Z -> gmap Str Z * Z;
    (** whether [executeCode] itself rejects on that body: the body threw
        a value that [createErrorEmbed] cannot render ([null],
        [undefined], a message that is not a string), so that the [catch]
        block throws in its turn; the message of that error *)
    vmRethrows : Str -> Str -> Context -> gmap Str Z -> Z -> option Str;
    (** [new URL(url).hostname]; [None] when the constructor throws *)
    urlHostname : Str -> option Str;
    parseManifest : Str -> option PluginManifest;
    parseSettings : Str -> list (Str * SettingDef);
    extractImports : Str -> list Str }.

End Model.

(** ** The Plugin Manager: loading and dispatch *)
Module Manager.
Import Text BlockExtractor ImportValidator Model.

Section WithHost.
Context {host : Host}.

(** [m.index + m[0].length - 1]: the index of the brace that ends a
    header match. *)
Definition braceOf (m : RegexMatch) : nat :=
  (rm_index m + length (rm_text m) - 1)%nat.

(** [m[i]] for a capture group, [i >= 1]. *)
Definition group (m : RegexMatch) (i : nat) : Str :=
  default [] (rm_groups m !! (i - 1)%nat).

(** [this.extractString(text, field) || ''] *)
Definition extractString (text field : Str) : Str :=
  match regexFirst (ReField field) text with
  | Some m => group m 1
  | None => []
  end.

(** The body of the sub-section introduced by [re], or [''] *)
Definition subBlock (re : Regex) (block : Str) : Str :=
  match regexFirst re block with
  | Some m => trim (content (extractBlockContent block (braceOf m)))
  | None => []
  end.

(** [block.match(/cooldown\s+(\d+)s/)] and [parseInt] of its group *)
Definition parseCooldown (block : Str) : option Z :=
  match regexFirst ReCooldown block with
  | Some m => parseInt (group m 1)
  | None => None
  end.

Definition typeOfName (t : Str) : ParamType :=
  if decide (t = str "int") then TInt
  else if decide (t = str "bool") then TBool
  else TString.

(** The brace-counting loop of [parseParameters]. *)
Fixpoint scanParam (depth : Z) (rest : Str) (endPos : nat) : nat :=
  match rest with
  | [] => endPos
  | c :: rest' =>
      if 0 <? depth then
        let depth1 := if chr_eqb c "{" then depth + 1 else depth in
        let depth2 := if chr_eqb c "}" then depth1 - 1 else depth1 in
        scanParam depth2 rest' (S endPos)
      else endPos
  end.

Definition parseParameters (block : Str) : list (Str * ParameterDef) :=
  match regexFirst ReParameters block with
  | None => []
  | Some pm =>
      let body := group pm 1 in
      fold_left
        (fun params m =>
           let paramType := group m 1 in
           let paramName := group m 2 in
           let startPos := (rm_index m + length (rm_text m))%nat in
           let endPos := scanParam 1 (drop startPos body) startPos in
           let paramContent := substring startPos (endPos - 1) body in
           mapSet params paramName
             {| ptype := typeOfName paramType;
                pdescription := extractString paramContent (str "description");
                prequired := includes (str "required true") paramContent |})
        (regexAll ReParameter body) []
  end.

Definition parseCommands (dslCode : Str) : list (Str * CommandHandler) :=
  fold_left
    (fun commands m =>
       let commandName := group m 1 in
       let commandBlock := content (extractBlockContent dslCode (braceOf m)) in
       mapSet commands commandName
         {| cmd_description := extractString commandBlock (str "description");
            cmd_usage := extractString commandBlock (str "usage");
            cmd_parameters := parseParameters commandBlock;
            cmd_cooldown := parseCooldown commandBlock;
            cmd_userPermissions := None;
            cmd_botPermissions := None;
            cmd_onCommand := subBlock ReOnCommand commandBlock;
            cmd_onCooldown := None;
            cmd_onPermissionDeniedUser := None;
            cmd_onPermissionDeniedBot := None |})
    (regexAll ReCommand dslCode) [].

Definition parseReactionHandlers (dslCode : Str) : list ReactionHandler :=
  map
    (fun m =>
       let reactionBlock := content (extractBlockContent dslCode (braceOf m)) in
       {| rh_cooldown := parseCooldown reactionBlock;
          rh_onCooldown := subBlock ReOnCooldown reactionBlock;
          rh_execute := subBlock ReExecute reactionBlock |})
    (regexAll ReOnReaction dslCode).

Definition parseButtonHandlers (dslCode : Str) : list (Str * ButtonHandler) :=
  fold_left
    (fun handlers m =>
       let buttonId := group m 1 in
       let buttonBlock := content (extractBlockContent dslCode (braceOf m)) in
       mapSet handlers buttonId
         {| btn_cooldown := parseCooldown buttonBlock;
            btn_execute := subBlock ReExecute buttonBlock;
            btn_onCooldown := None |})
    (regexAll ReOnClick dslCode) [].

(** [parseLogicHandlers]: the custom functions and the logic handlers. *)
Definition parseLogicHandlers (dslCode : Str)
  : list (Str * Str) * list LogicHandler :=
  match regexFirst ReLogic dslCode with
  | None => ([], [])
  | Some lm =>
      let logicBlock := content (extractBlockContent dslCode (braceOf lm)) in
      let functions :=
        fold_left
          (fun fs m =>
             mapSet fs (group m 1)
               (content (extractBlockContent logicBlock (braceOf m))))
          (regexAll ReFun logicBlock) [] in
      let listeners :=
        match regexFirst ReOnListen logicBlock with
        | None => []
        | Some om =>
            let listenBlock :=
              content (extractBlockContent logicBlock (braceOf om)) in
            map
              (fun m =>
                 {| lh_pattern := trim (group m 1);
                    lh_action :=
                      trim (content (extractBlockContent listenBlock (braceOf m)));
                    lh_type := on_listen |})
              (regexAll ReIfArrow listenBlock)
        end in
      let triggers :=
        map
          (fun m =>
             {| lh_pattern := group m 1;
                lh_action :=
                  trim (content (extractBlockContent logicBlock (braceOf m)));
                lh_type := on_trigger |})
          (regexAll ReOnTrigger logicBlock) in
      (functions, listeners ++ triggers)
  end.

Definition parseCustomEvents (dslCode : Str) : list (Str * list Str) :=
  fold_left
    (fun events m =>
       let eventName := group m 1 in
       let eventCode := content (extractBlockContent dslCode (braceOf m)) in
       mapSet events eventName
         (default [] (mapGet events eventName) ++ [trim eventCode]))
    (regexAll ReEvent dslCode) [].

Definition buildPlugin (installed : InstalledPlugin) : LoadedPlugin :=
  let code := ip_dslCode installed in
  {| lp_itemId := ip_itemId installed;
     lp_manifest := ip_manifest installed;
     lp_dslCode := code;
     lp_settings := ip_settings installed;
     lp_commands := parseCommands code;
     lp_buttonHandlers := parseButtonHandlers code;
     lp_onReaction := parseReactionHandlers code;
     lp_customEvents := parseCustomEvents code;
     lp_customFunctions := fst (parseLogicHandlers code);
     lp_logicHandlers := snd (parseLogicHandlers code);
     lp_imports := ip_imports installed |}.

Definition loadInstalledPlugin (guildId : Str) (installed : InstalledPlugin)
    (m : PluginManager) : PluginManager :=
  let plugins := default [] (loadedPlugins m !! guildId) in
  setTables m (installedPlugins m)
    (<[guildId := mapSet plugins (ip_itemId installed) (buildPlugin installed)]>
       (loadedPlugins m)).

(** [executeCode]: an empty body is not run; any other body is handed to
    the plugin's sandbox. *)
Definition executeCode (plugin : LoadedPlugin) (code : Str) (ctx : Context)
    (m : PluginManager) : PluginManager :=
  match code with
  | [] => m
  | _ :: _ =>
      let (cd, t) := vmRun (lp_itemId plugin) code ctx (cooldowns m) (clock m) in
      emit (setClock (setCooldowns m cd) (Z.max (clock m) t))
           (Exec (lp_itemId plugin) code ctx)
  end.

(** Whether that call of [executeCode] rejects: an empty body is not
    run; for any other body, whether the [catch] block throws in its
    turn. *)
Definition executeCodeThrows (plugin : LoadedPlugin) (code : Str) (ctx : Context)
    (m : PluginManager) : option Str :=
  match code with
  | [] => None
  | _ :: _ => vmRethrows (lp_itemId plugin) code ctx (cooldowns m) (clock m)
  end.

Definition isListener (h : LogicHandler) : bool :=
  match lh_type h with on_listen => true | on_trigger => false end.

Definition handleLogicListeners (plugins : list (Str * LoadedPlugin))
    (message : Message) (m : PluginManager) : PluginManager :=
  fold_left
    (fun m1 (entry : Str * LoadedPlugin) =>
       let plugin := snd entry in
       fold_left
         (fun m2 handler =>
            if isListener handler
               && vmEvalPattern (lp_itemId plugin) (lh_pattern handler) message
            then executeCode plugin (lh_action handler) (ListenerContext message) m2
            else m2)
         (lp_logicHandlers plugin) m1)
    plugins m.

(** *** Plain objects used as maps

    [parameters] is a plain object ([{}]): a finite map holds its own
    properties, and what it inherits from [Object.prototype] is written
    out. *)
Definition protoKey : Str := str "__proto__".

(** The names of the members of [Object.prototype]. *)
Definition objectPrototypeKeys : list Str :=
  [str "constructor"; str "__defineGetter__"; str "__defineSetter__";
   str "hasOwnProperty"; str "__lookupGetter__"; str "__lookupSetter__";
   str "isPrototypeOf"; str "propertyIsEnumerable"; str "toString";
   str "valueOf"; protoKey; str "toLocaleString"].

(** What the read [settings[key]] finds in the settings object, a plain
    object whose own properties are [own], none of them named
    [__proto__]: an own
    property, a member inherited from [Object.prototype] (a function, or
    for [__proto__] the prototype itself: an object in either case), or
    nothing. *)
Inductive Member :=
| Own (def : SettingDef)
| Inherited
| Absent.

Definition member (own : list (Str * SettingDef)) (key : Str) : Member :=
  match mapGet own key with
  | Some def => Own def
  | None =>
      if bool_decide (key ∈ objectPrototypeKeys) then Inherited else Absent
  end.

(** [obj[key] = v] for a value [v] that is not an object: under the key
    [__proto__] the assignment reaches the setter of [Object.prototype],
    which ignores such a value; under any other key it makes an own
    property. *)
Definition objectSet (obj : gmap Str Value) (key : Str) (v : Value)
  : gmap Str Value :=
  if decide (key = protoKey) then obj else <[key := v]> obj.

(** One round of the parameter-binding loop of [handleCommand]. *)
Definition bindParameter (args : list Str)
    (state : gmap Str Value * nat) (entry : Str * ParameterDef)
  : gmap Str Value * nat :=
  let (parameters, argIndex) := state in
  let (key, def) := entry in
  if (argIndex <? length args)%nat then
    let argValue := default [] (args !! argIndex) in
    match ptype def with
    | TString =>
        (objectSet parameters key (VString (join (str " ") (drop argIndex args))),
         length args)
    | TInt =>
        (objectSet parameters key
           match parseInt argValue with
           | None => VString argValue
           | Some n => VNumber n
           end,
         S argIndex)
    | TBool =>
        (objectSet parameters key
           (VBool (bool_decide (toLowerCase argValue = str "true")
                   || bool_decide (argValue = str "1"))),
         S argIndex)
    end
  else if prequired def then (objectSet parameters key VUndefined, argIndex)
  else state.

Definition bindParameters (handler : CommandHandler) (args : list Str)
  : gmap Str Value :=
  fst (fold_left (bindParameter args) (cmd_parameters handler) (∅, 0%nat)).

(** [parameters[key] === undefined || parameters[key] === null ||
    parameters[key] === '']: the read of [__proto__] gives
    [Object.prototype], and the read of a name that is not an own
    property gives the member of [Object.prototype] of that name, if
    there is one. *)
Definition isMissing (parameters : gmap Str Value) (key : Str) : bool :=
  if decide (key = protoKey) then false
  else
    match parameters !! key with
    | None => negb (bool_decide (key ∈ objectPrototypeKeys))
    | Some VUndefined | Some (VString []) => true
    | _ => false
    end.

Definition missingParams (handler : CommandHandler)
    (parameters : gmap Str Value) : list Str :=
  map fst
    (List.filter
       (fun entry : Str * ParameterDef =>
          prequired (snd entry) && isMissing parameters (fst entry))
       (cmd_parameters handler)).

Definition LF : Str := ["010"%char].

(** The reply for missing parameters (characters outside Latin-1 appear
    as their UTF-8 bytes). *)
Definition missingParamsMessage (missing : list Str) (usage : Str) : Str :=
  str "❌ **Missing Required Parameters**" ++ LF ++ LF
  ++ str "This command requires: " ++ join (str ", ") missing ++ LF ++ LF
  ++ str "**Usage:** " ++ usage.

(** Command name and remaining arguments, after the sub-command check. *)
Definition resolveCommand (plugins : list (Str * LoadedPlugin)) (content : Str)
  : option (Str * list Str) :=
  match split " " (drop 1 content) with
  | [] => None
  | first :: args =>
      let commandName := toLowerCase first in
      match commandName with
      | [] => None
      | _ :: _ =>
          match args with
          | [] => Some (commandName, args)
          | arg0 :: args' =>
              let potentialSubcommand :=
                commandName ++ str "." ++ toLowerCase arg0 in
              if existsb
                   (fun entry : Str * LoadedPlugin =>
                      mapHas (lp_commands (snd entry)) potentialSubcommand)
                   plugins
              then Some (potentialSubcommand, args')
              else Some (commandName, args)
          end
      end
  end.

(** The first loaded plugin that has a handler for [commandName]. *)
Fixpoint findCommand (plugins : list (Str * LoadedPlugin)) (commandName : Str)
  : option (LoadedPlugin * CommandHandler) :=
  match plugins with
  | [] => None
  | (_, plugin) :: rest =>
      match mapGet (lp_commands plugin) commandName with
      | Some handler => Some (plugin, handler)
      | None => findCommand rest commandName
      end
  end.

Definition handleCommand (message : Message) (m : PluginManager)
  : PluginManager :=
  match msg_guild message with
  | None => m
  | Some guild =>
      match loadedPlugins m !! guild with
      | None => m
      | Some guildPlugins =>
          let m1 := handleLogicListeners guildPlugins message m in
          if negb (startsWith (str "?") (msg_content message)) then m1
          else
            match resolveCommand guildPlugins (msg_content message) with
            | None => m1
            | Some (commandName, args) =>
                match findCommand guildPlugins commandName with
                | None => m1
                | Some (plugin, handler) =>
                    let parameters := bindParameters handler args in
                    let missing := missingParams handler parameters in
                    if (0 <? length missing)%nat then
                      emit m1 (Reply message
                                 (missingParamsMessage missing (cmd_usage handler)))
                    else
                      executeCode plugin (cmd_onCommand handler)
                        (CommandContext message parameters) m1
                end
            end
      end
  end.

(** The number of required parameters of a command. *)
Definition countRequired (params : list (Str * ParameterDef)) : nat :=
  length (List.filter (fun entry : Str * ParameterDef => prequired (snd entry)) params).

(** The body of a passive listener handed to the sandbox. *)
Definition isListenerExec (message : Message) (e : Event) : Prop :=
  exists itemId code, e = Exec itemId code (ListenerContext message).

(** The first loaded plugin that has a handler for the button id. *)
Fixpoint findButton (plugins : list (Str * LoadedPlugin)) (customId : Str)
  : option (LoadedPlugin * ButtonHandler) :=
  match plugins with
  | [] => None
  | (_, plugin) :: rest =>
      match mapGet (lp_buttonHandlers plugin) customId with
      | Some handler => Some (plugin, handler)
      | None => findButton rest customId
      end
  end.

Definition handleButton (interaction : ButtonInteraction) (m : PluginManager)
  : PluginManager :=
  match bi_guild interaction with
  | None => m
  | Some guild =>
      match loadedPlugins m !! guild with
      | None => m
      | Some plugins =>
          match findButton plugins (bi_customId interaction) with
          | Some (plugin, handler) =>
              executeCode plugin (btn_execute handler)
                (InteractionContext interaction) m
          | None => m
          end
      end
  end.

(** *** The trigger facility *)
Inductive Outcome := Returned | Threw (message : Str).

Definition outcomeOf (error : option Str) : Outcome :=
  match error with
  | Some message => Threw message
  | None => Returned
  end.

(** [await this.executeCode(plugin, code, context)] where nothing catches
    its rejection. *)
Definition runBody (plugin : LoadedPlugin) (ctx : Context) (m : PluginManager)
    (code : Str) : Outcome * PluginManager :=
  (outcomeOf (executeCodeThrows plugin code ctx m), executeCode plugin code ctx m).

(** A [for] loop whose body may throw: the loop is left at the first
    round that throws. *)
Fixpoint runUntilThrow {A} (step : PluginManager -> A -> Outcome * PluginManager)
    (items : list A) (m : PluginManager) : Outcome * PluginManager :=
  match items with
  | [] => (Returned, m)
  | item :: rest =>
      match step m item with
      | (Returned, m1) => runUntilThrow step rest m1
      | (Threw message, m1) => (Threw message, m1)
      end
  end.

Definition functionNotFound (functionName : Str) : Str :=
  str "Function '" ++ functionName ++ str "' not found".

Definition commandNotFound (commandName : Str) : Str :=
  str "Command '" ++ commandName ++ str "' not found".

(** The names in a parameter list such as [ticket_id: int, name: string]. *)
Definition paramNamesOf (paramString : Str) : list Str :=
  match trim paramString with
  | [] => []
  | _ :: _ =>
      map (fun param => trim (hd [] (split ":" (trim param))))
          (split "," paramString)
  end.

(** [data && data[key] !== undefined] *)
Definition dataGet (data : option (gmap Str Value)) (key : Str) : option Value :=
  match data with
  | Some d =>
      match d !! key with
      | Some VUndefined => None
      | other => other
      end
  | None => None
  end.

Definition handleCustomEventTrigger (guildId itemId eventName : Str)
    (data : option (gmap Str Value)) (m : PluginManager)
  : Outcome * PluginManager :=
  match loadedPlugins m !! guildId with
  | None => (Returned, m)
  | Some plugins =>
      match mapGet plugins itemId with
      | None => (Returned, m)
      | Some plugin =>
          let ctx := TriggerContext guildId ∅ data in
          match runUntilThrow (runBody plugin ctx)
                  (default [] (mapGet (lp_customEvents plugin) eventName)) m with
          | (Threw message, m1) => (Threw message, m1)
          | (Returned, m1) =>
              runUntilThrow
                (fun m' handler =>
                   if negb (isListener handler)
                      && bool_decide (lh_pattern handler = eventName)
                   then runBody plugin ctx m' (lh_action handler)
                   else (Returned, m'))
                (lp_logicHandlers plugin) m1
          end
      end
  end.

Definition handleFunctionTrigger (guildId itemId functionName : Str)
    (data : option (gmap Str Value)) (m : PluginManager)
  : Outcome * PluginManager :=
  match loadedPlugins m !! guildId with
  | None => (Returned, m)
  | Some plugins =>
      match mapGet plugins itemId with
      | None => (Returned, m)
      | Some plugin =>
          match regexError (ReFunctionNamed functionName) with
          | Some message => (Threw message, m)
          | None =>
          match regexFirst (ReFunctionNamed functionName) (lp_dslCode plugin) with
          | None => (Threw (functionNotFound functionName), m)
          | Some fm =>
              let paramNames := paramNamesOf (group fm 1) in
              let functionBody :=
                content (extractBlockContent (lp_dslCode plugin) (braceOf fm)) in
              let functionParams :=
                fold_left
                  (fun params paramName =>
                     match dataGet data paramName with
                     | Some v => <[paramName := v]> params
                     | None => params
                     end)
                  paramNames (∅ : gmap Str Value) in
              let codeToExecute :=
                fold_left
                  (fun code paramName =>
                     match functionParams !! paramName with
                     | Some v =>
                         str "const " ++ paramName ++ str " = "
                         ++ jsonStringify v ++ LF ++ code
                     | None => code
                     end)
                  paramNames functionBody in
              runBody plugin (TriggerContext guildId functionParams data) m
                codeToExecute
          end
          end
      end
  end.

(** Whether a value counts as true in a condition. *)
Definition isTruthy (v : Value) : bool :=
  match v with
  | VUndefined => false
  | VString s => negb (bool_decide (s = []))
  | VNumber n => negb (n =? 0)
  | VBool b => b
  end.

(** [data?.parameters || data || {}] *)
Definition commandTriggerParameters (data : option (gmap Str Value))
  : TriggerParameters :=
  match data with
  | None => ParametersObject ∅
  | Some d =>
      match d !! str "parameters" with
      | Some v => if isTruthy v then ParametersValue v else ParametersObject d
      | None => ParametersObject d
      end
  end.

Definition handleCommandTrigger (guildId itemId commandName : Str)
    (data : option (gmap Str Value)) (m : PluginManager)
  : Outcome * PluginManager :=
  match loadedPlugins m !! guildId with
  | None => (Returned, m)
  | Some plugins =>
      match mapGet plugins itemId with
      | None => (Returned, m)
      | Some plugin =>
          match mapGet (lp_commands plugin) commandName with
          | None => (Threw (commandNotFound commandName), m)
          | Some handler =>
              runBody plugin
                (CommandTriggerContext guildId (commandTriggerParameters data)
                   data) m
                (cmd_onCommand handler)
          end
      end
  end.

Inductive TriggerKind := KindEvent | KindFun | KindCommand.

Definition isLineTerminator (c : ascii) : bool :=
  chr_eqb c "010" || chr_eqb c "013".

(** [target.match(/^(event|fun|command):(.+)$/)] *)
Definition parseTarget (target : Str) : option (TriggerKind * Str) :=
  let name prefix := drop (length prefix) target in
  let wellFormed n :=
    match n with
    | [] => false
    | _ :: _ => forallb (fun c => negb (isLineTerminator c)) n
    end in
  if startsWith (str "event:") target then
    if wellFormed (name (str "event:")) then Some (KindEvent, name (str "event:"))
    else None
  else if startsWith (str "fun:") target then
    if wellFormed (name (str "fun:")) then Some (KindFun, name (str "fun:"))
    else None
  else if startsWith (str "command:") target then
    if wellFormed (name (str "command:"))
    then Some (KindCommand, name (str "command:"))
    else None
  else None.

Definition invalidTrigger : Str :=
  str "Invalid trigger format. Use: event:name, fun:name, or command:name".

(** [emit.trigger] of the sandbox built for plugin [itemId] of [guildId]. *)
Definition emitTrigger (guildId itemId target : Str)
    (data : option (gmap Str Value)) (m : PluginManager)
  : Outcome * PluginManager :=
  match parseTarget target with
  | None => (Threw invalidTrigger, m)
  | Some (KindEvent, name) => handleCustomEventTrigger guildId itemId name data m
  | Some (KindFun, name) => handleFunctionTrigger guildId itemId name data m
  | Some (KindCommand, name) => handleCommandTrigger guildId itemId name data m
  end.

(** *** Reactions ([messageReactionAdd]) *)
Definition reactionCooldownKey (guildId itemId userId : Str) : Str :=
  guildId ++ str ":" ++ itemId ++ str ":" ++ str "reaction_handler"
  ++ str ":" ++ userId.

(** [if (handler.cooldown)]: [undefined], [NaN] and [0] are falsy. *)
Definition truthyNumber (n : option Z) : option Z :=
  match n with
  | Some z => if z =? 0 then None else Some z
  | None => None
  end.

(** The body of the inner loop, for one reaction handler. *)
Definition handleReaction (guildId : Str) (reaction : ReactionAdd)
    (itemId : Str) (plugin : LoadedPlugin)
    (m : PluginManager) (handler : ReactionHandler) : PluginManager :=
  let ctx := ReactionContext reaction guildId in
  match truthyNumber (rh_cooldown handler) with
  | Some seconds =>
      let cdKey := reactionCooldownKey guildId itemId (ra_userId reaction) in
      let expiry := default 0 (cooldowns m !! cdKey) in
      if clock m <? expiry then
        executeCode plugin (rh_onCooldown handler) ctx m
      else
        executeCode plugin (rh_execute handler) ctx
          (setCooldowns m (<[cdKey := clock m + seconds * 1000]> (cooldowns m)))
  | None => executeCode plugin (rh_execute handler) ctx m
  end.



(** What [executeCode] adds to the trace. *)
Definition execEvents (plugin : LoadedPlugin) (code : Str) (ctx : Context)
  : list Event :=
  match code with
  | [] => []
  | _ :: _ => [Exec (lp_itemId plugin) code ctx]
  end.

(** *** The outbound HTTP client *)
Inductive HttpMethod := GET | POST | PUT | DELETE.

Definition methodName (method : HttpMethod) : Str :=
  match method with
  | GET => str "GET" | POST => str "POST"
  | PUT => str "PUT" | DELETE => str "DELETE"
  end.

(** What [axios] answers when it is called. *)
Inductive AxiosReply :=
| AxiosResponse (status : Z) (data : Str) (size : Z)
| AxiosFailure (status : Z) (message : Str).

Inductive HttpOutcome := HttpData (data : Str) | HttpThrew (message : Str).

Definition showZ (n : Z) : Str :=
  str (DecimalString.NilZero.string_of_int (Z.to_int n)).

Definition httpKey (guildId pluginId : Str) : Str :=
  guildId ++ str ":" ++ pluginId.

Definition recentLogs (logs : list HttpRequestLog) (now : Z) : list HttpRequestLog :=
  List.filter (fun log => now - 60 * 60 * 1000 <? log_timestamp log) logs.

Definition lastMinute (recent : list HttpRequestLog) (now : Z) : list HttpRequestLog :=
  List.filter (fun log => now - 60 * 1000 <? log_timestamp log) recent.

Definition minuteLimitMessage (limit : Z) : Str :=
  str "Rate limit exceeded: " ++ showZ limit ++ str " requests per minute".

Definition hourLimitMessage (limit : Z) : Str :=
  str "Rate limit exceeded: " ++ showZ limit ++ str " requests per hour".

(** [checkHttpRateLimits]: the thrown message, or the manager with the
    pruned log. *)
Definition checkHttpRateLimits (guildId pluginId : Str) (m : PluginManager)
  : Str + PluginManager :=
  let key := httpKey guildId pluginId in
  let logs := default [] (httpLogs m !! key) in
  let now := clock m in
  let recent := recentLogs logs now in
  let limits := requestLimits m in
  if maxRequestsPerMinute limits <=? Z.of_nat (length (lastMinute recent now))
  then inl (minuteLimitMessage (maxRequestsPerMinute limits))
  else if maxRequestsPerHour limits <=? Z.of_nat (length recent)
  then inl (hourLimitMessage (maxRequestsPerHour limits))
  else inr (setHttpLogs m (<[key := recent]> (httpLogs m))).

Definition logHttpRequest (log : HttpRequestLog) (m : PluginManager)
  : PluginManager :=
  let key := httpKey (log_guildId log) (log_pluginId log) in
  setHttpLogs m (<[key := default [] (httpLogs m !! key) ++ [log]]> (httpLogs m)).

(** The [catch] block of [makeRequest]: the failure is logged at the
    time it is caught, and rethrown to the plugin. *)
Definition failRequest (guildId itemId : Str) (method : HttpMethod) (url : Str)
    (startTime : Z) (m' : PluginManager) (status : Z) (message : Str)
  : HttpOutcome * PluginManager :=
  (HttpThrew (str "HTTP " ++ methodName method ++ str " failed: " ++ message),
   logHttpRequest
     {| log_timestamp := clock m'; log_method := methodName method;
        log_url := url; log_status := status; log_responseSize := 0;
        log_duration := clock m' - startTime; log_pluginId := itemId;
        log_guildId := guildId; log_success := false;
        log_errorReason := Some message |} m').

(** [makeRequest] up to its [await]: the checks on the URL, the blocked
    hosts and the limits, which run when the plugin calls the client.
    Either the request is refused there, or the network call is issued
    (with the timeout and the size limit of the manager, which the
    [options] of the plugin may override) and the request is in flight:
    nothing is written to the log until the answer is there. *)
Definition issueRequest (guildId itemId : Str) (method : HttpMethod) (url : Str)
    (m : PluginManager) : (HttpOutcome * PluginManager) + PluginManager :=
  let fail := failRequest guildId itemId method url (clock m) in
  if negb (startsWith (str "http") url) then
    inl (fail m 0 (str "Invalid URL - must start with http/https"))
  else
    match urlHostname url with
    | None => inl (fail m 0 (str "Invalid URL"))
    | Some hostname =>
        if bool_decide (hostname ∈ blockedDomains m) then
          inl (fail m 0
                 (str "Domain " ++ hostname ++ str " is blocked due to abuse"))
        else
          match checkHttpRateLimits guildId itemId m with
          | inl message => inl (fail m 0 message)
          | inr m1 => inr (emit m1 (NetworkCall (methodName method) url))
          end
    end.

(** [makeRequest] from the answer of the network on: the request that
    started at [startTime] is logged, as a success or as a failure, at
    the time of the answer. *)
Definition settleRequest (guildId itemId : Str) (method : HttpMethod) (url : Str)
    (startTime : Z) (reply : AxiosReply) (m2 : PluginManager)
  : HttpOutcome * PluginManager :=
  match reply with
  | AxiosResponse status data size =>
      (HttpData data,
       logHttpRequest
         {| log_timestamp := clock m2; log_method := methodName method;
            log_url := url; log_status := status;
            log_responseSize := size;
            log_duration := clock m2 - startTime;
            log_pluginId := itemId; log_guildId := guildId;
            log_success := true; log_errorReason := None |} m2)
  | AxiosFailure status message =>
      failRequest guildId itemId method url startTime m2 status message
  end.

(** [await makeRequest(...)] of the client built for plugin [itemId] of
    [guildId], with nothing else happening before the answer; [reply] and
    [elapsed] are what the network answers, and after how long, if it is
    asked. *)
Definition makeRequest (guildId itemId : Str) (method : HttpMethod) (url : Str)
    (reply : AxiosReply) (elapsed : Z) (m : PluginManager)
  : HttpOutcome * PluginManager :=
  match issueRequest guildId itemId method url m with
  | inl refused => refused
  | inr m1 =>
      settleRequest guildId itemId method url (clock m) reply
        (setClock m1 (clock m1 + Z.max 0 elapsed))
  end.





(** *** The client's button handler (the second file of
    [src/unnamed/part_000]), which keeps its own cooldown store on the
    client *)
Definition buttonCooldownKey (buttonId userId : Str) : Str :=
  str "button_" ++ buttonId ++ str "_" ++ userId.

(** The first loaded plugin with a handler for the button id, with its
    key in the table. *)
Fixpoint findButtonEntry (plugins : list (Str * LoadedPlugin)) (customId : Str)
  : option (Str * LoadedPlugin * ButtonHandler) :=
  match plugins with
  | [] => None
  | (itemId, plugin) :: rest =>
      match mapGet (lp_buttonHandlers plugin) customId with
      | Some handler => Some (itemId, plugin, handler)
      | None => findButtonEntry rest customId
      end
  end.

Definition executePluginCode (guildId itemId code : Str) (ctx : Context)
    (m : PluginManager) : PluginManager :=
  match loadedPlugins m !! guildId with
  | None => m
  | Some plugins =>
      match mapGet plugins itemId with
      | None => m
      | Some plugin => executeCode plugin code ctx m
      end
  end.

(** Whether [executePluginCode] rejects: it awaits [executeCode]. *)
Definition executePluginCodeThrows (guildId itemId code : Str) (ctx : Context)
    (m : PluginManager) : option Str :=
  match loadedPlugins m !! guildId with
  | None => None
  | Some plugins =>
      match mapGet plugins itemId with
      | None => None
      | Some plugin => executeCodeThrows plugin code ctx m
      end
  end.

Definition buttonErrorMessage : Str :=
  str "❌ An error occurred while processing this button.".

(** [try { await pluginManager.executePluginCode(...) } catch (err) {
    await interaction.reply(...) }]: the handler's body is run, and a
    rejection is answered with the fixed error text. *)
Definition runButtonCode (guildId itemId : Str) (handler : ButtonHandler)
    (interaction : ButtonInteraction) (m : PluginManager) : PluginManager :=
  let ctx := InteractionContext interaction in
  let m1 := executePluginCode guildId itemId (btn_execute handler) ctx m in
  match executePluginCodeThrows guildId itemId (btn_execute handler) ctx m with
  | Some _ => emit m1 (InteractionReply interaction buttonErrorMessage)
  | None => m1
  end.

(** [Math.ceil(ms / 1000)] *)
Definition ceilSeconds (ms : Z) : Z := - ((- ms) / 1000).

Definition buttonCooldownMessage (remaining : Z) : Str :=
  str "⏱️ This button is on cooldown for " ++ showZ remaining
  ++ str " more second(s).".

Definition buttonHandler (interaction : ButtonInteraction)
    (state : gmap Str Z * PluginManager) : gmap Str Z * PluginManager :=
  let (clientCooldowns, m) := state in
  match bi_guild interaction with
  | None =>
      (clientCooldowns,
       emit m (InteractionReply interaction
                 (str "❌ This button can only be used in a server.")))
  | Some guildId =>
      match loadedPlugins m !! guildId with
      | None => state
      | Some plugins =>
          match findButtonEntry plugins (bi_customId interaction) with
          | None => state
          | Some (itemId, plugin, handler) =>
              let run (cds : gmap Str Z) :=
                (cds, runButtonCode guildId itemId handler interaction m) in
              match truthyNumber (btn_cooldown handler) with
              | Some seconds =>
                  let cooldownKey :=
                    buttonCooldownKey (bi_customId interaction)
                      (bi_userId interaction) in
                  let now := clock m in
                  let expirationTime :=
                    default 0 (clientCooldowns !! cooldownKey) in
                  if now <? expirationTime then
                    (clientCooldowns,
                     emit m (InteractionReply interaction
                               (buttonCooldownMessage
                                  (ceilSeconds (expirationTime - now)))))
                  else
                    run (<[cooldownKey := now + seconds * 1000]> clientCooldowns)
              | None => run clientCooldowns
              end
          end
      end
  end.

(** *** Install, enable/disable, uninstall *)
Record MarketplaceItem := { mi_status : Str; mi_fileUrl : Str }.

Record OpResult := { success : bool; message : Str }.

Definition hasItem (itemId : Str) (p : InstalledPlugin) : bool :=
  bool_decide (ip_itemId p = itemId).

(** What [downloadPluginCode] gives. *)
Inductive Download :=
| Downloaded (dslCode : Str)
| DownloadFailed (error : Str).

(** [marketplaceItem] is what the marketplace lookup finds and [download]
    the outcome of fetching its URL. *)
Definition installPluginFromMarketplace (guildId itemId : Str)
    (marketplaceItem : option MarketplaceItem) (download : Download)
    (m : PluginManager) : OpResult * PluginManager :=
  match marketplaceItem with
  | None => ({| success := false; message := str "Plugin not found" |}, m)
  | Some item =>
      if negb (bool_decide (mi_status item = str "approved")) then
        ({| success := false; message := str "Not approved" |}, m)
      else
        match download with
        | DownloadFailed error =>
            ({| success := false; message := str "Failed: " ++ error |}, m)
        | Downloaded dslCode =>
            match parseManifest dslCode with
            | None =>
                ({| success := false;
                    message := str "Failed: Error: No manifest" |}, m)
            | Some manifest =>
                let imports := extractImports dslCode in
                let validation := validate dslCode imports (mf_scopes manifest) in
                if negb (valid validation) then
                  ({| success := false;
                      message := str "Scope validation failed: "
                                 ++ join (str "; ") (errors validation) |}, m)
                else
                  let settings := parseSettings dslCode in
                  let existingPlugins :=
                    default [] (installedPlugins m !! guildId) in
                  if existsb (hasItem itemId) existingPlugins then
                    ({| success := false; message := str "Already installed" |}, m)
                  else
                    let installedPlugin :=
                      {| ip_itemId := itemId; ip_guildId := guildId;
                         ip_manifest := manifest; ip_dslCode := dslCode;
                         ip_settings := settings; ip_installedAt := clock m;
                         ip_enabled := true; ip_imports := imports |} in
                    let m1 :=
                      setTables m
                        (<[guildId := existingPlugins ++ [installedPlugin]]>
                           (installedPlugins m))
                        (loadedPlugins m) in
                    ({| success := true;
                        message := str "Installed " ++ mf_name manifest |},
                     loadInstalledPlugin guildId installedPlugin m1)
            end
        end
  end.

(** [plugins.splice(idx, 1)] at the first entry for [itemId] *)
Fixpoint removeFirst (itemId : Str) (plugins : list InstalledPlugin)
  : list InstalledPlugin :=
  match plugins with
  | [] => []
  | p :: rest => if hasItem itemId p then rest else p :: removeFirst itemId rest
  end.

(** [this.loadedPlugins.get(guildId)?.delete(itemId)] *)
Definition unload (guildId itemId : Str)
    (loaded : gmap Str (list (Str * LoadedPlugin)))
  : gmap Str (list (Str * LoadedPlugin)) :=
  match loaded !! guildId with
  | Some plugins => <[guildId := mapDelete plugins itemId]> loaded
  | None => loaded
  end.

Definition uninstallPlugin (guildId itemId : Str) (m : PluginManager)
  : OpResult * PluginManager :=
  match installedPlugins m !! guildId with
  | None => ({| success := false; message := str "Not found" |}, m)
  | Some plugins =>
      if existsb (hasItem itemId) plugins then
        ({| success := true; message := str "Uninstalled" |},
         setTables m
           (<[guildId := removeFirst itemId plugins]> (installedPlugins m))
           (unload guildId itemId (loadedPlugins m)))
      else ({| success := false; message := str "Not found" |}, m)
  end.

Definition setEnabled (p : InstalledPlugin) (enabled : bool) : InstalledPlugin :=
  {| ip_itemId := ip_itemId p; ip_guildId := ip_guildId p;
     ip_manifest := ip_manifest p; ip_dslCode := ip_dslCode p;
     ip_settings := ip_settings p; ip_installedAt := ip_installedAt p;
     ip_enabled := enabled; ip_imports := ip_imports p |}.

(** [plugin.enabled = enabled] on the first entry for [itemId] *)
Fixpoint updateFirst (itemId : Str) (enabled : bool)
    (plugins : list InstalledPlugin) : list InstalledPlugin :=
  match plugins with
  | [] => []
  | p :: rest =>
      if hasItem itemId p then setEnabled p enabled :: rest
      else p :: updateFirst itemId enabled rest
  end.

Definition togglePlugin (guildId itemId : Str) (enabled : bool)
    (m : PluginManager) : OpResult * PluginManager :=
  match installedPlugins m !! guildId with
  | None => ({| success := false; message := str "Not found" |}, m)
  | Some plugins =>
      match List.find (hasItem itemId) plugins with
      | None => ({| success := false; message := str "Not found" |}, m)
      | Some plugin =>
          let m1 :=
            setTables m
              (<[guildId := updateFirst itemId enabled plugins]>
                 (installedPlugins m))
              (loadedPlugins m) in
          if enabled then
            ({| success := true; message := str "Enabled" |},
             loadInstalledPlugin guildId (setEnabled plugin true) m1)
          else
            ({| success := true; message := str "Disabled" |},
             setTables m1 (installedPlugins m1)
               (unload guildId itemId (loadedPlugins m1)))
      end
  end.

(** The operations that change the plugin tables. *)
Inductive Operation :=
| Install (guildId itemId : Str) (marketplaceItem : option MarketplaceItem)
          (download : Download)
| Toggle (guildId itemId : Str) (enabled : bool)
| Uninstall (guildId itemId : Str).

Definition perform (m : PluginManager) (op : Operation) : PluginManager :=
  match op with
  | Install g p item download =>
      snd (installPluginFromMarketplace g p item download m)
  | Toggle g p enabled => snd (togglePlugin g p enabled m)
  | Uninstall g p => snd (uninstallPlugin g p m)
  end.

(** A Loaded Plugin exists for [(g, p)]. *)
Definition isLoaded (m : PluginManager) (g p : Str) : Prop :=
  exists plugins plugin,
    loadedPlugins m !! g = Some plugins /\ mapGet plugins p = Some plugin.

(** An Installed Plugin for [(g, p)] exists and is enabled. *)
Definition isInstalledEnabled (m : PluginManager) (g p : Str) : Prop :=
  exists plugins plugin,
    installedPlugins m !! g = Some plugins /\ plugin ∈ plugins
    /\ ip_itemId plugin = p /\ ip_enabled plugin = true.

(** The installed and the loaded plugins of a guild. *)
Definition installedIn (m : PluginManager) (g : Str) : list InstalledPlugin :=
  default [] (installedPlugins m !! g).

Definition loadedIn (m : PluginManager) (g : Str) : list (Str * LoadedPlugin) :=
  default [] (loadedPlugins m !! g).

(** The invariant of the plugin tables. *)
Definition tablesConsistent (m : PluginManager) : Prop :=
  forall g p, isLoaded m g p <-> isInstalledEnabled m g p.

(** No guild has two installed entries for one plugin. *)
Definition noDuplicates (m : PluginManager) : Prop :=
  forall g, NoDup (map ip_itemId (installedIn m g)).

(** An enabled entry for plugin [p] in a list of installed plugins. *)
Definition EnabledIn (plugins : list InstalledPlugin) (p : Str) : Prop :=
  exists plugin, plugin ∈ plugins /\ ip_itemId plugin = p /\ ip_enabled plugin = true.

(** The tables of one guild agree. *)
Definition consistentIn (m : PluginManager) (g : Str) : Prop :=
  forall p, is_Some (mapGet (loadedIn m g) p) <-> EnabledIn (installedIn m g) p.

(** The invariant that the table operations preserve. *)
Definition tablesOk (m : PluginManager) : Prop :=
  (forall g, consistentIn m g) /\ noDuplicates m.

End WithHost.
End Manager.

(** ** A concrete host and sample plugins, for worked examples *)
Module Sample.
Import Text Model Manager.

Definition lowerChar (c : ascii) : ascii :=
  let n := nat_of_ascii c in
  if ((65 <=? n) && (n <=? 90))%nat then ascii_of_nat (n + 32) else c.

(** The host name of [scheme://host/path], for the URLs of the examples. *)
Fixpoint hostEnd (s : Str) : Str :=
  match s with
  | [] => []
  | c :: s' =>
      if chr_eqb c "/" || chr_eqb c ":" then [] else c :: hostEnd s'
  end.

Definition sampleHostname (url : Str) : option Str :=
  if startsWith (str "http://") url then Some (hostEnd (drop 7 url))
  else if startsWith (str "https://") url then Some (hostEnd (drop 8 url))
  else None.

Definition sampleManifest : PluginManifest :=
  {| mf_name := str "Sample"; mf_version := str "1.0.0"; mf_author := [];
     mf_description := []; mf_tags := [];
     mf_scopes := [str "messages.send"; str "buttons.use"; str "events.reaction"];
     mf_price := 0; mf_homepage := []; mf_iconUrl := []; mf_license := [];
     mf_faq := [] |}.

(** A host whose sandboxed bodies take one millisecond and leave the
    cooldown store alone, and whose listener predicates are false. *)
Definition sampleHost : Host :=
  {| regexError := fun _ => None;
     regexFirst := fun _ _ => None;
     regexAll := fun _ _ => [];
     toLowerCase := map lowerChar;
     parseInt := fun _ => None;
     jsonStringify := fun _ => str "null";
     vmEvalPattern := fun _ _ _ => false;
     vmRun := fun _ _ _ cd t => (cd, t + 1);
     vmRethrows := fun _ _ _ _ _ => None;
     urlHostname := sampleHostname;
     parseManifest := fun _ => Some sampleManifest;
     parseSettings := fun _ => [];
     extractImports := fun _ => [] |}.

(** [command greet { usage ... cooldown 5s parameters { string "username"
    { required true } } on_command { ... } }] as [parseCommands] builds
    it. *)
Definition greet : CommandHandler :=
  {| cmd_description := str "Greet a user";
     cmd_usage := str "?greet <username>";
     cmd_parameters :=
       [(str "username",
         {| ptype := TString; pdescription := str "User to greet";
            prequired := true |})];
     cmd_cooldown := Some 5;
     cmd_userPermissions := None;
     cmd_botPermissions := None;
     cmd_onCommand := str "guilds.send(message.channel_id, parameters.username)";
     cmd_onCooldown := None;
     cmd_onPermissionDeniedUser := None;
     cmd_onPermissionDeniedBot := None |}.

(** [on_click close_ticket { cooldown 5s execute { ... } on_cooldown { ... } }]
    as [parseButtonHandlers] builds it. *)
Definition close_ticket : ButtonHandler :=
  {| btn_cooldown := Some 5;
     btn_execute := str "guilds.send(interaction.channel_id, 1)";
     btn_onCooldown := None |}.

Definition firstReaction : ReactionHandler :=
  {| rh_cooldown := Some 5; rh_onCooldown := [];
     rh_execute := str "guilds.send(reaction.channel_id, 1)" |}.

Definition secondReaction : ReactionHandler :=
  {| rh_cooldown := Some 5; rh_onCooldown := [];
     rh_execute := str "guilds.send(reaction.channel_id, 2)" |}.

Definition samplePlugin : LoadedPlugin :=
  {| lp_itemId := str "tickets"; lp_manifest := sampleManifest;
     lp_dslCode := []; lp_settings := [];
     lp_commands := [(str "greet", greet)];
     lp_buttonHandlers := [(str "close_ticket", close_ticket)];
     lp_onReaction := [firstReaction; secondReaction];
     lp_customEvents := []; lp_customFunctions := [];
     lp_logicHandlers := []; lp_imports := [] |}.

(** A manager with the sample plugin loaded in guild [g1], at time
    1000. *)
Definition sampleManager : PluginManager :=
  {| installedPlugins := ∅;
     loadedPlugins := {[ str "g1" := [(str "tickets", samplePlugin)] ]};
     cooldowns := ∅; httpLogs := ∅; blockedDomains := ∅;
     requestLimits := defaultLimits; clock := 1000; trace := [] |}.

Definition messageOf (content : Str) : Message :=
  {| msg_guild := Some (str "g1"); msg_content := content;
     msg_channelId := str "c1"; msg_authorId := str "u1";
     msg_authorName := str "alice"; msg_id := str "m1";
     msg_channelName := str "general" |}.

Definition click : ButtonInteraction :=
  {| bi_guild := Some (str "g1"); bi_customId := str "close_ticket";
     bi_userId := str "u1"; bi_channelId := str "c1" |}.

Definition thumbsUp : ReactionAdd :=
  {| ra_userBot := false; ra_userId := str "u1"; ra_guild := Some (str "g1");
     ra_channelId := str "c1"; ra_messageId := str "m1"; ra_emoji := str "+1" |}.

Definition earlierRequest (t : Z) : HttpRequestLog :=
  {| log_timestamp := t; log_method := str "GET";
     log_url := str "https://api.example/status"; log_status := 200;
     log_responseSize := 2; log_duration := 10; log_pluginId := str "tickets";
     log_guildId := str "g1"; log_success := true; log_errorReason := None |}.

(** A manager whose per-minute limit of two is used up for the sample
    plugin. *)
Definition saturatedManager : PluginManager :=
  {| installedPlugins := ∅;
     loadedPlugins := {[ str "g1" := [(str "tickets", samplePlugin)] ]};
     cooldowns := ∅;
     httpLogs := {[ str "g1:tickets" := [earlierRequest 500; earlierRequest 900] ]};
     blockedDomains := ∅;
     requestLimits :=
       {| maxRequestsPerMinute := 2; maxRequestsPerHour := 200;
          maxDataPerRequest := 1024; timeoutMs := 10000 |};
     clock := 1000; trace := [] |}.

(** A manager with an empty log and one blocked host. *)
Definition blockingManager : PluginManager :=
  {| installedPlugins := ∅;
     loadedPlugins := {[ str "g1" := [(str "tickets", samplePlugin)] ]};
     cooldowns := ∅; httpLogs := ∅;
     blockedDomains := {[ str "evil.example" ]};
     requestLimits := defaultLimits; clock := 1000; trace := [] |}.

Definition approved : MarketplaceItem :=
  {| mi_status := str "approved"; mi_fileUrl := str "https://cdn.example/tickets.fsx" |}.

(** Install a plugin, disable it, enable it again, uninstall it. *)
Definition sampleOperations : list Operation :=
  [ Install (str "g1") (str "tickets") (Some approved)
    (Downloaded (str "command hi { on_command { guilds.send(1, 2) } }"));
  Toggle (str "g1") (str "tickets") false;
  Toggle (str "g1") (str "tickets") true;
  Uninstall (str "g1") (str "tickets") ].

End Sample.

(** ** Further notions used to state properties of the components *)
Module Notions.
Import Text BlockExtractor ImportValidator Model Manager.

(** [s] does not begin with whitespace. *)
Definition headNotSpace (s : Str) : Prop :=
  match s with
  | [] => True
  | c :: _ => isWhitespace c = false
  end.

(** [content] wrapped in braces again. *)
Definition wrapBlock (content : Str) : Str :=
  "{"%char :: content ++ ["}"%char].

(** Every scope that the requirements table mentions, in the order of the
    README's table of scopes. *)
Definition allScopes : list Str :=
  [str "messages.send"; str "channels.create"; str "channels.delete";
   str "channels.read"; str "db.read"; str "db.write"; str "buttons.use";
   str "events.reaction"; str "voice.connect"].

(** The module prefixes of the dotted features of the requirements table:
    the only names [usedModules] can ever hold. *)
Definition moduleNames : list Str :=
  [str "buttons"; str "interactions"; str "db"; str "guilds"; str "channel";
   str "embeds"; str "fastlink"; str "users"; str "discord"; str "emit";
   str "cooldown"; str "time"; str "math"].

End Notions.

(** ** The functions that the sandbox offers to plugin code
    ([createPluginVM]) *)
Module Sandbox.
Import Text Model Manager.

(** The key of a cooldown entry: guild, plugin, key and user, joined by
    colons. *)
Definition cooldownKey (guildId itemId key userId : Str) : Str :=
  guildId ++ str ":" ++ itemId ++ str ":" ++ key ++ str ":" ++ userId.

(** [cooldown.is_on(key, userId)] *)
Definition cooldown_is_on (guildId itemId key userId : Str) (m : PluginManager)
  : bool :=
  clock m <? default 0 (cooldowns m !! cooldownKey guildId itemId key userId).

(** [cooldown.remaining(userId, key)]: here the user comes first. *)
Definition cooldown_remaining (guildId itemId userId key : Str)
    (m : PluginManager) : Z :=
  Z.max 0 (default 0 (cooldowns m !! cooldownKey guildId itemId key userId)
           - clock m).

(** [cooldown.set(key, userId, seconds)] *)
Definition cooldown_set (guildId itemId key userId : Str) (seconds : Z)
    (m : PluginManager) : PluginManager :=
  setCooldowns m
    (<[cooldownKey guildId itemId key userId := clock m + seconds * 1000]>
       (cooldowns m)).

(** [self.installedPlugins.get(guildId)?.find(p => p.itemId === itemId)] *)
Definition findInstalled (guildId itemId : Str) (m : PluginManager)
  : option InstalledPlugin :=
  match installedPlugins m !! guildId with
  | Some plugins => List.find (hasItem itemId) plugins
  | None => None
  end.

(** [settings.get(key)], that is
    [p?.settings[key]?.value ?? p?.settings[key]?.default]: for a
    declared key, the saved value, or the declared default when there is
    none.  A key that the plugin does not declare gives undefined; when
    it names an inherited member of the settings object, the read finds
    that member, whose [value] and [default] are undefined as long as
    start-up has written no [value] on an inherited member (see
    [Startup.applySaved]). *)
Definition settings_get (guildId itemId key : Str) (m : PluginManager) : Value :=
  match findInstalled guildId itemId m with
  | Some p =>
      match member (ip_settings p) key with
      | Own def =>
          match st_value def with
          | None | Some VUndefined => st_default def
          | Some v => v
          end
      | Inherited => VUndefined
      | Absent => VUndefined
      end
  | None => VUndefined
  end.

(** [plugins.permissions.has_scope(scope)] *)
Definition has_scope (guildId itemId scope : Str) (m : PluginManager) : bool :=
  match findInstalled guildId itemId m with
  | Some p => arrayIncludes (mf_scopes (ip_manifest p)) scope
  | None => false
  end.

(** No colon occurs in [s]. *)
Definition colonFree (s : Str) : Prop := ":"%char ∉ s.

End Sandbox.

(** ** The dispatch of reactions, as the amended claim describes it *)
Module Reactions.
Import Text Model Manager Sandbox.



Section WithHost.
Context {host : Host}.


End WithHost.
End Reactions.

(** ** Loading the installed plugins at start-up
    ([loadAllInstalledPlugins]) *)
Module Startup.
Import Text ImportValidator Model Manager.

(** A row of the table of installed plugins of the database;
    [row_settings] holds the entries of the saved settings (none when
    nothing is saved or the saved text cannot be parsed). *)
Record InstalledRow :=
  { row_guildId : Str; row_itemId : Str; row_pluginName : Str;
    row_enabled : bool; row_installedAt : Z;
    row_settings : list (Str * Value) }.

Definition withValue (def : SettingDef) (value : Value) : SettingDef :=
  {| st_type := st_type def; st_description := st_description def;
     st_default := st_default def; st_value := Some value |}.

(** [if (settings[key]) settings[key].value = value], as far as the
    settings object goes: a declared key gets the saved value.  For a
    saved key that names an inherited member of the object, such as
    [toString] or [__proto__], the test succeeds as well and the value is
    written on that member, which all plain objects share: the settings
    object itself is left as it is, and the write on the shared member is
    outside this model, which describes start-up for tables without such
    saved keys. *)
Definition applySaved (settings : list (Str * SettingDef)) (entry : Str * Value)
  : list (Str * SettingDef) :=
  let (key, value) := entry in
  match member settings key with
  | Own def => mapSet settings key (withValue def value)
  | Inherited => settings
  | Absent => settings
  end.

(** The key of a row: the table has one row for each guild and plugin. *)
Definition rowKey (row : InstalledRow) : Str * Str :=
  (row_guildId row, row_itemId row).

Section WithHost.
Context {host : Host}.

(** What the marketplace lookup finds for a row, and what fetching its
    file gives. *)
Variable lookup : InstalledRow -> option MarketplaceItem.
Variable fetch : InstalledRow -> Download.

(** The Installed Plugin built for a row, or nothing when the row is
    skipped: no marketplace item, a failed download, no manifest, or
    scope errors. *)
Definition rowPlugin (row : InstalledRow) : option InstalledPlugin :=
  match lookup row with
  | None => None
  | Some marketplaceItem =>
      match fetch row with
      | DownloadFailed _ => None
      | Downloaded dslCode =>
          match parseManifest dslCode with
          | None => None
          | Some manifest =>
              let imports := extractImports dslCode in
              let validation := validate dslCode imports (mf_scopes manifest) in
              if negb (valid validation) then None
              else
                let settings :=
                  fold_left applySaved (row_settings row) (parseSettings dslCode) in
                Some {| ip_itemId := row_itemId row; ip_guildId := row_guildId row;
                        ip_manifest := manifest; ip_dslCode := dslCode;
                        ip_settings := settings;
                        ip_installedAt := row_installedAt row;
                        ip_enabled := row_enabled row; ip_imports := imports |}
          end
      end
  end.

(** The body of the loop, for one row. *)
Definition loadRow (m : PluginManager) (row : InstalledRow) : PluginManager :=
  match rowPlugin row with
  | None => m
  | Some installedPlugin =>
      let guildId := row_guildId row in
      let m1 :=
        setTables m
          (<[guildId := default [] (installedPlugins m !! guildId)
                        ++ [installedPlugin]]> (installedPlugins m))
          (loadedPlugins m) in
      loadInstalledPlugin guildId installedPlugin m1
  end.

(** [rows] is the table; the query selects its enabled rows. *)
Definition loadAllInstalledPlugins (rows : list InstalledRow) (m : PluginManager)
  : PluginManager :=
  fold_left loadRow (List.filter row_enabled rows) m.

(** The row can be loaded: its marketplace item exists (whatever its
    status), its file is fetched and has a manifest, and the scope
    validation passes. *)
Definition Loadable (row : InstalledRow) : Prop :=
  exists marketplaceItem dslCode manifest,
    lookup row = Some marketplaceItem
    /\ fetch row = Downloaded dslCode
    /\ parseManifest dslCode = Some manifest
    /\ valid (validate dslCode (extractImports dslCode) (mf_scopes manifest)) = true.

End WithHost.
End Startup.

(** ** What the dispatchers add to the trace *)
Module Effects.
Import Text Model Manager.

Section WithHost.
Context {host : Host}.

(** The bodies of the passive listeners that a message sets off: for
    each loaded plugin in order, each [on_listen] handler in order whose
    predicate gives true. *)
Definition listenerEvents (plugins : list (Str * LoadedPlugin)) (message : Message)
  : list Event :=
  flat_map
    (fun entry : Str * LoadedPlugin =>
       flat_map
         (fun handler =>
            if isListener handler
               && vmEvalPattern (lp_itemId (snd entry)) (lh_pattern handler) message
            then execEvents (snd entry) (lh_action handler) (ListenerContext message)
            else [])
         (lp_logicHandlers (snd entry)))
    plugins.



(** The value bound to a parameter of type [t] from one token. *)
Definition coerce (t : ParamType) (token : Str) : Value :=
  match t with
  | TString => VString token
  | TInt =>
      match parseInt token with
      | None => VString token
      | Some n => VNumber n
      end
  | TBool =>
      VBool (bool_decide (toLowerCase token = str "true")
             || bool_decide (token = str "1"))
  end.

End WithHost.

(** A trigger name: not empty and free of line terminators. *)
Definition WellFormedName (name : Str) : Prop :=
  name <> [] /\ Forall (fun c => isLineTerminator c = false) name.

Definition isStringParam (entry : Str * ParameterDef) : bool :=
  match ptype (snd entry) with TString => true | _ => false end.

End Effects.

(** ** Administration of the outbound HTTP client *)
Module HttpAdmin.
Import Text Model Manager.

Definition setBlockedDomains (m : PluginManager) (domains : gset Str)
  : PluginManager :=
  {| installedPlugins := installedPlugins m; loadedPlugins := loadedPlugins m;
     cooldowns := cooldowns m; httpLogs := httpLogs m;
     blockedDomains := domains; requestLimits := requestLimits m;
     clock := clock m; trace := trace m |}.

(** [blockDomain]: [this.blockedDomains.add(domain)] *)
Definition blockDomain (domain : Str) (m : PluginManager) : PluginManager :=
  setBlockedDomains m ({[ domain ]} ∪ blockedDomains m).

(** [unblockDomain]: [this.blockedDomains.delete(domain)] *)
Definition unblockDomain (domain : Str) (m : PluginManager) : PluginManager :=
  setBlockedDomains m (blockedDomains m ∖ {[ domain ]}).

(** [getHttpLogs(guildId, pluginId)], with a plugin id *)
Definition getHttpLogs (guildId pluginId : Str) (m : PluginManager)
  : list HttpRequestLog :=
  default [] (httpLogs m !! httpKey guildId pluginId).

End HttpAdmin.

(** ** The command surface ([src/PluginCommand.ts]): enabling a plugin *)
Module PluginCommand.
Import Text Model Manager Startup.

Record PluginLog :=
  { pl_guildId : Str; pl_itemId : Str; pl_action : Str; pl_userId : Str;
    pl_details : Str; pl_timestamp : Z }.

(** The tables of the database that the command reads and writes. *)
Record Database :=
  { db_installed : list InstalledRow; db_logs : list PluginLog }.

Inductive CommandReply :=
| ReplyText (text : Str)
| ReplyEmbed (title description : Str).

(** [prisma.installedPlugin.findUnique] on the key (guildId, itemId) *)
Definition findRow (rows : list InstalledRow) (guildId itemId : Str)
  : option InstalledRow :=
  List.find (fun row => bool_decide (rowKey row = (guildId, itemId))) rows.

Definition withEnabled (row : InstalledRow) (enabled : bool) : InstalledRow :=
  {| row_guildId := row_guildId row; row_itemId := row_itemId row;
     row_pluginName := row_pluginName row; row_enabled := enabled;
     row_installedAt := row_installedAt row; row_settings := row_settings row |}.

(** [prisma.installedPlugin.update] of the row with the key. *)
Fixpoint updateRow (rows : list InstalledRow) (guildId itemId : Str)
    (enabled : bool) : list InstalledRow :=
  match rows with
  | [] => []
  | row :: rest =>
      if bool_decide (rowKey row = (guildId, itemId))
      then withEnabled row enabled :: rest
      else row :: updateRow rest guildId itemId enabled
  end.

Section WithHost.
Context {host : Host}.

(** [handleEnable]: the reply (none when the message is not from a
    guild), the database and the manager it leaves. *)
Definition handleEnable (message : Message) (itemId : option Str)
    (db : Database) (m : PluginManager)
  : option CommandReply * Database * PluginManager :=
  match itemId with
  | None | Some [] =>
      (Some (ReplyText
               (str "❌ You must provide a plugin itemId. Usage: `?plugin enable <itemId>`")),
       db, m)
  | Some itemId =>
      match msg_guild message with
      | None => (None, db, m)
      | Some guildId =>
          match findRow (db_installed db) guildId itemId with
          | None =>
              (Some (ReplyText (str "❌ This plugin is not installed in this server.")),
               db, m)
          | Some installed =>
              if row_enabled installed then
                (Some (ReplyText (str "❌ This plugin is already enabled.")), db, m)
              else
                let (result, m1) := togglePlugin guildId itemId true m in
                if negb (success result) then
                  (Some (ReplyText (str "❌ Failed to enable plugin: "
                                    ++ Manager.message result)),
                   db, m1)
                else
                  (Some (ReplyEmbed (str "✅ Plugin Enabled")
                           (str "**" ++ row_pluginName installed
                            ++ str "** is now active")),
                   {| db_installed :=
                        updateRow (db_installed db) guildId itemId true;
                      db_logs :=
                        db_logs db
                        ++ [{| pl_guildId := guildId; pl_itemId := itemId;
                               pl_action := str "ENABLE";
                               pl_userId := msg_authorId message;
                               pl_details :=
                                 str "Plugin " ++ row_pluginName installed
                                 ++ str " enabled";
                               pl_timestamp := clock m1 |}] |},
                   m1)
          end
      end
  end.

End WithHost.
End PluginCommand.

(** ** A backtracking matcher for the regular expressions of the manager

    The patterns are sequences of one-character matchers with greedy
    [*] and [+], capture groups and optional groups, which is what the
    regular expressions of the parsers and of the trigger facility are
    made of.  It serves as the engine of the hosts of the examples. *)
Module Regexp.
Import Text Model.

Inductive Atom :=
| AChar (c : ascii)   (* a literal character *)
| ADot                (* .      any character but a line terminator *)
| ASpace              (* \s *)
| AWord               (* \w *)
| ADigit              (* \d *)
| AWordOrDot          (* [\w.] *)
| ANot (c : ascii).   (* [^c] *)

Inductive Simple :=
| One (a : Atom)
| Star (a : Atom)
| Plus (a : Atom)
| GroupOpen
| GroupClose.

Inductive Item :=
| Plain (s : Simple)
| Opt (group : list Simple).   (* (?: ... )? *)

Definition isWordChar (c : ascii) : bool :=
  let n := nat_of_ascii c in
  ((48 <=? n) && (n <=? 57) || (65 <=? n) && (n <=? 90)
   || (97 <=? n) && (n <=? 122) || (n =? 95))%nat.

Definition isDigitChar (c : ascii) : bool :=
  let n := nat_of_ascii c in ((48 <=? n) && (n <=? 57))%nat.

Definition atomMatches (a : Atom) (c : ascii) : bool :=
  match a with
  | AChar c' => chr_eqb c c'
  | ADot => negb (chr_eqb c "010" || chr_eqb c "013")
  | ASpace => isWhitespace c
  | AWord => isWordChar c
  | ADigit => isDigitChar c
  | AWordOrDot => isWordChar c || chr_eqb c "."
  | ANot c' => negb (chr_eqb c c')
  end.

(** Where the matcher stands: the text still ahead, its index, the
    indices of the groups that are open and the groups that are closed. *)
Record Progress :=
  { pg_rest : Str; pg_pos : nat; pg_open : list nat;
    pg_groups : list (nat * nat) }.

Definition skip (n : nat) (pg : Progress) : Progress :=
  {| pg_rest := drop n (pg_rest pg); pg_pos := (pg_pos pg + n)%nat;
     pg_open := pg_open pg; pg_groups := pg_groups pg |}.

(** The number of characters at the head of [s] that [a] matches. *)
Fixpoint run (a : Atom) (s : Str) : nat :=
  match s with
  | [] => O
  | c :: s' => if atomMatches a c then S (run a s') else O
  end.

(** [matchSimple items k pg]: match [items] at [pg] and go on with [k];
    a greedy quantifier takes as many characters as it can and gives
    them back one by one while what follows fails. *)
Fixpoint matchSimple (items : list Simple) (k : Progress -> option Progress)
    (pg : Progress) : option Progress :=
  match items with
  | [] => k pg
  | One a :: rest =>
      match pg_rest pg with
      | c :: _ => if atomMatches a c then matchSimple rest k (skip 1 pg) else None
      | [] => None
      end
  | Star a :: rest =>
      (fix give (n : nat) : option Progress :=
         match matchSimple rest k (skip n pg) with
         | Some r => Some r
         | None => match n with O => None | S n' => give n' end
         end) (run a (pg_rest pg))
  | Plus a :: rest =>
      (fix give (n : nat) : option Progress :=
         match n with
         | O => None
         | S n' =>
             match matchSimple rest k (skip n pg) with
             | Some r => Some r
             | None => give n'
             end
         end) (run a (pg_rest pg))
  | GroupOpen :: rest =>
      matchSimple rest k
        {| pg_rest := pg_rest pg; pg_pos := pg_pos pg;
           pg_open := pg_pos pg :: pg_open pg; pg_groups := pg_groups pg |}
  | GroupClose :: rest =>
      match pg_open pg with
      | start :: opened =>
          matchSimple rest k
            {| pg_rest := pg_rest pg; pg_pos := pg_pos pg; pg_open := opened;
               pg_groups := pg_groups pg ++ [(start, pg_pos pg)] |}
      | [] => None
      end
  end.

Fixpoint matchItems (items : list Item) (pg : Progress) : option Progress :=
  match items with
  | [] => Some pg
  | Plain s :: rest => matchSimple [s] (matchItems rest) pg
  | Opt group :: rest =>
      match matchSimple group (matchItems rest) pg with
      | Some r => Some r
      | None => matchItems rest pg
      end
  end.

(** The leftmost match in [rest], the text from index [pos] on. *)
Fixpoint search (items : list Item) (rest : Str) (pos : nat)
  : option (nat * Progress) :=
  match matchItems items
          {| pg_rest := rest; pg_pos := pos; pg_open := []; pg_groups := [] |} with
  | Some r => Some (pos, r)
  | None =>
      match rest with
      | [] => None
      | _ :: rest' => search items rest' (S pos)
      end
  end.

Definition toMatch (text : Str) (found : nat * Progress) : RegexMatch :=
  let (start, r) := found in
  {| rm_index := start;
     rm_text := substring start (pg_pos r) text;
     rm_groups := map (fun g : nat * nat => substring (fst g) (snd g) text)
                      (pg_groups r) |}.

(** [re.exec(text)] with [lastIndex = from] *)
Definition execFrom (items : list Item) (text : Str) (from : nat)
  : option (nat * Progress) :=
  search items (drop from text) from.

Definition first (items : list Item) (text : Str) : option RegexMatch :=
  option_map (toMatch text) (execFrom items text 0).

(** The matches of [while ((m = re.exec(text)) !== null)] for a global
    pattern that matches no empty text. *)
Fixpoint allFrom (fuel : nat) (items : list Item) (text : Str) (from : nat)
  : list RegexMatch :=
  match fuel with
  | O => []
  | S fuel' =>
      match execFrom items text from with
      | None => []
      | Some found =>
          toMatch text found
          :: (if (from <? pg_pos (snd found))%nat
              then allFrom fuel' items text (pg_pos (snd found))
              else [])
      end
  end.

Definition all (items : list Item) (text : Str) : list RegexMatch :=
  allFrom (S (length text)) items text 0.

(** *** The patterns *)
Definition lit (s : string) : list Item :=
  map (fun c => Plain (One (AChar c))) (str s).

Definition spaces : Item := Plain (Star ASpace).
Definition spaces1 : Item := Plain (Plus ASpace).
Definition brace : Item := Plain (One (AChar "{")).
Definition captured (a : Atom) : list Item :=
  [Plain GroupOpen; Plain (Plus a); Plain GroupClose].

(** The characters with a meaning of their own in a pattern. *)
Definition isSyntaxChar (c : ascii) : bool :=
  existsb (chr_eqb c) (str "\^$.|?*+()[]{}").

(** A name pasted into a pattern: [.] stands for any character of a
    line, [*] and [+] repeat what precedes them, and a character without
    a meaning of its own stands for itself.  Names that use the other
    constructs of patterns are outside this matcher, which gives no
    pattern for them; the examples use none. *)
Fixpoint namePattern (name : Str) : option (list Item) :=
  match name with
  | [] => Some []
  | c :: rest =>
      let atom :=
        if chr_eqb c "." then Some ADot
        else if isSyntaxChar c then None
        else Some (AChar c) in
      match atom with
      | None => None
      | Some a =>
          match rest with
          | q :: rest' =>
              if chr_eqb q "*" then
                option_map (cons (Plain (Star a))) (namePattern rest')
              else if chr_eqb q "+" then
                option_map (cons (Plain (Plus a))) (namePattern rest')
              else option_map (cons (Plain (One a))) (namePattern rest)
          | [] => Some [Plain (One a)]
          end
      end
  end.

Definition patternOf (re : Regex) : option (list Item) :=
  match re with
  | ReCommand =>
      Some (lit "command" ++ [spaces1] ++ captured AWordOrDot ++ [spaces; brace])
  | ReOnCommand => Some (lit "on_command" ++ [spaces; brace])
  | ReCooldown =>
      Some (lit "cooldown" ++ [spaces1] ++ captured ADigit ++ lit "s")
  | ReOnReaction => Some (lit "on_reaction" ++ [spaces; brace])
  | ReOnCooldown => Some (lit "on_cooldown" ++ [spaces; brace])
  | ReExecute => Some (lit "execute" ++ [spaces; brace])
  | ReOnClick =>
      Some (lit "on_click" ++ [spaces1] ++ captured AWord ++ [spaces; brace])
  | ReLogic => Some (lit "logic" ++ [spaces; brace])
  | ReFun =>
      Some (lit "fun" ++ [spaces1] ++ captured AWord
            ++ [spaces; Plain (One (AChar "(")); Plain (Star (ANot ")"));
                Plain (One (AChar ")"));
                Opt ([Star ASpace; One (AChar "-"); One (AChar ">");
                      Star ASpace; Plus AWord]);
                spaces; brace])
  | ReOnListen => Some (lit "on_listen" ++ [spaces; brace])
  | ReIfArrow =>
      Some (lit "if" ++ [spaces1] ++ captured (ANot "{")
            ++ [spaces] ++ lit "->" ++ [spaces; brace])
  | ReOnTrigger =>
      Some (lit "on_trigger" ++ [spaces1] ++ captured AWord ++ [spaces; brace])
  | ReEvent =>
      Some (lit "event" ++ [spaces1] ++ captured AWord ++ [spaces; brace])
  | ReParameters => None
  | ReParameter => None
  | ReField field =>
      option_map
        (fun name =>
           name ++ [spaces1; Plain (One (AChar (ascii_of_nat 34)))]
           ++ captured (ANot (ascii_of_nat 34))
           ++ [Plain (One (AChar (ascii_of_nat 34)))])
        (namePattern field)
  | ReFunctionNamed name =>
      option_map
        (fun pattern =>
           lit "fun" ++ [spaces1] ++ pattern
           ++ [spaces; Plain (One (AChar "(")); Plain GroupOpen;
               Plain (Star (ANot ")")); Plain GroupClose;
               Plain (One (AChar ")")); spaces;
               Opt ([One (AChar "-"); One (AChar ">"); Star ASpace; Plus AWord]);
               spaces; brace])
        (namePattern name)
  end.

Definition engineFirst (re : Regex) (text : Str) : option RegexMatch :=
  match patternOf re with
  | Some items => first items text
  | None => None
  end.

Definition engineAll (re : Regex) (text : Str) : list RegexMatch :=
  match patternOf re with
  | Some items => all items text
  | None => []
  end.

End Regexp.

(** ** Further worked examples *)
Module Scenario.
Import Text Model Manager Sample.

(** A source text whose only construct of the requirements table is
    [guilds.send]. *)
Definition hiCode : Str :=
  str "command hi { on_command { guilds.send(1, 2) } }".

(** A source text that deletes from the database. *)
Definition wipeCode : Str :=
  str "command wipe { on_command { db.delete(1) } }".

(** The manager after the sample plugin has been installed from
    [hiCode] in guild [g1]. *)
Definition installedManager : PluginManager :=
  snd (installPluginFromMarketplace (host := sampleHost) (str "g1") (str "tickets")
         (Some approved) (Downloaded hiCode) (newManager 0)).

Definition hiInstalled : InstalledPlugin :=
  {| ip_itemId := str "tickets"; ip_guildId := str "g1";
     ip_manifest := sampleManifest; ip_dslCode := hiCode; ip_settings := [];
     ip_installedAt := 0; ip_enabled := true; ip_imports := [] |}.

(** The table of installed plugins: one enabled row and one disabled
    row. *)
Definition ticketsRow : Startup.InstalledRow :=
  {| Startup.row_guildId := str "g1"; Startup.row_itemId := str "tickets";
     Startup.row_pluginName := str "Sample"; Startup.row_enabled := true;
     Startup.row_installedAt := 10; Startup.row_settings := [] |}.

Definition pollsRow : Startup.InstalledRow :=
  {| Startup.row_guildId := str "g1"; Startup.row_itemId := str "polls";
     Startup.row_pluginName := str "Polls"; Startup.row_enabled := false;
     Startup.row_installedAt := 20; Startup.row_settings := [] |}.

Definition sampleRows : list Startup.InstalledRow := [ticketsRow; pollsRow].

Definition sampleLookup (row : Startup.InstalledRow) : option MarketplaceItem :=
  Some approved.

Definition sampleFetch (row : Startup.InstalledRow) : Download :=
  Downloaded hiCode.

(** [parseInt] on the decimal numerals of the examples: an optional sign
    and the longest prefix of digits. *)
Definition isDigit (c : ascii) : bool :=
  let n := nat_of_ascii c in ((48 <=? n) && (n <=? 57))%nat.

Fixpoint digitsValue (acc : Z) (s : Str) : Z :=
  match s with
  | [] => acc
  | c :: s' =>
      if isDigit c then digitsValue (acc * 10 + Z.of_nat (nat_of_ascii c - 48)) s'
      else acc
  end.

Definition sampleParseInt (s : Str) : option Z :=
  match trimStart s with
  | [] => None
  | c :: rest =>
      if chr_eqb c "-" then
        match rest with
        | d :: _ => if isDigit d then Some (- digitsValue 0 rest) else None
        | [] => None
        end
      else if isDigit c then Some (digitsValue 0 (c :: rest))
      else None
  end.

(** A host whose listener predicates hold when the pattern occurs in the
    content of the message. *)
Definition listeningHost : Host :=
  {| regexError := fun _ => None;
     regexFirst := fun _ _ => None;
     regexAll := fun _ _ => [];
     toLowerCase := map lowerChar;
     parseInt := sampleParseInt;
     jsonStringify := fun _ => str "null";
     vmEvalPattern := fun _ pattern message => includes pattern (msg_content message);
     vmRun := fun _ _ _ cd t => (cd, t + 1);
     vmRethrows := fun _ _ _ _ _ => None;
     urlHostname := sampleHostname;
     parseManifest := fun _ => Some sampleManifest;
     parseSettings := fun _ => [];
     extractImports := fun _ => [] |}.

(** [command roll] with an int and a bool parameter. *)
Definition roll : CommandHandler :=
  {| cmd_description := str "Roll a die";
     cmd_usage := str "?roll <sides> [lucky]";
     cmd_parameters :=
       [(str "sides",
         {| ptype := TInt; pdescription := str "Number of sides"; prequired := true |});
        (str "lucky",
         {| ptype := TBool; pdescription := str "Roll twice"; prequired := false |})];
     cmd_cooldown := None;
     cmd_userPermissions := None;
     cmd_botPermissions := None;
     cmd_onCommand := str "guilds.send(message.channel_id, parameters.sides)";
     cmd_onCooldown := None;
     cmd_onPermissionDeniedUser := None;
     cmd_onPermissionDeniedBot := None |}.

(** [command remind], which declares a required int parameter after a
    string parameter. *)
Definition remind : CommandHandler :=
  {| cmd_description := str "Set a reminder";
     cmd_usage := str "?remind <text> <minutes>";
     cmd_parameters :=
       [(str "text",
         {| ptype := TString; pdescription := str "What to remind of";
            prequired := true |});
        (str "minutes",
         {| ptype := TInt; pdescription := str "In how many minutes";
            prequired := true |})];
     cmd_cooldown := None;
     cmd_userPermissions := None;
     cmd_botPermissions := None;
     cmd_onCommand := str "guilds.send(message.channel_id, parameters.text)";
     cmd_onCooldown := None;
     cmd_onPermissionDeniedUser := None;
     cmd_onPermissionDeniedBot := None |}.

Definition onHello : LogicHandler :=
  {| lh_pattern := str "hello";
     lh_action := str "guilds.send(message.channel_id, 1)";
     lh_type := on_listen |}.

Definition onTicketClosed : LogicHandler :=
  {| lh_pattern := str "ticket_closed";
     lh_action := str "db.insert(1, 2)";
     lh_type := on_trigger |}.

Definition greeterPlugin : LoadedPlugin :=
  {| lp_itemId := str "greeter"; lp_manifest := sampleManifest;
     lp_dslCode := []; lp_settings := [];
     lp_commands := [(str "roll", roll); (str "remind", remind)];
     lp_buttonHandlers := [];
     lp_onReaction := [];
     lp_customEvents := [(str "ticket_closed", [str "guilds.send(1, 2)"])];
     lp_customFunctions := [];
     lp_logicHandlers := [onHello; onTicketClosed];
     lp_imports := [] |}.

(** A host whose plugins declare one setting, [prefix], with default
    [!]. *)
Definition prefixSetting : SettingDef :=
  {| st_type := TString; st_description := str "Command prefix";
     st_default := VString (str "!"); st_value := None |}.

Definition settingsHost : Host :=
  {| regexError := fun _ => None;
     regexFirst := fun _ _ => None;
     regexAll := fun _ _ => [];
     toLowerCase := map lowerChar;
     parseInt := sampleParseInt;
     jsonStringify := fun _ => str "null";
     vmEvalPattern := fun _ _ _ => false;
     vmRun := fun _ _ _ cd t => (cd, t + 1);
     vmRethrows := fun _ _ _ _ _ => None;
     urlHostname := sampleHostname;
     parseManifest := fun _ => Some sampleManifest;
     parseSettings := fun _ => [(str "prefix", prefixSetting)];
     extractImports := fun _ => [] |}.

(** An enabled row with a saved value for [prefix] and one for a key
    that the plugin does not declare. *)
Definition configuredRow : Startup.InstalledRow :=
  {| Startup.row_guildId := str "g1"; Startup.row_itemId := str "tickets";
     Startup.row_pluginName := str "Sample"; Startup.row_enabled := true;
     Startup.row_installedAt := 10;
     Startup.row_settings :=
       [(str "prefix", VString (str "$")); (str "colour", VString (str "red"))] |}.


(** A manager whose per-hour limit of two is used up for the sample
    plugin, by requests made more than a minute ago. *)
Definition hourlyManager : PluginManager :=
  {| installedPlugins := ∅;
     loadedPlugins := {[ str "g1" := [(str "tickets", samplePlugin)] ]};
     cooldowns := ∅;
     httpLogs := {[ str "g1:tickets" := [earlierRequest 500; earlierRequest 900] ]};
     blockedDomains := ∅;
     requestLimits :=
       {| maxRequestsPerMinute := 30; maxRequestsPerHour := 2;
          maxDataPerRequest := 1024; timeoutMs := 10000 |};
     clock := 100000; trace := [] |}.


(** [command grant { usage ... parameters { string "__proto__"
    { required true } } on_command { ... } }] as [parseCommands] builds
    it. *)
Definition grant : CommandHandler :=
  {| cmd_description := str "Grant a role";
     cmd_usage := str "?grant <user>";
     cmd_parameters :=
       [(str "__proto__",
         {| ptype := TString; pdescription := str "User to grant the role to";
            prequired := true |})];
     cmd_cooldown := None;
     cmd_userPermissions := None;
     cmd_botPermissions := None;
     cmd_onCommand := str "guilds.send(message.channel_id, 1)";
     cmd_onCooldown := None;
     cmd_onPermissionDeniedUser := None;
     cmd_onPermissionDeniedBot := None |}.

Definition adminPlugin : LoadedPlugin :=
  {| lp_itemId := str "admin"; lp_manifest := sampleManifest;
     lp_dslCode := []; lp_settings := [];
     lp_commands := [(str "grant", grant)];
     lp_buttonHandlers := [];
     lp_onReaction := [];
     lp_customEvents := [];
     lp_customFunctions := [];
     lp_logicHandlers := [];
     lp_imports := [] |}.

(** A manager with the admin plugin loaded in guild [g1]. *)
Definition adminManager : PluginManager :=
  {| installedPlugins := ∅;
     loadedPlugins := {[ str "g1" := [(str "admin", adminPlugin)] ]};
     cooldowns := ∅; httpLogs := ∅; blockedDomains := ∅;
     requestLimits := defaultLimits; clock := 1000; trace := [] |}.

(** A host whose regular expressions are those of the matcher above,
    whose sandboxed bodies take one millisecond and leave the cooldown
    store alone. *)
Definition engineHost : Host :=
  {| regexError := fun _ => None;
     regexFirst := Regexp.engineFirst;
     regexAll := Regexp.engineAll;
     toLowerCase := map lowerChar;
     parseInt := fun _ => None;
     jsonStringify := fun _ => str "null";
     vmEvalPattern := fun _ _ _ => false;
     vmRun := fun _ _ _ cd t => (cd, t + 1);
     vmRethrows := fun _ _ _ _ _ => None;
     urlHostname := sampleHostname;
     parseManifest := fun _ => Some sampleManifest;
     parseSettings := fun _ => [];
     extractImports := fun _ => [] |}.

(** A plugin whose source defines one function, [close_ticket], and a
    command that triggers the function named [close.*]. *)
Definition closerSource : Str :=
  str "command sweep { on_command { emit.trigger('fun:close.*') } } logic { fun close_ticket() { guilds.send(1, 2) } }".

Definition closerInstalled : InstalledPlugin :=
  {| ip_itemId := str "closer"; ip_guildId := str "g1";
     ip_manifest := sampleManifest; ip_dslCode := closerSource;
     ip_settings := []; ip_installedAt := 0; ip_enabled := true;
     ip_imports := [] |}.

(** The plugin as [loadInstalledPlugin] parses it from its source. *)
Definition closerPlugin : LoadedPlugin :=
  buildPlugin (host := engineHost) closerInstalled.

(** A manager with the closer plugin loaded in guild [g1]. *)
Definition closerManager : PluginManager :=
  {| installedPlugins := ∅;
     loadedPlugins := {[ str "g1" := [(str "closer", closerPlugin)] ]};
     cooldowns := ∅; httpLogs := ∅; blockedDomains := ∅;
     requestLimits := defaultLimits; clock := 1000; trace := [] |}.

(** A manager with the greeter plugin loaded in guild [g1]. *)
Definition dispatchManager : PluginManager :=
  {| installedPlugins := ∅;
     loadedPlugins := {[ str "g1" := [(str "greeter", greeterPlugin)] ]};
     cooldowns := ∅; httpLogs := ∅; blockedDomains := ∅;
     requestLimits := defaultLimits; clock := 1000; trace := [] |}.

End Scenario.

(* ===================================================================== *)
(** * Part II. Properties                                                 *)
(* ===================================================================== *)

Section BlockExtractorFacts.
Import Text BlockExtractor.

Lemma chr_eqb_eq a b : chr_eqb a b = true <-> a = b.
Proof. unfold chr_eqb. apply Ascii.eqb_eq. Qed.

Lemma chr_eqb_neq a b : chr_eqb a b = false <-> a <> b.
Proof. unfold chr_eqb. apply Ascii.eqb_neq. Qed.

Lemma findOpen_none rest i :
  "{"%char ∉ rest -> findOpen rest i = None.
Proof.
  revert i. induction rest as [|c rest IH]; intros i Hno; simpl; [done|].
  destruct (chr_eqb c "{") eqn:E.
  - apply chr_eqb_eq in E. subst. exfalso. apply Hno. left.
  - apply IH. intros Hin. apply Hno. by right.
Qed.

Lemma findOpen_first pre rest i :
  "{"%char ∉ pre ->
  findOpen (pre ++ "{"%char :: rest) i = Some (S (i + length pre)).
Proof.
  revert i. induction pre as [|c pre IH]; intros i Hno; simpl.
  - f_equal. lia.
  - destruct (chr_eqb c "{") eqn:E.
    + apply chr_eqb_eq in E. subst. exfalso. apply Hno. left.
    + rewrite IH; [f_equal; lia|]. intros Hin. apply Hno. by right.
Qed.

Lemma scanClose_bounds rest : forall depth i,
  (i <= scanClose depth rest i <= i + length rest)%nat.
Proof.
  induction rest as [|c rest IH]; intros depth i; simpl; [lia|].
  destruct (chr_eqb c "}").
  - destruct (_ =? 0); [lia|].
    specialize (IH ((if chr_eqb c "{" then depth + 1 else depth) - 1) (S i)). lia.
  - specialize (IH (if chr_eqb c "{" then depth + 1 else depth) (S i)). lia.
Qed.

(** A balanced stretch leaves the depth as it found it and is skipped
    whole. *)
Lemma scanClose_balanced b :
  Balanced b ->
  forall depth rest i, 1 <= depth ->
    scanClose depth (b ++ rest) i = scanClose depth rest (i + length b).
Proof.
  induction 1 as [|c w Ho Hc Hw IHw|b w Hb IHb Hw IHw]; intros depth rest i Hd.
  - simpl. f_equal. lia.
  - simpl.
    apply chr_eqb_neq in Ho, Hc. rewrite Ho, Hc.
    rewrite IHw by done. f_equal. lia.
  - cbn [app scanClose].
    replace (chr_eqb "{" "}") with false by done.
    replace (chr_eqb "{" "{") with true by done.
    rewrite <- app_assoc. rewrite IHb by lia.
    cbn [app scanClose].
    replace (chr_eqb "}" "}") with true by done.
    replace (chr_eqb "}" "{") with false by done.
    destruct (depth + 1 - 1 =? 0) eqn:E; [lia|].
    replace (depth + 1 - 1) with depth by lia.
    rewrite IHw by done. f_equal. simpl. rewrite length_app. simpl. lia.
Qed.

Lemma scanClose_at_match body rest i :
  Balanced body ->
  scanClose 1 (body ++ "}"%char :: rest) i = (i + length body)%nat.
Proof.
  intros Hb. rewrite scanClose_balanced by (done || lia).
  simpl. done.
Qed.

Lemma substring_take_drop a b (s : Str) :
  (a <= b <= length s)%nat -> substring a b s = take (b - a) (drop a s).
Proof.
  intros H. unfold substring.
  replace (Nat.min a (length s)) with a by lia.
  replace (Nat.min b (length s)) with b by lia.
  replace (Nat.min a b) with a by lia.
  replace (Nat.max a b) with b by lia. done.
Qed.

Lemma Closing_char k c w :
  c <> "{"%char -> c <> "}"%char -> Closing k w -> Closing k (c :: w).
Proof.
  intros Ho Hc. destruct k as [|k]; simpl.
  - by constructor.
  - intros (b & w' & -> & Hb & Hw). exists (c :: b), w'.
    split; [done|]. split; [by constructor|done].
Qed.

Lemma Closing_block k b w :
  Balanced b -> Closing k w -> Closing k ("{"%char :: b ++ "}"%char :: w).
Proof.
  intros Hb. destruct k as [|k]; simpl.
  - by constructor.
  - intros (b' & w' & -> & Hb' & Hw).
    exists ("{"%char :: b ++ "}"%char :: b'), w'.
    split; [|split; [by constructor|done]].
    simpl. f_equal. rewrite <- app_assoc. done.
Qed.

(** When the second loop leaves by [break], the text it has passed is
    made of balanced segments, one closing brace for each level of depth
    it started with. *)
Lemma scanClose_stops rest : forall k i j,
  scanClose (Z.of_nat (S k)) rest i = (i + j)%nat ->
  (j < length rest)%nat ->
  rest !! j = Some "}"%char /\ Closing k (take j rest).
Proof.
  induction rest as [|c rest IH]; intros k i j Hscan Hlt; simpl in Hlt; [lia|].
  cbn [scanClose] in Hscan.
  destruct (chr_eqb c "}") eqn:Ec.
  - apply chr_eqb_eq in Ec. subst c.
    replace (chr_eqb "}" "{") with false in Hscan by done.
    cbv zeta in Hscan.
    replace (Z.of_nat (S k) - 1) with (Z.of_nat k) in Hscan by lia.
    destruct k as [|k].
    + simpl in Hscan. assert (j = 0%nat) as -> by lia.
      split; [done|]. simpl. constructor.
    + replace (Z.of_nat (S k) =? 0) with false in Hscan by (symmetry; apply Z.eqb_neq; lia).
      destruct j as [|j].
      { pose proof (scanClose_bounds rest (Z.of_nat (S k)) (S i)). lia. }
      destruct (IH k (S i) j) as [Hj Hcl]; [rewrite Hscan; lia|lia|].
      split; [done|]. simpl. exists [], (take j rest).
      split; [done|]. split; [constructor|done].
  - cbv zeta in Hscan.
    destruct j as [|j].
    { pose proof (scanClose_bounds rest
        (if chr_eqb c "{" then Z.of_nat (S k) + 1 else Z.of_nat (S k)) (S i)). lia. }
    destruct (chr_eqb c "{") eqn:Eo.
    + apply chr_eqb_eq in Eo. subst c.
      replace (Z.of_nat (S k) + 1) with (Z.of_nat (S (S k))) in Hscan by lia.
      destruct (IH (S k) (S i) j) as [Hj Hcl]; [rewrite Hscan; lia|lia|].
      split; [done|].
      destruct Hcl as (b & w' & Heq & Hb & Hw).
      change (take (S j) ("{"%char :: rest)) with ("{"%char :: take j rest).
      rewrite Heq. by apply Closing_block.
    + destruct (IH k (S i) j) as [Hj Hcl]; [rewrite Hscan; lia|lia|].
      split; [done|].
      change (take (S j) (c :: rest)) with (c :: take j rest).
      apply chr_eqb_neq in Ec, Eo. by apply Closing_char.
Qed.

(** Without a matching closing brace the second loop runs to the end of
    the text. *)
Lemma scanClose_unmatched rest i :
  (forall j, ~ MatchAt rest j) ->
  scanClose 1 rest i = (i + length rest)%nat.
Proof.
  intros Hno.
  pose proof (scanClose_bounds rest 1 i) as Hb.
  destruct (decide (scanClose 1 rest i = (i + length rest)%nat)) as [|Hne]; [done|].
  exfalso.
  destruct (scanClose_stops rest 0 i (scanClose 1 rest i - i)) as [Hj Hcl].
  - change (Z.of_nat 1) with 1. lia.
  - lia.
  - apply (Hno (scanClose 1 rest i - i)%nat). by split.
Qed.

Lemma extract_no_opening (text : Str) (startIndex : nat) :
  "{"%char ∉ drop startIndex text ->
  extractBlockContent text startIndex = {| content := []; endIndex := startIndex |}.
Proof.
  intros Hno. unfold extractBlockContent. by rewrite findOpen_none.
Qed.

Lemma extract_findOpen (pre rest : Str) (startIndex : nat) :
  (startIndex <= length pre)%nat ->
  "{"%char ∉ drop startIndex pre ->
  findOpen (drop startIndex (pre ++ "{"%char :: rest)) startIndex
  = Some (S (length pre)).
Proof.
  intros Hle Hno.
  rewrite drop_app_le by done.
  rewrite findOpen_first by done.
  rewrite length_drop. f_equal. lia.
Qed.

Lemma drop_past_open (pre rest : Str) :
  drop (S (length pre)) (pre ++ "{"%char :: rest) = rest.
Proof.
  rewrite drop_app_ge by lia.
  replace (S (length pre) - length pre)%nat with 1%nat by lia. done.
Qed.

Lemma extract_matched (pre body rest : Str) (startIndex : nat) :
  (startIndex <= length pre)%nat ->
  "{"%char ∉ drop startIndex pre ->
  Balanced body ->
  extractBlockContent (pre ++ "{"%char :: body ++ "}"%char :: rest) startIndex
  = {| content := trim body;
       endIndex := (length pre + length body + 2)%nat |}.
Proof.
  intros Hle Hno Hbal. unfold extractBlockContent.
  rewrite extract_findOpen by done.
  rewrite drop_past_open.
  rewrite scanClose_at_match by done.
  f_equal; [|lia].
  f_equal. rewrite substring_take_drop.
  - rewrite drop_past_open.
    replace (S (length pre) + length body - S (length pre))%nat
      with (length body) by lia.
    by rewrite take_app_length.
  - rewrite !length_app. simpl. rewrite length_app. simpl. lia.
Qed.

Lemma extract_unmatched (pre rest : Str) (startIndex : nat) :
  (startIndex <= length pre)%nat ->
  "{"%char ∉ drop startIndex pre ->
  (forall j, ~ MatchAt rest j) ->
  extractBlockContent (pre ++ "{"%char :: rest) startIndex
  = {| content := trim rest;
       endIndex := (length (pre ++ "{"%char :: rest) + 1)%nat |}.
Proof.
  intros Hle Hno Hun. unfold extractBlockContent.
  rewrite extract_findOpen by done.
  rewrite drop_past_open.
  rewrite scanClose_unmatched by done.
  assert (Hlen : (S (length pre) + length rest)%nat
                 = length (pre ++ "{"%char :: rest)).
  { rewrite length_app. simpl. lia. }
  rewrite Hlen. f_equal. f_equal.
  rewrite substring_take_drop by lia.
  rewrite drop_past_open.
  rewrite take_ge; [done|]. rewrite <- Hlen. lia.
Qed.

(** The two notions above can be decided by running the scanner, which
    is how concrete texts are checked. *)
Lemma Balanced_by_scan (body : Str) :
  scanClose 1 (body ++ ["}"%char]) 0 = length body -> Balanced body.
Proof.
  intros Hscan.
  destruct (scanClose_stops (body ++ ["}"%char]) 0 0 (length body)) as [_ Hcl].
  - exact Hscan.
  - rewrite length_app. simpl. lia.
  - simpl in Hcl. by rewrite take_app_length in Hcl.
Qed.

Lemma unmatched_by_scan (rest : Str) :
  scanClose 1 rest 0 = length rest -> forall j, ~ MatchAt rest j.
Proof.
  intros Hscan j [Hj Hbal].
  pose proof (lookup_lt_Some _ _ _ Hj) as Hlt.
  rewrite <- (take_drop_middle rest j "}"%char Hj) in Hscan at 1.
  rewrite scanClose_at_match in Hscan by done.
  rewrite length_take in Hscan. lia.
Qed.

(** In balanced text every opening brace has its matching closing
    brace. *)
Lemma Balanced_open_matched (text : Str) :
  Balanced text ->
  forall pre after, text = pre ++ "{"%char :: after ->
    exists body rest, after = body ++ "}"%char :: rest /\ Balanced body.
Proof.
  induction 1 as [|c w Ho Hc Hw IHw|b w Hb IHb Hw IHw]; intros pre after Heq.
  - destruct pre; discriminate.
  - destruct pre as [|c' pre]; simpl in Heq.
  + injection Heq as -> _. done.
  + injection Heq as _ Heq. by apply (IHw pre).
  - destruct pre as [|c' pre]; simpl in Heq.
  + injection Heq as <-. by exists b, w.
  + injection Heq as _ Heq. apply app_eq_inv in Heq as [(k & Hb' & Hk)|(k & Hpre & Hk)].
    * destruct k as [|c k]; [discriminate|].
      injection Hk as <- ->.
      destruct (IHb pre k Hb') as (body & rest & -> & Hbody).
      exists body, (rest ++ "}"%char :: w). split; [|done].
      by rewrite <- app_assoc.
    * destruct k as [|c k]; [discriminate|].
      injection Hk as <- Hw'.
      by apply (IHw k).
Qed.

(** C5 (amended): if no opening brace occurs at or after the start index,
    the Block Extractor returns the empty content and the unchanged start
    index; otherwise, when the first opening brace has a matching closing
    brace, as it has in text whose braces are balanced, it returns the
    whitespace-trimmed substring strictly between the two (nested blocks
    intact) and the index just past the closing brace. *)
Theorem extractBlockContent_trimmed_block (text : Str) (startIndex : nat) :
  ("{"%char ∉ drop startIndex text ->
     extractBlockContent text startIndex
     = {| content := []; endIndex := startIndex |})
  /\ (forall pre body rest : Str,
        text = pre ++ "{"%char :: body ++ "}"%char :: rest ->
        (startIndex <= length pre)%nat ->
        "{"%char ∉ drop startIndex pre ->
        Balanced body ->
        extractBlockContent text startIndex
        = {| content := trim body;
             endIndex := (length pre + length body + 2)%nat |})
  /\ (Balanced text ->
      "{"%char ∈ drop startIndex text ->
      exists pre body rest : Str,
        text = pre ++ "{"%char :: body ++ "}"%char :: rest
        /\ (startIndex <= length pre)%nat
        /\ ("{"%char ∉ drop startIndex pre)
        /\ Balanced body
        /\ extractBlockContent text startIndex
           = {| content := trim body;
                endIndex := (length pre + length body + 2)%nat |}).
Proof.
  split; [|split].
  - apply extract_no_opening.
  - intros pre body rest -> Hle Hno Hbal. by apply extract_matched.
  - intros Hbal Hin.
  assert (Hlen : (startIndex < length text)%nat).
  { destruct (decide (startIndex < length text)%nat) as [|Hge]; [done|].
    rewrite drop_ge in Hin by lia. by apply elem_of_nil in Hin. }
  apply list_elem_of_split_l in Hin as (l1 & l2 & Hsplit & Hno).
  assert (Htext : text = (take startIndex text ++ l1) ++ "{"%char :: l2).
  { rewrite <- app_assoc, <- Hsplit. by rewrite take_drop. }
  destruct (Balanced_open_matched text Hbal _ _ Htext) as (body & rest & -> & Hbody).
  assert (Htake : length (take startIndex text) = startIndex)
    by (rewrite length_take; lia).
  exists (take startIndex text ++ l1), body, rest.
  assert (Hdrop : drop startIndex (take startIndex text ++ l1) = l1).
  { rewrite drop_app_ge by lia. rewrite Htake, Nat.sub_diag. done. }
  split; [done|]. split; [rewrite length_app; lia|].
  split; [by rewrite Hdrop|]. split; [done|].
  rewrite Htext at 1. apply extract_matched; [rewrite length_app; lia| |done].
  by rewrite Hdrop.
Qed.

Lemma extractBlockContent_trimmed_block_witness :
  extractBlockContent (str "ab }") 1 = {| content := []; endIndex := 1 |}
  /\ extractBlockContent (str "on x { if a { b } }  tail {}") 3
     = {| content := str "if a { b }"; endIndex := 19 |}.
Proof.
  split.
  - apply (proj1 (extractBlockContent_trimmed_block (str "ab }") 1)).
  apply (bool_decide_unpack _). vm_compute. exact I.
  - apply (proj1 (proj2 (extractBlockContent_trimmed_block
                         (str "on x { if a { b } }  tail {}") 3))
           (str "on x ") (str " if a { b } ") (str "  tail {}")).
  + reflexivity.
  + simpl. lia.
  + apply (bool_decide_unpack _). vm_compute. exact I.
  + apply Balanced_by_scan. reflexivity.
Defined.

(** C5 as stated fails: the content is not the substring between the
    braces when that substring begins or ends with whitespace. *)
Lemma extractBlockContent_verbatim_counterexample :
  Balanced (str " a ")
  /\ extractBlockContent (str "{ a }") 0
     = {| content := str "a"; endIndex := 5 |}
  /\ str "a" <> str " a ".
Proof.
  split; [apply Balanced_by_scan; reflexivity|].
  split; [reflexivity|discriminate].
Qed.

(** C10: when the first opening brace at or after the start index has no
    matching closing brace, the Block Extractor returns the
    whitespace-trimmed remainder of the text after that brace and an end
    index equal to the length of the text plus one. *)
Theorem extractBlockContent_unclosed (pre rest : Str) (startIndex : nat) :
  (startIndex <= length pre)%nat ->
  "{"%char ∉ drop startIndex pre ->
  (forall j, ~ MatchAt rest j) ->
  extractBlockContent (pre ++ "{"%char :: rest) startIndex
  = {| content := trim rest;
       endIndex := (length (pre ++ "{"%char :: rest) + 1)%nat |}.
Proof. apply extract_unmatched. Qed.

Lemma extractBlockContent_unclosed_witness :
  extractBlockContent (str "cmd {  a { b } c ") 0
  = {| content := str "a { b } c"; endIndex := 18 |}.
Proof.
  apply (extractBlockContent_unclosed (str "cmd ") (str "  a { b } c ") 0).
  - simpl. lia.
  - apply (bool_decide_unpack _). vm_compute. exact I.
  - apply unmatched_by_scan. reflexivity.
Defined.

End BlockExtractorFacts.



Section ImportValidatorFacts.
Import Text ImportValidator.

Lemma startsWith_spec (prefix s : Str) :
  startsWith prefix s = true <-> exists post, s = prefix ++ post.
Proof.
  revert s. induction prefix as [|p prefix IH]; intros s; simpl.
  - split; [intros _; by exists s|done].
  - destruct s as [|c s].
    + split; [done|]. intros [post Hpost]. discriminate.
    + rewrite andb_true_iff, chr_eqb_eq, IH. split.
      * intros [-> [post ->]]. by exists post.
      * intros [post Hpost]. injection Hpost as -> ->. split; [done|by exists post].
Qed.

Lemma includes_spec (needle hay : Str) :
  includes needle hay = true <-> Occurs needle hay.
Proof.
  unfold Occurs. induction hay as [|c hay IH]; simpl.
  - rewrite orb_false_r, startsWith_spec. split.
    + intros [post ->]. by exists [], post.
    + intros (pre & post & Heq). destruct pre; [by exists post|discriminate].
  - rewrite orb_true_iff, startsWith_spec, IH. split.
    + intros [[post ->]|(pre & post & ->)].
      * by exists [], post.
      * by exists (c :: pre), post.
    + intros (pre & post & Heq). destruct pre as [|c' pre].
      * left. by exists post.
      * right. injection Heq as -> ->. by exists pre, post.
Qed.

Lemma arrayIncludes_spec (xs : list Str) (x : Str) :
  arrayIncludes xs x = true <-> x ∈ xs.
Proof. unfold arrayIncludes. apply bool_decide_eq_true. Qed.

Lemma setAdd_elem (x y : Str) (s : list Str) :
  y ∈ setAdd x s <-> y ∈ s \/ y = x.
Proof.
  unfold setAdd. destruct (arrayIncludes s x) eqn:E.
  - apply arrayIncludes_spec in E. split; [by left|]. by intros [?| ->].
  - rewrite elem_of_app, list_elem_of_singleton. done.
Qed.


Lemma addAll_elem (required acc : list Str) (y : Str) :
  y ∈ fold_left (fun acc' scope => setAdd scope acc') required acc
  <-> y ∈ acc \/ y ∈ required.
Proof.
  revert acc. induction required as [|r required IH]; intros acc; simpl.
  - split; [by left|]. intros [?|H]; [done|]. by apply elem_of_nil in H.
  - rewrite IH, setAdd_elem, elem_of_cons. tauto.
Qed.


Lemma scanTable_cons dslCode entry table acc :
  scanTable dslCode (entry :: table) acc
  = scanTable dslCode table (addRequired dslCode acc entry).
Proof. done. Qed.

Lemma scanTable_elem dslCode table : forall acc y,
  y ∈ scanTable dslCode table acc
  <-> y ∈ acc \/ exists feature required,
        (feature, required) ∈ table
        /\ Occurs feature dslCode /\ y ∈ required.
Proof.
  induction table as [|[f r] table IH]; intros acc y.
  - simpl. split; [by left|]. intros [?|(f & r & H & _)]; [done|]. by apply elem_of_nil in H.
  - rewrite scanTable_cons, IH. unfold addRequired.
    destruct (includes f dslCode) eqn:E.
    + apply includes_spec in E. rewrite addAll_elem. split.
      * intros [[?|?]|(f' & r' & Hin & Hocc & Hy)]; [by left| |].
        -- right. exists f, r. split; [left|done].
        -- right. exists f', r'. split; [by right|done].
      * intros [?|(f' & r' & Hin & Hocc & Hy)]; [by left; left|].
        apply elem_of_cons in Hin as [Heq|Hin].
        -- injection Heq as -> ->. left. by right.
        -- right. by exists f', r'.
    + split.
      * intros [?|(f' & r' & Hin & Hocc & Hy)]; [by left|].
        right. exists f', r'. split; [by right|done].
      * intros [?|(f' & r' & Hin & Hocc & Hy)]; [by left|].
        apply elem_of_cons in Hin as [Heq|Hin].
        -- injection Heq as -> ->. apply includes_spec in Hocc. congruence.
        -- right. by exists f', r'.
Qed.


Lemma requiredScopes_spec (dslCode scope : Str) :
  scope ∈ requiredScopes dslCode <-> RequiredBy dslCode scope.
Proof.
  unfold requiredScopes. rewrite scanTable_elem. unfold RequiredBy. split; [|by right].
  intros [H|H]; [by apply elem_of_nil in H|done].
Qed.

Lemma missingScopes_spec (dslCode : Str) (scopes : list Str) (scope : Str) :
  scope ∈ missingScopes dslCode scopes
  <-> RequiredBy dslCode scope /\ scope ∉ scopes.
Proof.
  unfold missingScopes.
  rewrite list_elem_of_In, filter_In, <- list_elem_of_In, requiredScopes_spec.
  rewrite negb_true_iff, <- not_true_iff_false, arrayIncludes_spec. done.
Qed.


Lemma validate_valid_false (dslCode : Str) (declaredImports scopes : list Str) :
  valid (validate dslCode declaredImports scopes) = false
  <-> missingScopes dslCode scopes <> [].
Proof.
  unfold validate. cbn [valid].
  destruct (missingScopes dslCode scopes) as [|m ms]; simpl; split; done.
Qed.


(** Scenario A: the only capability used is the messaging send primitive
    and its scope is declared. *)
Example validate_scenario_A :
  validate (str "command hi { on_command { guilds.send(message.channel_id, 1) } }")
    [] [str "messages.send"]
  = {| valid := true; errors := []; warnings := [] |}.
Proof. vm_compute. reflexivity. Qed.

(** Scenario B: a persistence write with no declared scope. *)
Example validate_scenario_B :
  validate (str "command add { on_command { db.insert(1, 2) } }") [] []
  = {| valid := false;
       errors := [str "Missing required scopes in manifest: db.write"];
       warnings := [] |}.
Proof. vm_compute. reflexivity. Qed.

(** An unused import is reported as a warning only. *)
Example validate_unused_import :
  validate (str "command hi { on_command { guilds.send(message.channel_id, 1) } }")
    [str "fastlink"] [str "messages.send"]
  = {| valid := true; errors := [];
       warnings := [str "Unused 'use' statements (can be removed): fastlink"] |}.
Proof. vm_compute. reflexivity. Qed.

End ImportValidatorFacts.

Section DispatcherFacts.
Import Text Model Manager.
Context {host : Host}.

(** *** Effects of [executeCode] and of the passive listeners *)

Lemma trace_emit (m : PluginManager) (e : Event) :
  trace (emit m e) = trace m ++ [e].
Proof. done. Qed.

Lemma executeCode_trace (plugin : LoadedPlugin) (code : Str) (ctx : Context)
    (m : PluginManager) :
  trace (executeCode plugin code ctx m)
  = trace m ++ match code with
               | [] => []
               | _ :: _ => [Exec (lp_itemId plugin) code ctx]
               end.
Proof.
  unfold executeCode. destruct code as [|c code].
  - by rewrite app_nil_r.
  - by destruct (vmRun _ _ _ _ _).
Qed.

Lemma executeCode_tables (plugin : LoadedPlugin) (code : Str) (ctx : Context)
    (m : PluginManager) :
  loadedPlugins (executeCode plugin code ctx m) = loadedPlugins m
  /\ installedPlugins (executeCode plugin code ctx m) = installedPlugins m.
Proof.
  unfold executeCode. destruct code as [|c code]; [done|].
  by destruct (vmRun _ _ _ _ _).
Qed.

Lemma listeners_of_plugin_trace (plugin : LoadedPlugin) (message : Message)
    (handlers : list LogicHandler) : forall m,
  exists events,
    trace (fold_left
             (fun m2 handler =>
                if isListener handler
                   && vmEvalPattern (lp_itemId plugin) (lh_pattern handler) message
                then executeCode plugin (lh_action handler) (ListenerContext message) m2
                else m2)
             handlers m)
    = trace m ++ events
    /\ Forall (isListenerExec message) events.
Proof.
  induction handlers as [|h handlers IH]; intros m; simpl.
  - exists []. by rewrite app_nil_r.
  - destruct (isListener h && vmEvalPattern _ _ _).
    + destruct (IH (executeCode plugin (lh_action h) (ListenerContext message) m))
        as (events & Htr & Hall).
      rewrite executeCode_trace in Htr.
      eexists. rewrite Htr, <- app_assoc. split; [done|].
      apply Forall_app. split; [|done].
      destruct (lh_action h); constructor; [|constructor].
      by eexists _, _.
    + apply IH.
Qed.

Lemma handleLogicListeners_trace (plugins : list (Str * LoadedPlugin))
    (message : Message) : forall m,
  exists events,
    trace (handleLogicListeners plugins message m) = trace m ++ events
    /\ Forall (isListenerExec message) events.
Proof.
  unfold handleLogicListeners.
  induction plugins as [|[itemId plugin] plugins IH]; intros m; simpl.
  - exists []. by rewrite app_nil_r.
  - destruct (listeners_of_plugin_trace plugin message (lp_logicHandlers plugin) m)
      as (ev1 & Htr1 & Hall1).
    match goal with |- context [fold_left _ plugins ?m1] =>
      destruct (IH m1) as (ev2 & Htr2 & Hall2) end.
    exists (ev1 ++ ev2). rewrite Htr2, Htr1, <- app_assoc. split; [done|].
    by apply Forall_app.
Qed.

(** *** Parameter binding *)

Lemma objectSet_lookup (obj : gmap Str Value) (key : Str) (v : Value) :
  key <> protoKey -> objectSet obj key v !! key = Some v.
Proof.
  intros Hne. unfold objectSet. destruct (decide (key = protoKey)); [done|].
  by rewrite lookup_insert_eq.
Qed.

Lemma objectSet_lookup_ne (obj : gmap Str Value) (key key' : Str) (v : Value) :
  key <> key' -> objectSet obj key v !! key' = obj !! key'.
Proof.
  intros Hne. unfold objectSet. destruct (decide (key = protoKey)); [done|].
  by rewrite lookup_insert_ne.
Qed.

Lemma bindParameter_exhausted (args : list Str) (parameters : gmap Str Value)
    (argIndex : nat) (key : Str) (def : ParameterDef) :
  (length args <= argIndex)%nat ->
  bindParameter args (parameters, argIndex) (key, def)
  = (if prequired def then objectSet parameters key VUndefined else parameters,
     argIndex).
Proof.
  intros Hle. unfold bindParameter.
  replace (argIndex <? length args)%nat with false
    by (symmetry; apply Nat.ltb_ge; lia).
  by destruct (prequired def).
Qed.

Lemma bindParameter_consumes (args : list Str) (parameters : gmap Str Value)
    (argIndex : nat) (entry : Str * ParameterDef) :
  (argIndex < length args)%nat ->
  (argIndex < snd (bindParameter args (parameters, argIndex) entry) <= length args)%nat.
Proof.
  intros Hlt. destruct entry as [key def]. unfold bindParameter.
  replace (argIndex <? length args)%nat with true
    by (symmetry; apply Nat.ltb_lt; lia).
  destruct (ptype def); simpl; lia.
Qed.

(** Once the arguments are used up, a key left undefined stays so. *)
Lemma bind_keeps_undefined (args : list Str) (params : list (Str * ParameterDef)) :
  forall (parameters : gmap Str Value) (argIndex : nat) (key : Str),
    (length args <= argIndex)%nat ->
    parameters !! key = Some VUndefined ->
    fst (fold_left (bindParameter args) params (parameters, argIndex)) !! key
    = Some VUndefined.
Proof.
  induction params as [|[k d] params IH]; intros parameters argIndex key Hle Hkey;
    cbn [fold_left]; [done|].
  rewrite bindParameter_exhausted by done.
  apply IH; [done|].
  destruct (prequired d); [|done].
  destruct (decide (k = key)) as [->|Hne].
  - unfold objectSet. destruct (decide (key = protoKey)); [done|].
    by rewrite lookup_insert_eq.
  - by rewrite objectSet_lookup_ne.
Qed.

Lemma bind_exhausted_missing (args : list Str) (params : list (Str * ParameterDef)) :
  forall (parameters : gmap Str Value) (argIndex : nat) (key : Str) (def : ParameterDef),
    (length args <= argIndex)%nat ->
    key <> protoKey ->
    (key, def) ∈ params -> prequired def = true ->
    fst (fold_left (bindParameter args) params (parameters, argIndex)) !! key
    = Some VUndefined.
Proof.
  induction params as [|[k d] params IH];
    intros parameters argIndex key def Hle Hproto Hin Hreq; cbn [fold_left].
  - by apply elem_of_nil in Hin.
  - rewrite bindParameter_exhausted by done.
    apply elem_of_cons in Hin as [Heq|Hin].
    + injection Heq as <- <-. rewrite Hreq.
      apply bind_keeps_undefined; [done|]. by apply objectSet_lookup.
    + by apply (IH _ _ _ def).
Qed.

Lemma countRequired_pos (params : list (Str * ParameterDef)) :
  (0 < countRequired params)%nat ->
  exists key def, (key, def) ∈ params /\ prequired def = true.
Proof.
  unfold countRequired. induction params as [|[k d] params IH]; simpl; [lia|].
  destruct (prequired d) eqn:E.
  - intros _. exists k, d. split; [left|done].
  - intros H. destruct (IH H) as (key & def & Hin & Hreq).
    exists key, def. split; [by right|done].
Qed.

(** With fewer arguments left than required parameters ahead, some
    required parameter ends up undefined, provided no parameter is named
    [__proto__]. *)
Lemma bind_too_few (args : list Str) (params : list (Str * ParameterDef)) :
  forall (parameters : gmap Str Value) (argIndex : nat),
    protoKey ∉ map fst params ->
    (length args - argIndex < countRequired params)%nat ->
    exists key def,
      (key, def) ∈ params /\ prequired def = true /\ key <> protoKey
      /\ fst (fold_left (bindParameter args) params (parameters, argIndex)) !! key
         = Some VUndefined.
Proof.
  induction params as [|[k d] params IH]; intros parameters argIndex Hproto Hfew.
  - unfold countRequired in Hfew. simpl in Hfew. lia.
  - assert (Hrest : protoKey ∉ map fst params)
      by (intros H; apply Hproto; simpl; by right).
    destruct (decide (argIndex < length args)%nat) as [Hlt|Hge].
    + pose proof (bindParameter_consumes args parameters argIndex (k, d) Hlt) as Hc.
      cbn [fold_left].
      destruct (bindParameter args (parameters, argIndex) (k, d))
        as [parameters' argIndex'] eqn:Hstep.
      simpl in Hc.
      destruct (IH parameters' argIndex' Hrest)
        as (key & def & Hin & Hreq & Hne & Hund).
      * unfold countRequired in *. simpl in Hfew.
        destruct (prequired d); simpl in Hfew; lia.
      * exists key, def. split; [by right|done].
    + destruct (countRequired_pos ((k, d) :: params)) as (key & def & Hin & Hreq);
        [lia|].
      assert (Hne : key <> protoKey).
      { intros ->. apply Hproto. apply list_elem_of_fmap. by exists (protoKey, def). }
      exists key, def. split; [done|]. split; [done|]. split; [done|].
      apply (bind_exhausted_missing _ _ _ _ _ def); [lia|done|done|done].
Qed.

Lemma missingParams_nonempty (handler : CommandHandler) (args : list Str) :
  protoKey ∉ map fst (cmd_parameters handler) ->
  (length args < countRequired (cmd_parameters handler))%nat ->
  missingParams handler (bindParameters handler args) <> [].
Proof.
  intros Hproto Hfew.
  destruct (bind_too_few args (cmd_parameters handler) ∅ 0%nat Hproto)
    as (key & def & Hin & Hreq & Hne & Hund); [lia|].
  unfold missingParams, bindParameters.
  intros Hnil. apply map_eq_nil in Hnil.
  assert (Hmem : In (key, def)
            (List.filter
               (fun entry : Str * ParameterDef =>
                  prequired (snd entry)
                  && isMissing
                       (fst (fold_left (bindParameter args)
                               (cmd_parameters handler) (∅, 0%nat)))
                       (fst entry))
               (cmd_parameters handler))).
  { apply filter_In. split; [by apply list_elem_of_In|].
    simpl. rewrite Hreq. unfold isMissing.
    destruct (decide (key = protoKey)); [done|]. by rewrite Hund. }
  rewrite Hnil in Hmem. destruct Hmem.
Qed.

(** For a command none of whose parameters is named [__proto__]: invoked
    with fewer positional tokens than it has required parameters, it is
    answered with the missing-parameter message, which ends with the
    command's usage string, and its main body is not executed: apart from
    the bodies of passive listeners, the reply is the only effect. *)
Lemma handleCommand_missing_parameters
    (message : Message) (m : PluginManager) (guild : Str)
    (plugins : list (Str * LoadedPlugin)) (commandName : Str)
    (args : list Str) (plugin : LoadedPlugin) (handler : CommandHandler) :
  msg_guild message = Some guild ->
  loadedPlugins m !! guild = Some plugins ->
  startsWith (str "?") (msg_content message) = true ->
  resolveCommand plugins (msg_content message) = Some (commandName, args) ->
  findCommand plugins commandName = Some (plugin, handler) ->
  protoKey ∉ map fst (cmd_parameters handler) ->
  (length args < countRequired (cmd_parameters handler))%nat ->
  exists missing listenerEvents,
    missing <> []
    /\ trace (handleCommand message m)
       = trace m ++ listenerEvents
         ++ [Reply message (missingParamsMessage missing (cmd_usage handler))]
    /\ Forall (isListenerExec message) listenerEvents
    /\ (exists before,
          missingParamsMessage missing (cmd_usage handler)
          = before ++ cmd_usage handler).
Proof.
  intros Hguild Hloaded Hprefix Hresolve Hfind Hproto Hfew.
  pose proof (missingParams_nonempty handler args Hproto Hfew) as Hmissing.
  destruct (handleLogicListeners_trace plugins message m) as (events & Htr & Hall).
  exists (missingParams handler (bindParameters handler args)), events.
  split; [done|]. split; [|split; [done|]].
  - unfold handleCommand.
    rewrite Hguild, Hloaded, Hprefix, Hresolve, Hfind. cbn [negb].
    destruct (missingParams handler (bindParameters handler args)) as [|k ks];
      [done|].
    cbn [length Nat.ltb Nat.leb].
    rewrite trace_emit, Htr, <- app_assoc. done.
  - unfold missingParamsMessage. eexists.
    rewrite !app_assoc. done.
Qed.

End DispatcherFacts.

(** C4 (what the dispatcher does when a required parameter is named
    [__proto__]): the command [grant] has one required parameter, named
    [__proto__]; invoked with no token at all, it is not answered with the
    missing-parameter message: its main body is executed, with a
    parameters object that has no property of its own. *)
Theorem handleCommand_proto_parameter_runs :
  Manager.countRequired (Model.cmd_parameters Scenario.grant) = 1%nat
  /\ Manager.resolveCommand (host := Sample.sampleHost)
       [(str "admin", Scenario.adminPlugin)] (str "?grant")
     = Some (str "grant", [])
  /\ Manager.missingParams Scenario.grant
       (Manager.bindParameters (host := Sample.sampleHost) Scenario.grant []) = []
  /\ Model.trace
       (Manager.handleCommand (host := Sample.sampleHost)
          (Sample.messageOf (str "?grant")) Scenario.adminManager)
     = [Model.Exec (str "admin") (Model.cmd_onCommand Scenario.grant)
          (Model.CommandContext (Sample.messageOf (str "?grant")) ∅)].
Proof.
  split; [reflexivity|]. split; [vm_compute; reflexivity|].
  split; vm_compute; reflexivity.
Qed.

Section CooldownFacts.
Import Text BlockExtractor Model Manager Sandbox Reactions.
Context {host : Host}.

Lemma executeCode_execEvents (plugin : LoadedPlugin) (code : Str) (ctx : Context)
    (m : PluginManager) :
  trace (executeCode plugin code ctx m) = trace m ++ execEvents plugin code ctx.
Proof. apply executeCode_trace. Qed.

(** [handleButton] runs the execute body of the first matching handler;
    neither the handler's cooldown nor the clock nor the cooldown store
    is consulted. *)
Lemma handleButton_executes (interaction : ButtonInteraction) (m : PluginManager)
    (guild : Str) (plugins : list (Str * LoadedPlugin))
    (plugin : LoadedPlugin) (handler : ButtonHandler) :
  bi_guild interaction = Some guild ->
  loadedPlugins m !! guild = Some plugins ->
  findButton plugins (bi_customId interaction) = Some (plugin, handler) ->
  handleButton interaction m
  = executeCode plugin (btn_execute handler) (InteractionContext interaction) m.
Proof. intros Hg Hl Hf. unfold handleButton. by rewrite Hg, Hl, Hf. Qed.

(** Only the first plugin with a handler for the button id is used. *)
Lemma findButton_first (plugins before after : list (Str * LoadedPlugin))
    (itemId : Str) (plugin : LoadedPlugin) (customId : Str) (handler : ButtonHandler) :
  plugins = before ++ (itemId, plugin) :: after ->
  Forall (fun entry => mapGet (lp_buttonHandlers (snd entry)) customId = None) before ->
  mapGet (lp_buttonHandlers plugin) customId = Some handler ->
  findButton plugins customId = Some (plugin, handler).
Proof.
  intros -> Hbefore Hget.
  induction before as [|[i p] before IH]; simpl.
  - by rewrite Hget.
  - inversion Hbefore as [|? ? Hp Hrest]; subst. simpl in Hp. rewrite Hp. by apply IH.
Qed.

(** *** What the parsers hand to the dispatcher *)

Lemma mapGet_value {V} (entries : list (Str * V)) (k : Str) (v : V) :
  mapGet entries k = Some v -> v ∈ map snd entries.
Proof.
  induction entries as [|[k0 v0] entries IH]; simpl; [done|].
  destruct (decide (k0 = k)).
  - intros [= ->]. left.
  - intros H. right. by apply IH.
Qed.

Lemma mapSet_values {V} (P : V -> Prop) (entries : list (Str * V)) (k : Str) (v : V) :
  Forall P (map snd entries) -> P v -> Forall P (map snd (mapSet entries k v)).
Proof.
  intros Hall Hv. induction entries as [|[k0 v0] entries IH]; simpl.
  - by constructor.
  - inversion Hall as [|? ? H0 Hrest]; subst.
  destruct (decide (k0 = k)); simpl; constructor; auto.
Qed.

Lemma fold_mapSet_values {A V} (P : V -> Prop) (key : A -> Str) (value : A -> V)
    (items : list A) : forall entries : list (Str * V),
  Forall P (map snd entries) -> (forall a, P (value a)) ->
  Forall P (map snd (fold_left (fun acc a => mapSet acc (key a) (value a)) items entries)).
Proof.
  induction items as [|a items IH]; intros entries Hall Hv; simpl; [done|].
  apply IH; [|done]. by apply mapSet_values.
Qed.

(** [parseButtonHandlers] never extracts a cooldown-denied body. *)
Lemma parseButtonHandlers_onCooldown (dslCode buttonId : Str) (handler : ButtonHandler) :
  mapGet (parseButtonHandlers dslCode) buttonId = Some handler ->
  btn_onCooldown handler = None.
Proof.
  intros Hget. apply mapGet_value in Hget.
  unfold parseButtonHandlers in Hget.
  eapply (proj1 (Forall_forall (fun h => btn_onCooldown h = None) _)); [|exact Hget].
  apply (fold_mapSet_values (fun h => btn_onCooldown h = None)
         (fun m => group m 1)
         (fun m =>
            {| btn_cooldown :=
                 parseCooldown (content (extractBlockContent dslCode (braceOf m)));
               btn_execute :=
                 subBlock ReExecute (content (extractBlockContent dslCode (braceOf m)));
               btn_onCooldown := None |})); [constructor|done].
Qed.

(** [parseCommands] never extracts permissions or denial bodies. *)
Lemma parseCommands_denial_paths (dslCode commandName : Str) (handler : CommandHandler) :
  mapGet (parseCommands dslCode) commandName = Some handler ->
  cmd_userPermissions handler = None /\ cmd_botPermissions handler = None
  /\ cmd_onCooldown handler = None
  /\ cmd_onPermissionDeniedUser handler = None
  /\ cmd_onPermissionDeniedBot handler = None.
Proof.
  intros Hget. apply mapGet_value in Hget.
  unfold parseCommands in Hget.
  eapply (proj1 (Forall_forall
                 (fun h => cmd_userPermissions h = None /\ cmd_botPermissions h = None
                           /\ cmd_onCooldown h = None
                           /\ cmd_onPermissionDeniedUser h = None
                           /\ cmd_onPermissionDeniedBot h = None) _)); [|exact Hget].
  apply (fold_mapSet_values _ (fun m => group m 1)
         (fun m =>
            {| cmd_description :=
                 extractString (content (extractBlockContent dslCode (braceOf m)))
                   (str "description");
               cmd_usage :=
                 extractString (content (extractBlockContent dslCode (braceOf m)))
                   (str "usage");
               cmd_parameters :=
                 parseParameters (content (extractBlockContent dslCode (braceOf m)));
               cmd_cooldown :=
                 parseCooldown (content (extractBlockContent dslCode (braceOf m)));
               cmd_userPermissions := None;
               cmd_botPermissions := None;
               cmd_onCommand :=
                 subBlock ReOnCommand (content (extractBlockContent dslCode (braceOf m)));
               cmd_onCooldown := None;
               cmd_onPermissionDeniedUser := None;
               cmd_onPermissionDeniedBot := None |})); [constructor|done].
Qed.

(** [handleCommand], once the command is resolved and its parameters are
    present, runs the main body; it consults neither the handler's
    cooldown or permissions nor the cooldown store. *)
Lemma handleCommand_executes (message : Message) (m : PluginManager) (guild : Str)
    (plugins : list (Str * LoadedPlugin)) (commandName : Str) (args : list Str)
    (plugin : LoadedPlugin) (handler : CommandHandler) :
  msg_guild message = Some guild ->
  loadedPlugins m !! guild = Some plugins ->
  startsWith (str "?") (msg_content message) = true ->
  resolveCommand plugins (msg_content message) = Some (commandName, args) ->
  findCommand plugins commandName = Some (plugin, handler) ->
  missingParams handler (bindParameters handler args) = [] ->
  handleCommand message m
  = executeCode plugin (cmd_onCommand handler)
      (CommandContext message (bindParameters handler args))
      (handleLogicListeners plugins message m).
Proof.
  intros Hg Hl Hp Hr Hf Hmiss. unfold handleCommand.
  by rewrite Hg, Hl, Hp, Hr, Hf, Hmiss.
Qed.

(** *** The reaction dispatcher *)

Lemma handleReaction_gate (guildId : Str) (reaction : ReactionAdd) (itemId : Str)
    (plugin : LoadedPlugin) (m : PluginManager) (handler : ReactionHandler)
    (seconds : Z) :
  truthyNumber (rh_cooldown handler) = Some seconds ->
  handleReaction guildId reaction itemId plugin m handler
  = let cdKey := reactionCooldownKey guildId itemId (ra_userId reaction) in
    if clock m <? default 0 (cooldowns m !! cdKey)
    then executeCode plugin (rh_onCooldown handler)
           (ReactionContext reaction guildId) m
    else executeCode plugin (rh_execute handler)
           (ReactionContext reaction guildId)
           (setCooldowns m (<[cdKey := clock m + seconds * 1000]> (cooldowns m))).
Proof. intros Hcd. unfold handleReaction. by rewrite Hcd. Qed.









End CooldownFacts.



(** C2 (what the dispatcher does on a repeated command): the command
  [greet] declares a cooldown of 5 seconds; invoked twice by the same
  user one millisecond apart, its main body is executed both times. *)
Theorem handleCommand_ignores_cooldown :
  Model.cmd_cooldown Sample.greet = Some 5
  /\ Model.clock (Manager.handleCommand (host := Sample.sampleHost)
                  (Sample.messageOf (str "?greet bob")) Sample.sampleManager)
   = 1001
  /\ Model.trace
     (Manager.handleCommand (host := Sample.sampleHost)
        (Sample.messageOf (str "?greet bob"))
        (Manager.handleCommand (host := Sample.sampleHost)
           (Sample.messageOf (str "?greet bob")) Sample.sampleManager))
   = [Model.Exec (str "tickets") (Model.cmd_onCommand Sample.greet)
        (Model.CommandContext (Sample.messageOf (str "?greet bob"))
           {[ str "username" := Model.VString (str "bob") ]});
      Model.Exec (str "tickets") (Model.cmd_onCommand Sample.greet)
        (Model.CommandContext (Sample.messageOf (str "?greet bob"))
           {[ str "username" := Model.VString (str "bob") ]})].
Proof. split; [reflexivity|]. split; vm_compute; reflexivity. Qed.

(** C3 (what the dispatcher does on a repeated click): the button
    [close_ticket] declares a cooldown of 5 seconds; clicked twice by the
    same user one millisecond apart, its execute body runs both times.  On
    the same two clicks the client's own button handler runs the execute
    body once and then answers with its fixed text: no cooldown-denied
    body of the plugin runs on either path. *)
Theorem handleButton_ignores_cooldown :
  Model.btn_cooldown Sample.close_ticket = Some 5
  /\ Model.clock (Manager.handleButton (host := Sample.sampleHost)
                    Sample.click Sample.sampleManager)
     = 1001
  /\ Model.trace
       (Manager.handleButton (host := Sample.sampleHost) Sample.click
          (Manager.handleButton (host := Sample.sampleHost)
             Sample.click Sample.sampleManager))
     = [Model.Exec (str "tickets") (Model.btn_execute Sample.close_ticket)
          (Model.InteractionContext Sample.click);
        Model.Exec (str "tickets") (Model.btn_execute Sample.close_ticket)
          (Model.InteractionContext Sample.click)]
  /\ Model.trace
       (snd (Manager.buttonHandler (host := Sample.sampleHost) Sample.click
               (Manager.buttonHandler (host := Sample.sampleHost) Sample.click
                  (∅, Sample.sampleManager))))
     = [Model.Exec (str "tickets") (Model.btn_execute Sample.close_ticket)
          (Model.InteractionContext Sample.click);
        Model.InteractionReply Sample.click
          (Manager.buttonCooldownMessage 5)].
Proof.
  split; [reflexivity|]. split; [vm_compute; reflexivity|].
  split; vm_compute; reflexivity.
Qed.

Section TriggerFacts.
Import Text Model Manager.
Context {host : Host}.

(** When the pattern built from the function name is well formed and has
    no match in the emitting plugin's source, a function-kind trigger
    executes no body and changes nothing, and for a loaded plugin the
    trigger facility throws "Function '...' not found" to its caller. *)
Lemma emitTrigger_lookup_fails
    (guildId itemId target functionName : Str)
    (data : option (gmap Str Value)) (m : PluginManager) :
  parseTarget target = Some (KindFun, functionName) ->
  regexError (ReFunctionNamed functionName) = None ->
  (forall plugins plugin,
     loadedPlugins m !! guildId = Some plugins ->
     mapGet plugins itemId = Some plugin ->
     regexFirst (ReFunctionNamed functionName) (lp_dslCode plugin) = None) ->
  snd (emitTrigger guildId itemId target data m) = m
  /\ (isLoaded m guildId itemId ->
      fst (emitTrigger guildId itemId target data m)
      = Threw (functionNotFound functionName)).
Proof.
  intros Htarget Hpattern Hundefined. unfold emitTrigger, handleFunctionTrigger.
  rewrite Htarget. split.
  - destruct (loadedPlugins m !! guildId) as [plugins|] eqn:Hl; [|done].
    destruct (mapGet plugins itemId) as [plugin|] eqn:Hp; [|done].
    by rewrite Hpattern, (Hundefined plugins plugin).
  - intros (plugins & plugin & Hl & Hp).
    by rewrite Hl, Hp, Hpattern, (Hundefined plugins plugin).
Qed.

(** A pattern that is not well formed makes the trigger facility throw
    the [SyntaxError] of [new RegExp] instead, with nothing run. *)
Lemma emitTrigger_ill_formed_name
    (guildId itemId target functionName message : Str)
    (data : option (gmap Str Value)) (m : PluginManager) :
  parseTarget target = Some (KindFun, functionName) ->
  regexError (ReFunctionNamed functionName) = Some message ->
  isLoaded m guildId itemId ->
  emitTrigger guildId itemId target data m = (Threw message, m).
Proof.
  intros Htarget Hpattern (plugins & plugin & Hl & Hp).
  unfold emitTrigger, handleFunctionTrigger.
  by rewrite Htarget, Hl, Hp, Hpattern.
Qed.

End TriggerFacts.

(** C8 (what the trigger facility does with the name [close.*]): the
    closer plugin's source defines the single function [close_ticket],
    and its command [sweep] triggers [fun:close.*].  The name is pasted
    into the lookup pattern as it is, the pattern matches the definition
    of [close_ticket], and the trigger returns normally after executing
    that function's body: no "not found" is raised for [close.*], which
    names no function of the plugin, whereas the trigger
    [fun:open_ticket] throws "Function 'open_ticket' not found" and runs
    nothing. *)
Theorem emitTrigger_pattern_name_runs_function :
  Model.lp_customFunctions Scenario.closerPlugin
  = [(str "close_ticket", str "guilds.send(1, 2)")]
  /\ option_map Model.cmd_onCommand
       (Model.mapGet (Model.lp_commands Scenario.closerPlugin) (str "sweep"))
     = Some (str "emit.trigger('fun:close.*')")
  /\ Manager.parseTarget (str "fun:close.*") = Some (Manager.KindFun, str "close.*")
  /\ Model.regexFirst (Host := Scenario.engineHost)
       (Model.ReFunctionNamed (str "close.*")) Scenario.closerSource
     = Some {| Model.rm_index := 69; Model.rm_text := str "fun close_ticket() {";
               Model.rm_groups := [[]] |}
  /\ fst (Manager.emitTrigger (host := Scenario.engineHost) (str "g1")
            (str "closer") (str "fun:close.*") None Scenario.closerManager)
     = Manager.Returned
  /\ Model.trace
       (snd (Manager.emitTrigger (host := Scenario.engineHost) (str "g1")
               (str "closer") (str "fun:close.*") None Scenario.closerManager))
     = [Model.Exec (str "closer") (str "guilds.send(1, 2)")
          (Model.TriggerContext (str "g1") ∅ None)]
  /\ Manager.emitTrigger (host := Scenario.engineHost) (str "g1")
       (str "closer") (str "fun:open_ticket") None Scenario.closerManager
     = (Manager.Threw (str "Function 'open_ticket' not found"),
        Scenario.closerManager).
Proof.
  split; [vm_compute; reflexivity|].
  split; [vm_compute; reflexivity|].
  split; [vm_compute; reflexivity|].
  split; [vm_compute; reflexivity|].
  split; [vm_compute; reflexivity|].
  split; vm_compute; reflexivity.
Qed.

Section HttpFacts.
Import Text Model Manager.
Context {host : Host}.

Lemma lastMinute_of_recent (logs : list HttpRequestLog) (now : Z) :
  lastMinute (recentLogs logs now) now = lastMinute logs now.
Proof.
  unfold lastMinute, recentLogs.
  induction logs as [|log logs IH]; simpl; [done|].
  destruct (now - 60 * 60 * 1000 <? log_timestamp log) eqn:Eh; simpl.
  - by rewrite IH.
  - rewrite IH.
    replace (now - 60 * 1000 <? log_timestamp log) with false; [done|].
    symmetry. apply Z.ltb_ge. apply Z.ltb_ge in Eh. lia.
Qed.

Lemma logHttpRequest_trace (log : HttpRequestLog) (m : PluginManager) :
  trace (logHttpRequest log m) = trace m.
Proof. done. Qed.

Lemma checkHttpRateLimits_minute (guildId pluginId : Str) (m : PluginManager) :
  maxRequestsPerMinute (requestLimits m)
  <= Z.of_nat (length (lastMinute
                         (default [] (httpLogs m !! httpKey guildId pluginId))
                         (clock m))) ->
  checkHttpRateLimits guildId pluginId m
  = inl (minuteLimitMessage (maxRequestsPerMinute (requestLimits m))).
Proof.
  intros Hfull. unfold checkHttpRateLimits.
  rewrite lastMinute_of_recent.
  by replace (_ <=? _) with true by (symmetry; by apply Z.leb_le).
Qed.

Lemma makeRequest_rejected_gen
    (guildId itemId : Str) (method : HttpMethod) (url : Str)
    (reply : AxiosReply) (elapsed : Z) (m : PluginManager) :
  maxRequestsPerMinute (requestLimits m)
    <= Z.of_nat (length (lastMinute
                           (default [] (httpLogs m !! httpKey guildId itemId))
                           (clock m)))
  \/ (exists hostname,
        urlHostname url = Some hostname /\ hostname ∈ blockedDomains m) ->
  (exists message,
     fst (makeRequest guildId itemId method url reply elapsed m) = HttpThrew message)
  /\ trace (snd (makeRequest guildId itemId method url reply elapsed m)) = trace m.
Proof.
  intros Hcause. unfold makeRequest, issueRequest, settleRequest, failRequest.
  destruct (startsWith (str "http") url); cbn [negb];
    [|split; [by eexists|done]].
  destruct (urlHostname url) as [hostname|] eqn:Hhost;
    [|split; [by eexists|done]].
  destruct (bool_decide (hostname ∈ blockedDomains m)) eqn:Hblocked;
    [split; [by eexists|done]|].
  destruct Hcause as [Hfull|(h & Hh & Hin)].
  - rewrite checkHttpRateLimits_minute by done. split; [by eexists|done].
  - injection Hh as <-. apply bool_decide_eq_false in Hblocked. done.
Qed.

(** C6: a request made when the log of its (guild, plugin) key already
    holds as many requests of the last 60 seconds as the per-minute
    limit, and any request to a host in the blocked set whatever the
    quota, is rejected by throwing, and no network call is made. *)
Theorem makeRequest_rejected
    (guildId itemId : Str) (method : HttpMethod) (url : Str)
    (reply : AxiosReply) (elapsed : Z) (m : PluginManager) :
  maxRequestsPerMinute (requestLimits m)
    <= Z.of_nat (length (lastMinute
                           (default [] (httpLogs m !! httpKey guildId itemId))
                           (clock m)))
  \/ (exists hostname,
        urlHostname url = Some hostname /\ hostname ∈ blockedDomains m) ->
  (exists message,
     fst (makeRequest guildId itemId method url reply elapsed m) = HttpThrew message)
  /\ trace (snd (makeRequest guildId itemId method url reply elapsed m)) = trace m.
Proof. apply makeRequest_rejected_gen. Qed.










End HttpFacts.

Lemma makeRequest_rejected_witness :
  ((exists message,
    fst (Manager.makeRequest (host := Sample.sampleHost) (str "g1") (str "tickets")
           Manager.GET (str "https://api.example/status")
           (Manager.AxiosResponse 200 (str "ok") 2) 10 Sample.saturatedManager)
    = Manager.HttpThrew message)
 /\ Model.trace
      (snd (Manager.makeRequest (host := Sample.sampleHost) (str "g1") (str "tickets")
              Manager.GET (str "https://api.example/status")
              (Manager.AxiosResponse 200 (str "ok") 2) 10 Sample.saturatedManager))
    = Model.trace Sample.saturatedManager)
  /\ ((exists message,
       fst (Manager.makeRequest (host := Sample.sampleHost) (str "g1") (str "tickets")
              Manager.POST (str "http://evil.example/collect")
              (Manager.AxiosResponse 200 (str "ok") 2) 10 Sample.blockingManager)
       = Manager.HttpThrew message)
    /\ Model.trace
         (snd (Manager.makeRequest (host := Sample.sampleHost) (str "g1") (str "tickets")
                 Manager.POST (str "http://evil.example/collect")
                 (Manager.AxiosResponse 200 (str "ok") 2) 10 Sample.blockingManager))
       = Model.trace Sample.blockingManager).
Proof.
  split.
  - apply (makeRequest_rejected (host := Sample.sampleHost)).
  left. vm_compute. discriminate.
  - apply (makeRequest_rejected (host := Sample.sampleHost)).
  right. exists (str "evil.example"). split; [reflexivity|].
  apply (bool_decide_unpack _). vm_compute. exact I.
Defined.

Section TableFacts.
Import Text Model Manager.
Context {host : Host}.

Lemma mapGet_mapSet {V} (entries : list (Str * V)) (k k' : Str) (v : V) :
  mapGet (mapSet entries k v) k'
  = if decide (k = k') then Some v else mapGet entries k'.
Proof.
  induction entries as [|[k0 v0] entries IH]; simpl.
  - done.
  - destruct (decide (k0 = k)) as [->|Hne]; simpl.
    + destruct (decide (k = k')); done.
    + rewrite IH. destruct (decide (k0 = k')) as [->|]; [|done].
      by destruct (decide (k = k')).
Qed.

Lemma mapGet_mapDelete {V} (entries : list (Str * V)) (k k' : Str) :
  mapGet (mapDelete entries k) k'
  = if decide (k = k') then None else mapGet entries k'.
Proof.
  induction entries as [|[k0 v0] entries IH]; simpl.
  - by destruct (decide (k = k')).
  - destruct (decide (k0 = k)) as [->|Hne]; simpl.
    + rewrite IH. destruct (decide (k = k')); done.
    + rewrite IH. destruct (decide (k0 = k')) as [->|]; [|done].
      by destruct (decide (k = k')).
Qed.

Lemma isLoaded_loadedIn (m : PluginManager) (g p : Str) :
  isLoaded m g p <-> is_Some (mapGet (loadedIn m g) p).
Proof.
  unfold isLoaded, loadedIn. split.
  - intros (plugins & plugin & -> & Hget). simpl. by rewrite Hget.
  - intros [plugin Hget]. destruct (loadedPlugins m !! g) as [plugins|]; [|done].
    by exists plugins, plugin.
Qed.

Lemma isInstalledEnabled_installedIn (m : PluginManager) (g p : Str) :
  isInstalledEnabled m g p <-> EnabledIn (installedIn m g) p.
Proof.
  unfold isInstalledEnabled, EnabledIn, installedIn. split.
  - intros (plugins & plugin & -> & H). by exists plugin.
  - intros (plugin & Hin & H).
    destruct (installedPlugins m !! g) as [plugins|]; simpl in Hin.
    + by exists plugins, plugin.
    + by apply elem_of_nil in Hin.
Qed.

Lemma hasItem_true (itemId : Str) (p : InstalledPlugin) :
  hasItem itemId p = true <-> ip_itemId p = itemId.
Proof. unfold hasItem. apply bool_decide_eq_true. Qed.

Lemma hasItem_false (itemId : Str) (p : InstalledPlugin) :
  hasItem itemId p = false <-> ip_itemId p <> itemId.
Proof. unfold hasItem. apply bool_decide_eq_false. Qed.

Lemma existsb_hasItem_false (itemId : Str) (plugins : list InstalledPlugin) :
  existsb (hasItem itemId) plugins = false ->
  itemId ∉ map ip_itemId plugins.
Proof.
  induction plugins as [|p plugins IH]; simpl; intros H Hin.
  - by apply elem_of_nil in Hin.
  - apply orb_false_iff in H as [Hp Hrest]. apply hasItem_false in Hp.
    apply elem_of_cons in Hin as [->|Hin]; [done|]. by apply IH.
Qed.

Lemma find_hasItem (itemId : Str) (plugins : list InstalledPlugin)
    (plugin : InstalledPlugin) :
  List.find (hasItem itemId) plugins = Some plugin ->
  plugin ∈ plugins /\ ip_itemId plugin = itemId.
Proof.
  intros H. apply find_some in H as [Hin Hid].
  split; [by apply list_elem_of_In|by apply hasItem_true].
Qed.

Lemma elem_of_ids (plugins : list InstalledPlugin) (plugin : InstalledPlugin) :
  plugin ∈ plugins -> ip_itemId plugin ∈ map ip_itemId plugins.
Proof. intros H. apply list_elem_of_fmap. by exists plugin. Qed.

Lemma removeFirst_elem (itemId : Str) (plugins : list InstalledPlugin) :
  NoDup (map ip_itemId plugins) ->
  forall x, x ∈ removeFirst itemId plugins
            <-> x ∈ plugins /\ ip_itemId x <> itemId.
Proof.
  induction plugins as [|p plugins IH]; simpl; intros Hnd x.
  - split; [intros H; by apply elem_of_nil in H|intros [H _]; by apply elem_of_nil in H].
  - apply NoDup_cons in Hnd as [Hp Hnd].
    destruct (hasItem itemId p) eqn:E.
    + apply hasItem_true in E. split.
      * intros Hx. split; [by right|].
        intros Heq. apply Hp. rewrite E, <- Heq. by apply elem_of_ids.
      * intros [Hx Hne]. apply elem_of_cons in Hx as [->|Hx]; [done|done].
    + apply hasItem_false in E. rewrite elem_of_cons, IH by done. split.
      * intros [->|[Hx Hne]]; [split; [left|done]|split; [by right|done]].
      * intros [Hx Hne]. apply elem_of_cons in Hx as [->|Hx]; [by left|by right].
Qed.

Lemma removeFirst_ids_NoDup (itemId : Str) (plugins : list InstalledPlugin) :
  NoDup (map ip_itemId plugins) ->
  NoDup (map ip_itemId (removeFirst itemId plugins)).
Proof.
  induction plugins as [|p plugins IH]; simpl; intros Hnd; [done|].
  pose proof Hnd as Hnd0.
  apply NoDup_cons in Hnd as [Hp Hnd].
  destruct (hasItem itemId p); [done|]. simpl.
  apply NoDup_cons. split; [|by apply IH].
  intros Hin. apply list_elem_of_fmap in Hin as (x & Hid & Hx).
  apply (removeFirst_elem itemId plugins Hnd) in Hx as [Hx _].
  apply Hp. rewrite Hid. by apply elem_of_ids.
Qed.

Lemma updateFirst_ids (itemId : Str) (enabled : bool)
    (plugins : list InstalledPlugin) :
  map ip_itemId (updateFirst itemId enabled plugins) = map ip_itemId plugins.
Proof.
  induction plugins as [|p plugins IH]; simpl; [done|].
  destruct (hasItem itemId p); simpl; [done|]. by rewrite IH.
Qed.

Lemma updateFirst_elem (itemId : Str) (enabled : bool)
    (plugins : list InstalledPlugin) :
  NoDup (map ip_itemId plugins) ->
  forall x, x ∈ updateFirst itemId enabled plugins
            <-> (x ∈ plugins /\ ip_itemId x <> itemId)
                \/ (exists y, y ∈ plugins /\ ip_itemId y = itemId
                              /\ x = setEnabled y enabled).
Proof.
  induction plugins as [|p plugins IH]; simpl; intros Hnd x.
  - split.
    + intros H. by apply elem_of_nil in H.
    + intros [[H _]|(y & H & _)]; by apply elem_of_nil in H.
  - apply NoDup_cons in Hnd as [Hp Hnd].
    destruct (hasItem itemId p) eqn:E.
    + apply hasItem_true in E. rewrite elem_of_cons. split.
      * intros [->|Hx].
        -- right. exists p. split; [left|done].
        -- left. split; [by right|].
           intros Heq. apply Hp. rewrite E, <- Heq. by apply elem_of_ids.
      * intros [[Hx Hne]|(y & Hy & Hid & ->)].
        -- apply elem_of_cons in Hx as [->|Hx]; [done|by right].
        -- apply elem_of_cons in Hy as [->|Hy]; [by left|].
           exfalso. apply Hp. rewrite E, <- Hid. by apply elem_of_ids.
    + apply hasItem_false in E. rewrite elem_of_cons, IH by done. split.
      * intros [->|[[Hx Hne]|(y & Hy & Hid & ->)]].
        -- left. split; [left|done].
        -- left. split; [by right|done].
        -- right. exists y. split; [by right|done].
      * intros [[Hx Hne]|(y & Hy & Hid & ->)].
        -- apply elem_of_cons in Hx as [->|Hx]; [by left|right; by left].
        -- apply elem_of_cons in Hy as [->|Hy]; [done|].
           right. right. by exists y.
Qed.

Lemma tablesConsistent_alt (m : PluginManager) :
  tablesConsistent m <-> forall g, consistentIn m g.
Proof.
  unfold tablesConsistent, consistentIn. split; intros H g p.
  - rewrite <- isLoaded_loadedIn, <- isInstalledEnabled_installedIn. apply H.
  - rewrite isLoaded_loadedIn, isInstalledEnabled_installedIn. apply H.
Qed.

Lemma loadedIn_setTables m inst loaded g :
  loadedIn (setTables m inst loaded) g = default [] (loaded !! g).
Proof. done. Qed.

Lemma installedIn_setTables m inst loaded g :
  installedIn (setTables m inst loaded) g = default [] (inst !! g).
Proof. done. Qed.

Lemma default_insert {V} (tbl : gmap Str (list V)) (g g' : Str) (l : list V) :
  default [] (<[g := l]> tbl !! g')
  = if decide (g = g') then l else default [] (tbl !! g').
Proof.
  destruct (decide (g = g')) as [->|Hne].
  - by rewrite lookup_insert_eq.
  - by rewrite lookup_insert_ne.
Qed.

Lemma default_unload (loaded : gmap Str (list (Str * LoadedPlugin)))
    (g g' itemId : Str) :
  default [] (unload g itemId loaded !! g')
  = if decide (g = g') then mapDelete (default [] (loaded !! g)) itemId
    else default [] (loaded !! g').
Proof.
  unfold unload. destruct (loaded !! g) as [plugins|] eqn:E.
  - rewrite default_insert. done.
  - destruct (decide (g = g')) as [<-|]; [by rewrite E|done].
Qed.

(** A step that rewrites the tables of one guild keeps the invariant if
    the rewritten guild is consistent and free of duplicates. *)
Lemma tablesOk_update (m m' : PluginManager) (g : Str)
    (inst : list InstalledPlugin) (loaded : list (Str * LoadedPlugin)) :
  tablesOk m ->
  (forall g', installedIn m' g' = if decide (g = g') then inst else installedIn m g') ->
  (forall g', loadedIn m' g' = if decide (g = g') then loaded else loadedIn m g') ->
  (forall p, is_Some (mapGet loaded p) <-> EnabledIn inst p) ->
  NoDup (map ip_itemId inst) ->
  tablesOk m'.
Proof.
  intros [Hcons Hnd] Hinst Hloaded Hnew Hndnew. split.
  - intros g' p. rewrite Hinst, Hloaded.
    destruct (decide (g = g')); [apply Hnew|apply Hcons].
  - intros g'. rewrite Hinst. destruct (decide (g = g')); [done|apply Hnd].
Qed.

Lemma install_preserves (g p : Str) (item : option MarketplaceItem)
    (download : Download) (m : PluginManager) :
  tablesOk m -> tablesOk (snd (installPluginFromMarketplace g p item download m)).
Proof.
  intros Hok. unfold installPluginFromMarketplace.
  destruct item as [item|]; [|done].
  destruct (negb _); [done|].
  destruct download as [dslCode|error]; [|done].
  destruct (parseManifest dslCode) as [manifest|]; [|done].
  destruct (negb _); [done|].
  destruct (existsb _ _) eqn:Hexists; [done|].
  apply existsb_hasItem_false in Hexists.
  cbn [snd]. fold (installedIn m g) in *.
  set (new := {| ip_itemId := p; ip_guildId := g; ip_manifest := manifest;
                 ip_dslCode := dslCode; ip_settings := parseSettings dslCode;
                 ip_installedAt := clock m; ip_enabled := true;
                 ip_imports := extractImports dslCode |}).
  destruct Hok as [Hcons Hnd].
  apply (tablesOk_update m _ g (installedIn m g ++ [new])
           (mapSet (loadedIn m g) p (buildPlugin new))); [done| | | |].
  - intros g'. unfold loadInstalledPlugin.
    rewrite installedIn_setTables. cbn. apply default_insert.
  - intros g'. unfold loadInstalledPlugin.
    rewrite loadedIn_setTables. cbn. apply default_insert.
  - intros q. rewrite mapGet_mapSet.
    destruct (decide (p = q)) as [<-|Hne].
    + split; [|by eexists]. intros _. exists new.
      split; [|done]. apply elem_of_app. right. by left.
    + rewrite (Hcons g q). unfold EnabledIn. split.
      * intros (x & Hx & Hid & Hen). exists x. split; [|done].
        apply elem_of_app. by left.
      * intros (x & Hx & Hid & Hen). apply elem_of_app in Hx as [Hx|Hx].
        -- by exists x.
        -- apply list_elem_of_singleton in Hx. subst x. done.
  - rewrite map_app. apply NoDup_app. split; [apply Hnd|].
    split; [|apply NoDup_singleton].
    intros x Hx Hx'. simpl in Hx'. apply list_elem_of_singleton in Hx'.
    subst x. done.
Qed.

Lemma uninstall_preserves (g p : Str) (m : PluginManager) :
  tablesOk m -> tablesOk (snd (uninstallPlugin g p m)).
Proof.
  intros Hok. unfold uninstallPlugin.
  destruct (installedPlugins m !! g) as [plugins|] eqn:Hinst; [|done].
  destruct (existsb _ _); [|done].
  cbn [snd].
  assert (Hin : installedIn m g = plugins) by (unfold installedIn; by rewrite Hinst).
  destruct Hok as [Hcons Hnd].
  apply (tablesOk_update m _ g (removeFirst p plugins)
           (mapDelete (loadedIn m g) p)); [done| | | |].
  - intros g'. rewrite installedIn_setTables. apply default_insert.
  - intros g'. rewrite loadedIn_setTables. apply default_unload.
  - intros q. rewrite mapGet_mapDelete. specialize (Hnd g). rewrite Hin in Hnd.
    destruct (decide (p = q)) as [<-|Hne].
    + split; [by intros [? ?]|].
      intros (x & Hx & Hid & _). apply (removeFirst_elem p plugins Hnd) in Hx.
      by destruct Hx.
    + rewrite (Hcons g q), Hin. unfold EnabledIn. split.
      * intros (x & Hx & Hid & Hen). exists x. split; [|done].
        apply (removeFirst_elem p plugins Hnd). split; [done|congruence].
      * intros (x & Hx & Hid & Hen). exists x. split; [|done].
        by apply (removeFirst_elem p plugins Hnd) in Hx as [Hx _].
  - apply removeFirst_ids_NoDup. specialize (Hnd g). by rewrite Hin in Hnd.
Qed.

Lemma toggle_preserves (g p : Str) (enabled : bool) (m : PluginManager) :
  tablesOk m -> tablesOk (snd (togglePlugin g p enabled m)).
Proof.
  intros Hok. unfold togglePlugin.
  destruct (installedPlugins m !! g) as [plugins|] eqn:Hinst; [|done].
  destruct (List.find _ _) as [plugin|] eqn:Hfind; [|done].
  apply find_hasItem in Hfind as [Hplugin Hid].
  assert (Hin : installedIn m g = plugins) by (unfold installedIn; by rewrite Hinst).
  destruct Hok as [Hcons Hnd].
  pose proof (Hnd g) as Hndg. rewrite Hin in Hndg.
  assert (Hothers : forall q, p <> q ->
            EnabledIn (updateFirst p enabled plugins) q <-> EnabledIn plugins q).
  { intros q Hne. unfold EnabledIn. split.
    - intros (x & Hx & Hxid & Hen).
      apply (updateFirst_elem p enabled plugins Hndg) in Hx
        as [[Hx _]|(y & Hy & Hyid & ->)]; [by exists x|].
      simpl in Hxid. congruence.
    - intros (x & Hx & Hxid & Hen). exists x. split; [|done].
      apply (updateFirst_elem p enabled plugins Hndg). left.
      split; [done|congruence]. }
  destruct enabled; cbn [snd].
  - apply (tablesOk_update m _ g (updateFirst p true plugins)
             (mapSet (loadedIn m g) p (buildPlugin (setEnabled plugin true))));
      [done| | | |].
    + intros g'. unfold loadInstalledPlugin.
      rewrite installedIn_setTables. cbn. apply default_insert.
    + intros g'. unfold loadInstalledPlugin.
      rewrite loadedIn_setTables. cbn. rewrite Hid. apply default_insert.
    + intros q. rewrite mapGet_mapSet.
      destruct (decide (p = q)) as [<-|Hne].
      * split; [|by eexists]. intros _. exists (setEnabled plugin true).
        split; [|done]. apply (updateFirst_elem p true plugins Hndg).
        right. by exists plugin.
      * rewrite (Hcons g q), Hin. symmetry. by apply Hothers.
    + by rewrite updateFirst_ids.
  - apply (tablesOk_update m _ g (updateFirst p false plugins)
             (mapDelete (loadedIn m g) p)); [done| | | |].
    + intros g'. rewrite installedIn_setTables. cbn. apply default_insert.
    + intros g'. rewrite loadedIn_setTables. cbn. apply default_unload.
    + intros q. rewrite mapGet_mapDelete.
      destruct (decide (p = q)) as [<-|Hne].
      * split; [by intros [? ?]|].
        intros (x & Hx & Hxid & Hen).
        apply (updateFirst_elem p false plugins Hndg) in Hx
          as [[Hx Hne]|(y & Hy & Hyid & ->)]; [done|]. done.
      * rewrite (Hcons g q), Hin. symmetry. by apply Hothers.
    + by rewrite updateFirst_ids.
Qed.

Lemma newManager_ok (t : Z) : tablesOk (newManager t).
Proof.
  split.
  - intros g p. unfold loadedIn, installedIn, newManager, EnabledIn. cbn.
    rewrite !lookup_empty. cbn. split.
    + by intros [? ?].
    + intros (x & Hx & _). by apply elem_of_nil in Hx.
  - intros g. unfold installedIn, newManager. cbn. rewrite lookup_empty.
    apply NoDup_nil_2.
Qed.

Lemma perform_preserves (m : PluginManager) (op : Operation) :
  tablesOk m -> tablesOk (perform m op).
Proof.
  destruct op; simpl.
  - apply install_preserves.
  - apply toggle_preserves.
  - apply uninstall_preserves.
Qed.

Lemma perform_all_preserves (ops : list Operation) : forall m,
  tablesOk m -> tablesOk (fold_left perform ops m).
Proof.
  induction ops as [|op ops IH]; intros m Hok; simpl; [done|].
  apply IH. by apply perform_preserves.
Qed.

(** C7: in every state the manager reaches by install, enable/disable and
    uninstall operations, from its initial state or from any state in
    which the tables agree and no guild lists a plugin twice, a Loaded
    Plugin entry exists for (g, p) if and only if an Installed Plugin entry
    for (g, p) exists with enabled = true. *)
Theorem tables_consistent_after_operations (ops : list Operation) :
  (forall t, tablesConsistent (fold_left perform ops (newManager t)))
  /\ (forall m, tablesOk m -> tablesConsistent (fold_left perform ops m)).
Proof.
  split.
  - intros t. apply tablesConsistent_alt.
  apply (perform_all_preserves ops (newManager t) (newManager_ok t)).
  - intros m Hok. apply tablesConsistent_alt.
  by apply (perform_all_preserves ops m).
Qed.

End TableFacts.

Lemma tables_consistent_after_operations_witness :
  Manager.tablesConsistent
    (fold_left (Manager.perform (host := Sample.sampleHost))
       Sample.sampleOperations (Model.newManager 0))
  /\ Manager.tablesConsistent
       (fold_left (Manager.perform (host := Sample.sampleHost))
          (firstn 2 Sample.sampleOperations) (Model.newManager 0)).
Proof.
  split.
  - apply (proj1 (tables_consistent_after_operations (host := Sample.sampleHost)
                  Sample.sampleOperations)).
  - apply (proj2 (tables_consistent_after_operations (host := Sample.sampleHost)
                  (firstn 2 Sample.sampleOperations))).
  apply newManager_ok.
Defined.

(* ===================================================================== *)
(** * Part III. Further properties of the code                            *)
(* ===================================================================== *)

(** Properties of the block extractor and the scope validator beyond
    those of Part II, and of the code around them: the cooldown, settings
    and scope functions of the plugin VM, install followed by uninstall or
    by a second install, the order of the loaded plugins, the start-up
    loader, the passive listeners and the binding of parameters, the
    event and command triggers, the outbound HTTP client and its
    administration, the client's button handler
    ([src/unnamed/part_000]) and the enable command of
    [src/PluginCommand.ts]. *)

Section TrimFacts.
Import Text BlockExtractor Notions.

Lemma whitespace_not_brace (c : ascii) :
  isWhitespace c = true -> c <> "{"%char /\ c <> "}"%char.
Proof. intros H. split; intros ->; discriminate. Qed.

Lemma trimStart_suffix (s : Str) :
  exists ws, s = ws ++ trimStart s /\ Forall (fun c => isWhitespace c = true) ws.
Proof.
  induction s as [|c s IH]; simpl.
  - by exists [].
  - destruct (isWhitespace c) eqn:E.
    + destruct IH as (ws & Hs & Hws). exists (c :: ws). split.
      * simpl. by rewrite <- Hs.
      * by constructor.
    + by exists [].
Qed.

Lemma trimStart_head (s : Str) : headNotSpace (trimStart s).
Proof.
  induction s as [|c s IH]; simpl; [done|].
  destruct (isWhitespace c) eqn:E; [done|]. simpl. done.
Qed.

Lemma trimStart_id (s : Str) : headNotSpace s -> trimStart s = s.
Proof. destruct s as [|c s]; simpl; [done|]. by intros ->. Qed.

Lemma trimEnd_prefix (s : Str) :
  exists ws, s = trimEnd s ++ ws /\ Forall (fun c => isWhitespace c = true) ws.
Proof.
  unfold trimEnd. destruct (trimStart_suffix (rev s)) as (ws & Hs & Hws).
  exists (rev ws). split.
  - rewrite <- rev_app_distr, <- Hs. by rewrite rev_involutive.
  - by apply Forall_rev.
Qed.

Lemma trim_infix (s : Str) :
  exists before after,
    s = before ++ trim s ++ after
    /\ Forall (fun c => isWhitespace c = true) before
    /\ Forall (fun c => isWhitespace c = true) after.
Proof.
  unfold trim.
  destruct (trimStart_suffix s) as (before & Hs & Hb).
  destruct (trimEnd_prefix (trimStart s)) as (after & Ht & Ha).
  exists before, after. split; [|done]. by rewrite <- Ht.
Qed.

Lemma trim_length (s : Str) : (length (trim s) <= length s)%nat.
Proof.
  destruct (trim_infix s) as (before & after & Hs & _).
  rewrite Hs at 2. rewrite !length_app. lia.
Qed.

Lemma trim_tail (s : Str) : headNotSpace (rev (trim s)).
Proof.
  unfold trim, trimEnd. rewrite rev_involutive. apply trimStart_head.
Qed.

Lemma trim_head (s : Str) : headNotSpace (trim s).
Proof.
  unfold trim.
  pose proof (trimStart_head s) as Hhead.
  destruct (trimEnd_prefix (trimStart s)) as (ws & Ht & _).
  destruct (trimEnd (trimStart s)) as [|c t] eqn:E; [done|].
  rewrite Ht in Hhead. exact Hhead.
Qed.

Lemma trim_idempotent (s : Str) : trim (trim s) = trim s.
Proof.
  unfold trim at 1. rewrite (trimStart_id (trim s)) by apply trim_head.
  unfold trimEnd. rewrite (trimStart_id (rev (trim s))) by apply trim_tail.
  apply rev_involutive.
Qed.

Lemma Balanced_tail (c : ascii) (w : Str) :
  c <> "{"%char -> Balanced (c :: w) -> Balanced w.
Proof. intros Ho H. inversion H; subst; done. Qed.

Lemma Balanced_drop_last (l : Str) :
  Balanced l ->
  forall w c, l = w ++ [c] -> c <> "{"%char -> c <> "}"%char -> Balanced w.
Proof.
  induction 1 as [|c0 w0 Ho0 Hc0 Hw IHw|b w0 Hb IHb Hw IHw]; intros w c Heq Ho Hc.
  - destruct w; discriminate.
  - destruct w as [|x w]; simpl in Heq.
    + constructor.
    + injection Heq as -> ->. constructor; [done|done|]. by apply (IHw w c).
  - destruct w0 as [|x w0' _] using rev_ind.
    + change ("{"%char :: b ++ ["}"%char]) with (("{"%char :: b) ++ ["}"%char]) in Heq.
      apply app_inj_tail in Heq as [_ Heq]. congruence.
    + change ("{"%char :: b ++ "}"%char :: w0' ++ [x])
        with (("{"%char :: b) ++ "}"%char :: w0' ++ [x]) in Heq.
      rewrite (app_assoc _ ["}"%char] (w0' ++ [x])) in Heq.
      rewrite app_assoc in Heq.
      apply app_inj_tail in Heq as [<- ->].
      rewrite <- !app_assoc. simpl.
      constructor; [done|]. by apply (IHw w0' c).
Qed.

Lemma Balanced_drop_spaces_l (ws w : Str) :
  Forall (fun c => isWhitespace c = true) ws -> Balanced (ws ++ w) -> Balanced w.
Proof.
  induction 1 as [|c ws Hc Hws IH]; simpl; [done|].
  intros H. apply IH. apply (Balanced_tail c); [|done].
  by apply whitespace_not_brace.
Qed.

Lemma Balanced_drop_spaces_r (ws w : Str) :
  Forall (fun c => isWhitespace c = true) ws -> Balanced (w ++ ws) -> Balanced w.
Proof.
  induction ws as [|c ws IH] using rev_ind; intros Hws H.
  - by rewrite app_nil_r in H.
  - apply Forall_app in Hws as [Hws Hc]. inversion Hc as [|? ? Hc' _]; subst.
    apply IH; [done|]. rewrite app_assoc in H.
    destruct (whitespace_not_brace c Hc') as [Ho Hcl].
    by apply (Balanced_drop_last _ H (w ++ ws) c).
Qed.

Lemma Balanced_trim (body : Str) : Balanced body -> Balanced (trim body).
Proof.
  intros H. destruct (trim_infix body) as (before & after & Hs & Hb & Ha).
  rewrite Hs in H. apply Balanced_drop_spaces_l in H; [|done].
  by apply Balanced_drop_spaces_r in H.
Qed.

Lemma extract_content_cases (text : Str) (startIndex : nat) :
  content (extractBlockContent text startIndex) = []
  \/ exists s, content (extractBlockContent text startIndex) = trim s
               /\ exists a b, s = substring a b text.
Proof.
  unfold extractBlockContent.
  destruct (findOpen (drop startIndex text) startIndex) as [contentStart|].
  - right. eexists. split; [done|]. by eexists _, _.
  - by left.
Qed.

(** X1: the content that the Block Extractor returns never begins or ends
    with whitespace, so trimming it once more, as the parsers that call it
    do, changes nothing. *)
Theorem extractBlockContent_content_is_trimmed (text : Str) (startIndex : nat) :
  let body := content (extractBlockContent text startIndex) in
  trim body = body /\ headNotSpace body /\ headNotSpace (rev body).
Proof.
  cbv zeta.
  destruct (extract_content_cases text startIndex) as [->|(s & -> & _)].
  - done.
  - split; [apply trim_idempotent|]. split; [apply trim_head|apply trim_tail].
Qed.

Lemma substring_occurs (a b : nat) (s : Str) : ImportValidator.Occurs (substring a b s) s.
Proof.
  unfold substring, ImportValidator.Occurs. cbv zeta.
  generalize (Nat.max (Nat.min a (length s)) (Nat.min b (length s))
              - Nat.min (Nat.min a (length s)) (Nat.min b (length s)))%nat.
  generalize (Nat.min (Nat.min a (length s)) (Nat.min b (length s))).
  intros lo n.
  exists (take lo s), (drop n (drop lo s)).
  by rewrite (take_drop n (drop lo s)), take_drop.
Qed.

(** X4: the content that the Block Extractor returns is always a
    contiguous piece of the text it was given. *)
Theorem extractBlockContent_content_occurs (text : Str) (startIndex : nat) :
  ImportValidator.Occurs (content (extractBlockContent text startIndex)) text.
Proof.
  destruct (extract_content_cases text startIndex) as [->|(s & -> & a & b & ->)].
  - by exists [], text.
  - destruct (substring_occurs a b text) as (pre & post & Htext).
    destruct (trim_infix (substring a b text)) as (before & after & Hs & _).
    exists (pre ++ before), (after ++ post).
    rewrite Htext at 1. rewrite Hs at 1. by rewrite <- !app_assoc.
Qed.

Lemma findOpen_bounds (rest : Str) : forall i contentStart,
  findOpen rest i = Some contentStart ->
  (i < contentStart <= i + length rest)%nat.
Proof.
  induction rest as [|c rest IH]; intros i contentStart; simpl; [done|].
  destruct (chr_eqb c "{").
  - intros [= <-]. lia.
  - intros H. apply IH in H. lia.
Qed.

Lemma findOpen_some (rest : Str) (i : nat) :
  "{"%char ∈ rest -> exists contentStart, findOpen rest i = Some contentStart.
Proof.
  revert i. induction rest as [|c rest IH]; intros i Hin; simpl.
  - by apply elem_of_nil in Hin.
  - destruct (chr_eqb c "{") eqn:E; [by eexists|].
    apply chr_eqb_neq in E. apply elem_of_cons in Hin as [Heq|Hin]; [congruence|].
    by apply IH.
Qed.

Lemma substring_length (a b : nat) (s : Str) :
  (a <= b)%nat -> (length (substring a b s) <= b - a)%nat.
Proof.
  intros Hab. unfold substring. rewrite length_take. lia.
Qed.

(** X2: when an opening brace occurs at or after the start index, the end
    index lies at least two past the start index and at most one past the
    end of the text, and the content fits between the two: a scan that
    continues from the end index always advances. *)
Theorem extractBlockContent_advances (text : Str) (startIndex : nat) :
  "{"%char ∈ drop startIndex text ->
  let result := extractBlockContent text startIndex in
  (startIndex + 2 + length (content result) <= endIndex result)%nat
  /\ (endIndex result <= length text + 1)%nat.
Proof.
  intros Hin. cbv zeta. unfold extractBlockContent.
  assert (Hlt : (startIndex < length text)%nat).
  { destruct (decide (startIndex < length text)%nat) as [|Hge]; [done|].
    rewrite drop_ge in Hin by lia. by apply elem_of_nil in Hin. }
  destruct (findOpen_some _ startIndex Hin) as (contentStart & Hopen).
  rewrite Hopen. cbn [content endIndex].
  apply findOpen_bounds in Hopen. rewrite length_drop in Hopen.
  pose proof (scanClose_bounds (drop contentStart text) 1 contentStart) as Hscan.
  rewrite length_drop in Hscan.
  pose proof (trim_length
                (substring contentStart
                   (scanClose 1 (drop contentStart text) contentStart) text)) as Htrim.
  pose proof (substring_length contentStart
                (scanClose 1 (drop contentStart text) contentStart) text) as Hsub.
  lia.
Qed.

Lemma extractBlockContent_advances_witness :
  (3 + 2 + length (content (extractBlockContent (str "on x { a }") 3))
   <= endIndex (extractBlockContent (str "on x { a }") 3))%nat
  /\ (endIndex (extractBlockContent (str "on x { a }") 3)
      <= length (str "on x { a }") + 1)%nat.
Proof.
  apply (extractBlockContent_advances (str "on x { a }") 3).
  apply (bool_decide_unpack _). vm_compute. exact I.
Defined.

(** X3: the content extracted from a balanced block survives wrapping and
    extracting again: wrapped in braces, it is returned unchanged, with
    the end index just past the closing brace. *)
Theorem extractBlockContent_rewrap (pre body rest : Str) (startIndex : nat) :
  (startIndex <= length pre)%nat ->
  "{"%char ∉ drop startIndex pre ->
  Balanced body ->
  let extracted :=
    content (extractBlockContent
               (pre ++ "{"%char :: body ++ "}"%char :: rest) startIndex) in
  extractBlockContent (wrapBlock extracted) 0
  = {| content := extracted; endIndex := (length extracted + 2)%nat |}.
Proof.
  intros Hle Hno Hbal. cbv zeta.
  rewrite extract_matched by done. cbn [content]. unfold wrapBlock.
  pose proof (extract_matched [] (trim body) [] 0) as H.
  simpl in H. rewrite H; [|lia|apply not_elem_of_nil|by apply Balanced_trim].
  by rewrite trim_idempotent.
Qed.

Lemma extractBlockContent_rewrap_witness :
  extractBlockContent
    (wrapBlock
       (content (extractBlockContent (str "cmd {  if a { b }  } tail") 0))) 0
  = {| content := content (extractBlockContent (str "cmd {  if a { b }  } tail") 0);
       endIndex :=
         (length (content (extractBlockContent (str "cmd {  if a { b }  } tail") 0))
          + 2)%nat |}.
Proof.
  apply (extractBlockContent_rewrap (str "cmd ") (str "  if a { b }  ") (str " tail") 0).
  - simpl. lia.
  - apply (bool_decide_unpack _). vm_compute. exact I.
  - apply Balanced_by_scan. reflexivity.
Defined.

End TrimFacts.

Section ScopeFacts.
Import Text ImportValidator Notions.

Lemma validate_valid_true (dslCode : Str) (declaredImports scopes : list Str) :
  valid (validate dslCode declaredImports scopes) = true
  <-> forall scope, RequiredBy dslCode scope -> scope ∈ scopes.
Proof.
  rewrite <- not_false_iff_true, validate_valid_false. split.
  - intros Hnil scope Hreq.
    destruct (decide (scope ∈ scopes)) as [|Hnot]; [done|].
    exfalso. apply Hnil. intros Hempty.
    assert (Hin : scope ∈ missingScopes dslCode scopes)
      by (by apply missingScopes_spec).
    rewrite Hempty in Hin. by apply elem_of_nil in Hin.
  - intros Hall Hne.
    destruct (missingScopes dslCode scopes) as [|m ms] eqn:E; [done|].
    assert (Hin : m ∈ missingScopes dslCode scopes) by (rewrite E; left).
    apply missingScopes_spec in Hin as [Hreq Hnot]. by apply Hnot, Hall.
Qed.

(** X5: declaring more scopes never turns a valid plugin into an invalid
    one, whatever imports it declares. *)
Theorem validate_monotone_in_scopes
    (dslCode : Str) (imports imports' scopes scopes' : list Str) :
  (forall scope, scope ∈ scopes -> scope ∈ scopes') ->
  valid (validate dslCode imports scopes) = true ->
  valid (validate dslCode imports' scopes') = true.
Proof.
  intros Hsub Hvalid. apply validate_valid_true.
  intros scope Hreq. apply Hsub.
  by apply (proj1 (validate_valid_true dslCode imports scopes) Hvalid).
Qed.

Lemma validate_monotone_in_scopes_witness :
  valid (validate (str "command hi { on_command { guilds.send(1, 2) } }")
           [str "guilds"] [str "db.read"; str "messages.send"])
  = true.
Proof.
  apply (validate_monotone_in_scopes
           (str "command hi { on_command { guilds.send(1, 2) } }")
           [] [str "guilds"] [str "messages.send"]
           [str "db.read"; str "messages.send"]).
  - intros scope Hin. by right.
  - vm_compute. reflexivity.
Defined.

Lemma table_scopes_known :
  Forall (fun entry : Str * list Str =>
            Forall (fun scope => scope ∈ allScopes) (snd entry))
         MODULE_REQUIREMENTS.
Proof. apply (bool_decide_unpack _). vm_compute. exact I. Qed.

(** X6: a manifest that declares the nine scopes of the requirements table
    passes validation for every source text. *)
Theorem validate_all_scopes (dslCode : Str) (declaredImports : list Str) :
  valid (validate dslCode declaredImports allScopes) = true.
Proof.
  apply validate_valid_true. intros scope (feature & required & Hin & _ & Hscope).
  pose proof table_scopes_known as Htable.
  rewrite Forall_forall in Htable. specialize (Htable _ Hin).
  simpl in Htable. rewrite Forall_forall in Htable. by apply Htable.
Qed.

Lemma table_modules_known :
  Forall (fun entry : Str * list Str =>
            (1 <? length (split "." (fst entry)))%nat = true ->
            hd [] (split "." (fst entry)) ∈ moduleNames)
         MODULE_REQUIREMENTS.
Proof.
  unfold MODULE_REQUIREMENTS.
  repeat (apply Forall_cons; split;
          [cbn [fst];
           first [ by (intros _; apply (bool_decide_unpack _); vm_compute; exact I)
                 | by (intros H; vm_compute in H; discriminate H) ]|]).
  apply Forall_nil_2.
Qed.

Lemma usedModules_known (dslCode : Str) (x : Str) :
  x ∈ usedModules dslCode -> x ∈ moduleNames.
Proof.
  unfold usedModules.
  assert (Hgen : forall table acc,
            Forall (fun entry : Str * list Str =>
                      (1 <? length (split "." (fst entry)))%nat = true ->
                      hd [] (split "." (fst entry)) ∈ moduleNames) table ->
            (forall y, y ∈ acc -> y ∈ moduleNames) ->
            x ∈ fold_left
                  (fun acc (entry : Str * list Str) =>
                     let (feature, _) := entry in
                     if includes feature dslCode then
                       let parts := split "." feature in
                       if (1 <? length parts)%nat then setAdd (hd [] parts) acc else acc
                     else acc) table acc ->
            x ∈ moduleNames).
  { induction table as [|[f r] table IH]; intros acc Htable Hacc; simpl.
    - apply Hacc.
    - inversion Htable as [|? ? Hf Hrest]; subst. simpl in Hf.
      apply IH; [done|].
      destruct (includes f dslCode); [|done].
      destruct (1 <? length (split "." f))%nat eqn:E; [|done].
      intros y Hy. apply setAdd_elem in Hy as [Hy| ->]; [by apply Hacc|by apply Hf]. }
  apply (Hgen MODULE_REQUIREMENTS []); [apply table_modules_known|].
  intros y Hy. by apply elem_of_nil in Hy.
Qed.

(** X7: a declared import whose module prefix is not the prefix of a
    dotted feature of the requirements table (such as [events.reaction] or
    [utils.cooldown]) is reported as unused for every source text, even
    one that uses the construct it stands for. *)
Theorem unknown_module_always_unused
    (dslCode : Str) (declaredImports : list Str) (declared : Str) :
  declared ∈ declaredImports ->
  hd [] (split "." declared) ∉ moduleNames ->
  declared ∉ moduleNames ->
  declared ∈ unusedImports dslCode declaredImports
  /\ warnings (validate dslCode declaredImports allScopes) <> [].
Proof.
  intros Hin Hprefix Hwhole.
  assert (Hunused : declared ∈ unusedImports dslCode declaredImports).
  { unfold unusedImports. apply list_elem_of_In, filter_In.
    split; [by apply list_elem_of_In|].
    apply andb_true_iff. split; apply negb_true_iff, not_true_iff_false;
      unfold setHas; rewrite arrayIncludes_spec; intros Hused;
      apply usedModules_known in Hused; done. }
  split; [done|].
  cbv beta iota zeta delta [validate warnings].
  destruct (unusedImports dslCode declaredImports) as [|u us]; [|done].
  by apply elem_of_nil in Hunused.
Qed.

Lemma unknown_module_always_unused_witness :
  str "events.reaction"
    ∈ unusedImports (str "on_reaction { execute { guilds.send(1, 2) } }")
        [str "events.reaction"]
  /\ warnings (validate (str "on_reaction { execute { guilds.send(1, 2) } }")
                 [str "events.reaction"] allScopes) <> [].
Proof.
  apply (unknown_module_always_unused
           (str "on_reaction { execute { guilds.send(1, 2) } }")
           [str "events.reaction"] (str "events.reaction")).
  - left.
  - apply (bool_decide_unpack _). vm_compute. exact I.
  - apply (bool_decide_unpack _). vm_compute. exact I.
Defined.

End ScopeFacts.

Section SandboxFacts.
Import Text ImportValidator Model Manager Sandbox.
Context {host : Host}.

Lemma cooldown_expiry_after_set (g i key u : Str) (seconds : Z) (m : PluginManager) :
  default 0 (cooldowns (cooldown_set g i key u seconds m) !! cooldownKey g i key u)
  = clock m + seconds * 1000.
Proof. unfold cooldown_set. cbn. by rewrite lookup_insert_eq. Qed.

Lemma cooldown_set_then_on_aux (g i key u : Str) (seconds : Z) (m : PluginManager) :
  0 < seconds -> cooldown_is_on g i key u (cooldown_set g i key u seconds m) = true.
Proof.
  intros Hpos. unfold cooldown_is_on. rewrite cooldown_expiry_after_set.
  apply Z.ltb_lt. cbn. lia.
Qed.

Lemma cooldown_is_on_iff_remaining (g i key u : Str) (m : PluginManager) :
  cooldown_is_on g i key u m = true <-> 0 < cooldown_remaining g i u key m.
Proof.
  unfold cooldown_is_on, cooldown_remaining. rewrite Z.ltb_lt. lia.
Qed.

(** X8: [cooldown.is_on(key, user)] and [cooldown.remaining(user, key)],
    which take the key and the user in opposite orders, agree in every
    state: the cooldown is on exactly when the remaining time is
    positive.  After [cooldown.set(key, user, seconds)] with a positive
    number of seconds the cooldown is on and the remaining time is the
    full duration; as the clock advances, it is on exactly until
    [seconds * 1000] milliseconds have passed. *)
Theorem cooldown_set_round_trip (g i key u : Str) (seconds : Z) (m : PluginManager) :
  0 < seconds ->
  let m' := cooldown_set g i key u seconds m in
  cooldown_is_on g i key u m' = true
  /\ cooldown_remaining g i u key m' = seconds * 1000
  /\ (forall later,
        cooldown_is_on g i key u (setClock m' later) = true
        <-> later < clock m + seconds * 1000)
  /\ (forall m0,
        cooldown_is_on g i key u m0 = true <-> 0 < cooldown_remaining g i u key m0).
Proof.
  intros Hpos m'. unfold m'. split; [|split; [|split]].
  - unfold cooldown_is_on. rewrite cooldown_expiry_after_set.
    apply Z.ltb_lt. cbn. lia.
  - unfold cooldown_remaining. rewrite cooldown_expiry_after_set. cbn. lia.
  - intros later. unfold cooldown_is_on.
    change (cooldowns (setClock (cooldown_set g i key u seconds m) later))
      with (cooldowns (cooldown_set g i key u seconds m)).
    rewrite cooldown_expiry_after_set. cbn. apply Z.ltb_lt.
  - intros m0. apply cooldown_is_on_iff_remaining.
Qed.

Lemma colon_split (a a' b b' : Str) :
  colonFree a -> colonFree a' ->
  a ++ ":"%char :: b = a' ++ ":"%char :: b' -> a = a' /\ b = b'.
Proof.
  unfold colonFree. revert a'.
  induction a as [|c a IH]; intros [|c' a'] Ha Ha' Heq; simpl in Heq.
  - by injection Heq as ->.
  - injection Heq as <- _. exfalso. apply Ha'. left.
  - injection Heq as -> _. exfalso. apply Ha. left.
  - injection Heq as -> Heq.
    destruct (IH a') as [-> ->]; [| |done|done].
    + intros Hin. apply Ha. by right.
    + intros Hin. apply Ha'. by right.
Qed.

Lemma cooldownKey_inj (g i k u g' i' k' u' : Str) :
  colonFree g -> colonFree i -> colonFree k ->
  colonFree g' -> colonFree i' -> colonFree k' ->
  cooldownKey g i k u = cooldownKey g' i' k' u' ->
  (g, i, k, u) = (g', i', k', u').
Proof.
  intros Hg Hi Hk Hg' Hi' Hk' Heq. unfold cooldownKey in Heq.
  change (str ":") with [":"%char] in Heq. simpl in Heq.
  apply colon_split in Heq as [-> Heq]; [|done|done].
  apply colon_split in Heq as [-> Heq]; [|done|done].
  apply colon_split in Heq as [-> ->]; [|done|done].
  done.
Qed.

(** X10: when guild ids, plugin ids and keys hold no colon, the cooldown
    entries of different (guild, plugin, key, user) are independent:
    setting one changes neither [is_on] nor [remaining] of another. *)
Theorem cooldown_entries_independent
    (g i k u g' i' k' u' : Str) (seconds : Z) (m : PluginManager) :
  colonFree g -> colonFree i -> colonFree k ->
  colonFree g' -> colonFree i' -> colonFree k' ->
  (g, i, k, u) <> (g', i', k', u') ->
  cooldown_is_on g' i' k' u' (cooldown_set g i k u seconds m)
  = cooldown_is_on g' i' k' u' m
  /\ cooldown_remaining g' i' u' k' (cooldown_set g i k u seconds m)
     = cooldown_remaining g' i' u' k' m.
Proof.
  intros Hg Hi Hk Hg' Hi' Hk' Hne.
  assert (Hkey : cooldownKey g i k u <> cooldownKey g' i' k' u').
  { intros Heq. apply Hne. by apply cooldownKey_inj. }
  unfold cooldown_is_on, cooldown_remaining, cooldown_set. cbn.
  by rewrite lookup_insert_ne.
Qed.

(** X11: the reaction dispatcher and the sandbox's cooldown functions share
    the entry named [reaction_handler]: a cooldown that plugin code sets
    under that key holds back the plugin's reaction handlers, and the
    cooldown that the dispatcher sets when it runs a reaction handler is
    seen as on by plugin code. *)
Theorem reaction_gate_shares_sandbox_entry
    (g i : Str) (reaction : ReactionAdd) (plugin : LoadedPlugin)
    (handler : ReactionHandler) (seconds held : Z) (m : PluginManager) :
  truthyNumber (rh_cooldown handler) = Some seconds ->
  0 < seconds -> 0 < held ->
  let u := ra_userId reaction in
  let ctx := ReactionContext reaction g in
  handleReaction g reaction i plugin
    (cooldown_set g i (str "reaction_handler") u held m) handler
  = executeCode plugin (rh_onCooldown handler) ctx
      (cooldown_set g i (str "reaction_handler") u held m)
  /\ (cooldown_is_on g i (str "reaction_handler") u m = false ->
      exists m1,
        handleReaction g reaction i plugin m handler
        = executeCode plugin (rh_execute handler) ctx m1
        /\ cooldown_is_on g i (str "reaction_handler") u m1 = true
        /\ cooldown_remaining g i u (str "reaction_handler") m1 = seconds * 1000).
Proof.
  intros Hcd Hpos Hheld u ctx. split.
  - rewrite (handleReaction_gate _ _ _ _ _ _ seconds Hcd). cbv zeta.
    change (reactionCooldownKey g i (ra_userId reaction))
      with (cooldownKey g i (str "reaction_handler") u).
    rewrite cooldown_expiry_after_set.
    replace (clock (cooldown_set g i (str "reaction_handler") u held m)
             <? clock m + held * 1000) with true; [done|].
    symmetry. apply Z.ltb_lt. cbn. lia.
  - intros Hoff.
    exists (cooldown_set g i (str "reaction_handler") u seconds m).
    split; [|split].
    + rewrite (handleReaction_gate _ _ _ _ _ _ seconds Hcd). cbv zeta.
      change (reactionCooldownKey g i (ra_userId reaction))
        with (cooldownKey g i (str "reaction_handler") u).
      unfold cooldown_is_on in Hoff. by rewrite Hoff.
    + by apply cooldown_set_then_on_aux.
    + unfold cooldown_remaining. rewrite cooldown_expiry_after_set. cbn. lia.
Qed.

End SandboxFacts.

Lemma cooldown_set_round_trip_witness :
  Sandbox.cooldown_is_on (str "g1") (str "tickets") (str "daily") (str "u1")
    (Sandbox.cooldown_set (str "g1") (str "tickets") (str "daily") (str "u1") 5
       Sample.sampleManager) = true
  /\ Sandbox.cooldown_remaining (str "g1") (str "tickets") (str "u1") (str "daily")
       (Sandbox.cooldown_set (str "g1") (str "tickets") (str "daily") (str "u1") 5
          Sample.sampleManager) = 5 * 1000
  /\ (forall later,
        Sandbox.cooldown_is_on (str "g1") (str "tickets") (str "daily") (str "u1")
          (Model.setClock
             (Sandbox.cooldown_set (str "g1") (str "tickets") (str "daily")
                (str "u1") 5 Sample.sampleManager) later) = true
        <-> later < Model.clock Sample.sampleManager + 5 * 1000)
  /\ (forall m0,
        Sandbox.cooldown_is_on (str "g1") (str "tickets") (str "daily") (str "u1") m0
        = true
        <-> 0 < Sandbox.cooldown_remaining (str "g1") (str "tickets") (str "u1")
                  (str "daily") m0).
Proof.
  apply (cooldown_set_round_trip (str "g1") (str "tickets") (str "daily")
           (str "u1") 5 Sample.sampleManager).
  lia.
Defined.

Lemma cooldown_entries_independent_witness :
  Sandbox.cooldown_is_on (str "g1") (str "polls") (str "daily") (str "u1")
    (Sandbox.cooldown_set (str "g1") (str "tickets") (str "daily") (str "u1") 5
       Sample.sampleManager)
  = Sandbox.cooldown_is_on (str "g1") (str "polls") (str "daily") (str "u1")
      Sample.sampleManager
  /\ Sandbox.cooldown_remaining (str "g1") (str "polls") (str "u1") (str "daily")
       (Sandbox.cooldown_set (str "g1") (str "tickets") (str "daily") (str "u1") 5
          Sample.sampleManager)
     = Sandbox.cooldown_remaining (str "g1") (str "polls") (str "u1") (str "daily")
         Sample.sampleManager.
Proof.
  apply (cooldown_entries_independent
           (str "g1") (str "tickets") (str "daily") (str "u1")
           (str "g1") (str "polls") (str "daily") (str "u1") 5
           Sample.sampleManager).
  - apply (bool_decide_unpack _). vm_compute. exact I.
  - apply (bool_decide_unpack _). vm_compute. exact I.
  - apply (bool_decide_unpack _). vm_compute. exact I.
  - apply (bool_decide_unpack _). vm_compute. exact I.
  - apply (bool_decide_unpack _). vm_compute. exact I.
  - apply (bool_decide_unpack _). vm_compute. exact I.
  - apply (bool_decide_unpack _). vm_compute. exact I.
Defined.

Lemma reaction_gate_shares_sandbox_entry_witness :
  Manager.handleReaction (host := Sample.sampleHost) (str "g1") Sample.thumbsUp
    (str "tickets") Sample.samplePlugin
    (Sandbox.cooldown_set (str "g1") (str "tickets") (str "reaction_handler")
       (str "u1") 60 Sample.sampleManager) Sample.firstReaction
  = Manager.executeCode (host := Sample.sampleHost) Sample.samplePlugin
      (Model.rh_onCooldown Sample.firstReaction)
      (Model.ReactionContext Sample.thumbsUp (str "g1"))
      (Sandbox.cooldown_set (str "g1") (str "tickets") (str "reaction_handler")
         (str "u1") 60 Sample.sampleManager)
  /\ (Sandbox.cooldown_is_on (str "g1") (str "tickets") (str "reaction_handler")
        (str "u1") Sample.sampleManager = false ->
      exists m1,
        Manager.handleReaction (host := Sample.sampleHost) (str "g1")
          Sample.thumbsUp (str "tickets") Sample.samplePlugin
          Sample.sampleManager Sample.firstReaction
        = Manager.executeCode (host := Sample.sampleHost) Sample.samplePlugin
            (Model.rh_execute Sample.firstReaction)
            (Model.ReactionContext Sample.thumbsUp (str "g1")) m1
        /\ Sandbox.cooldown_is_on (str "g1") (str "tickets")
             (str "reaction_handler") (str "u1") m1 = true
        /\ Sandbox.cooldown_remaining (str "g1") (str "tickets") (str "u1")
             (str "reaction_handler") m1 = 5 * 1000).
Proof.
  apply (reaction_gate_shares_sandbox_entry (host := Sample.sampleHost)
           (str "g1") (str "tickets") Sample.thumbsUp Sample.samplePlugin
           Sample.firstReaction 5 60 Sample.sampleManager).
  - reflexivity.
  - lia.
  - lia.
Defined.

Section InstallFacts.
Import Text ImportValidator Model Manager Sandbox.
Context {host : Host}.

Lemma find_app_new (itemId : Str) (existing : list InstalledPlugin)
    (new : InstalledPlugin) :
  existsb (hasItem itemId) existing = false ->
  ip_itemId new = itemId ->
  List.find (hasItem itemId) (existing ++ [new]) = Some new.
Proof.
  intros Hnone Hid. induction existing as [|p existing IH]; simpl.
  - by replace (hasItem itemId new) with true by (symmetry; by apply hasItem_true).
  - simpl in Hnone. apply orb_false_iff in Hnone as [Hp Hrest].
    rewrite Hp. by apply IH.
Qed.

Lemma existsb_app_new (itemId : Str) (existing : list InstalledPlugin)
    (new : InstalledPlugin) :
  ip_itemId new = itemId ->
  existsb (hasItem itemId) (existing ++ [new]) = true.
Proof.
  intros Hid. rewrite existsb_app. apply orb_true_iff. right. simpl.
  by replace (hasItem itemId new) with true by (symmetry; by apply hasItem_true).
Qed.

(** What a successful install leaves in the tables. *)
Lemma install_success (g p : Str) (item : option MarketplaceItem)
    (download : Download) (m : PluginManager) :
  success (fst (installPluginFromMarketplace g p item download m)) = true ->
  exists dslCode manifest,
    download = Downloaded dslCode
    /\ parseManifest dslCode = Some manifest
    /\ valid (validate dslCode (extractImports dslCode) (mf_scopes manifest)) = true
    /\ existsb (hasItem p) (installedIn m g) = false
    /\ let new := {| ip_itemId := p; ip_guildId := g; ip_manifest := manifest;
                     ip_dslCode := dslCode; ip_settings := parseSettings dslCode;
                     ip_installedAt := clock m; ip_enabled := true;
                     ip_imports := extractImports dslCode |} in
       snd (installPluginFromMarketplace g p item download m)
       = setTables m
           (<[g := installedIn m g ++ [new]]> (installedPlugins m))
           (<[g := mapSet (loadedIn m g) p (buildPlugin new)]> (loadedPlugins m)).
Proof.
  unfold installPluginFromMarketplace.
  destruct item as [item|]; [|done].
  destruct (negb (bool_decide _)); [done|].
  destruct download as [dslCode|error]; [|done].
  destruct (parseManifest dslCode) as [manifest|] eqn:Hmanifest; [|done].
  destruct (valid _) eqn:Hvalid; cbn [negb]; [|done].
  fold (installedIn m g).
  destruct (existsb _ _) eqn:Hexists; [done|].
  intros _. by exists dslCode, manifest.
Qed.

(** X12: after a successful install, [plugins.permissions.has_scope]
    answers true, to the installed plugin, for every scope that a
    construct occurring in its source requires. *)
Theorem has_scope_after_install
    (g p : Str) (item : option MarketplaceItem) (dslCode scope : Str)
    (m : PluginManager) :
  success (fst (installPluginFromMarketplace g p item (Downloaded dslCode) m)) = true ->
  RequiredBy dslCode scope ->
  has_scope g p scope
    (snd (installPluginFromMarketplace g p item (Downloaded dslCode) m)) = true.
Proof.
  intros Hok Hreq.
  destruct (install_success g p item _ m Hok)
    as (code & manifest & [= <-] & Hmanifest & Hvalid & Hnew & Hstate).
  cbv zeta in Hstate. rewrite Hstate.
  unfold has_scope, findInstalled. cbn.
  rewrite lookup_insert_eq, find_app_new by done. cbn.
  apply bool_decide_eq_true.
  by apply (proj1 (validate_valid_true dslCode (extractImports dslCode)
                     (mf_scopes manifest)) Hvalid).
Qed.

Lemma install_failure_unchanged (g p : Str) (item : option MarketplaceItem)
    (download : Download) (m : PluginManager) :
  success (fst (installPluginFromMarketplace g p item download m)) = false ->
  snd (installPluginFromMarketplace g p item download m) = m.
Proof.
  unfold installPluginFromMarketplace.
  destruct item as [item|]; [|done].
  destruct (negb (bool_decide _)); [done|].
  destruct download as [dslCode|error]; [|done].
  destruct (parseManifest dslCode) as [manifest|]; [|done].
  destruct (negb (valid _)); [done|].
  destruct (existsb _ _); [done|].
  cbn. discriminate.
Qed.

(** X13: an approved plugin whose source uses a construct that requires a
    scope its manifest does not declare is not installed: the install
    answers with the list of missing scopes and changes nothing. *)
Theorem install_rejects_missing_scope
    (g p : Str) (item : MarketplaceItem) (dslCode scope : Str)
    (manifest : PluginManifest) (m : PluginManager) :
  mi_status item = str "approved" ->
  parseManifest dslCode = Some manifest ->
  RequiredBy dslCode scope ->
  scope ∉ mf_scopes manifest ->
  installPluginFromMarketplace g p (Some item) (Downloaded dslCode) m
  = ({| success := false;
        message := str "Scope validation failed: "
                   ++ missingScopesMessage
                        (missingScopes dslCode (mf_scopes manifest)) |}, m).
Proof.
  intros Happroved Hmanifest Hreq Hnot.
  unfold installPluginFromMarketplace.
  rewrite Happroved, Hmanifest.
  replace (bool_decide (str "approved" = str "approved")) with true
    by (symmetry; by apply bool_decide_eq_true).
  cbn [negb].
  assert (Hin : scope ∈ missingScopes dslCode (mf_scopes manifest))
    by (by apply missingScopes_spec).
  cbv beta iota zeta delta [validate valid errors].
  destruct (missingScopes dslCode (mf_scopes manifest)) as [|s0 rest] eqn:E.
  - by apply elem_of_nil in Hin.
  - cbn [length Nat.ltb Nat.leb Nat.eqb negb join]. done.
Qed.

(** X14: once a plugin is installed in a guild, every further install of
    that plugin in that guild fails and changes nothing; with the same
    marketplace item and download it answers "Already installed". *)
Theorem install_twice
    (g p : Str) (item item' : option MarketplaceItem)
    (download download' : Download) (m : PluginManager) :
  success (fst (installPluginFromMarketplace g p item download m)) = true ->
  let m1 := snd (installPluginFromMarketplace g p item download m) in
  success (fst (installPluginFromMarketplace g p item' download' m1)) = false
  /\ snd (installPluginFromMarketplace g p item' download' m1) = m1
  /\ message (fst (installPluginFromMarketplace g p item download m1))
     = str "Already installed".
Proof.
  intros Hok m1.
  destruct (install_success g p item download m Hok)
    as (dslCode & manifest & -> & Hmanifest & Hvalid & Hnew & Hstate).
  cbv zeta in Hstate.
  assert (Hthere : existsb (hasItem p) (installedIn m1 g) = true).
  { unfold m1. rewrite Hstate. rewrite installedIn_setTables, lookup_insert_eq.
    by apply existsb_app_new. }
  assert (Hfail : success (fst (installPluginFromMarketplace g p item' download' m1))
                  = false).
  { destruct (success (fst (installPluginFromMarketplace g p item' download' m1)))
      eqn:E; [|done].
    destruct (install_success g p item' download' m1 E)
      as (? & ? & _ & _ & _ & Habsent & _). congruence. }
  split; [done|]. split; [by apply install_failure_unchanged|].
  unfold installPluginFromMarketplace in Hok |- *.
  destruct item as [it|]; [|done].
  destruct (negb (bool_decide _)); [done|].
  rewrite Hmanifest in Hok |- *. rewrite Hvalid in Hok |- *. cbn [negb] in *.
  fold (installedIn m1 g). by rewrite Hthere.
Qed.

Lemma mapSet_absent {V} (entries : list (Str * V)) (k : Str) (v : V) :
  mapGet entries k = None -> mapSet entries k v = entries ++ [(k, v)].
Proof.
  induction entries as [|[k0 v0] entries IH]; simpl; [done|].
  destruct (decide (k0 = k)); [done|]. intros H. by rewrite IH.
Qed.

Lemma mapDelete_absent {V} (entries : list (Str * V)) (k : Str) :
  mapGet entries k = None -> mapDelete entries k = entries.
Proof.
  induction entries as [|[k0 v0] entries IH]; simpl; [done|].
  destruct (decide (k0 = k)); [done|]. intros H. by rewrite IH.
Qed.

Lemma mapDelete_app {V} (a b : list (Str * V)) (k : Str) :
  mapDelete (a ++ b) k = mapDelete a k ++ mapDelete b k.
Proof.
  induction a as [|[k0 v0] a IH]; simpl; [done|].
  destruct (decide (k0 = k)); [done|]. by rewrite IH.
Qed.

Lemma mapSet_keys {V} (entries : list (Str * V)) (k : Str) (v : V) :
  is_Some (mapGet entries k) -> map fst (mapSet entries k v) = map fst entries.
Proof.
  induction entries as [|[k0 v0] entries IH]; simpl.
  - by intros [? ?].
  - destruct (decide (k0 = k)) as [->|]; [done|]. intros H. simpl. by rewrite IH.
Qed.

Lemma removeFirst_app_new (itemId : Str) (existing : list InstalledPlugin)
    (new : InstalledPlugin) :
  existsb (hasItem itemId) existing = false ->
  ip_itemId new = itemId ->
  removeFirst itemId (existing ++ [new]) = existing.
Proof.
  intros Hnone Hid. induction existing as [|q existing IH]; simpl.
  - by replace (hasItem itemId new) with true by (symmetry; by apply hasItem_true).
  - simpl in Hnone. apply orb_false_iff in Hnone as [Hq Hrest].
    rewrite Hq. by rewrite IH.
Qed.

Lemma not_installed_not_loaded (m : PluginManager) (g p : Str) :
  tablesOk m ->
  existsb (hasItem p) (installedIn m g) = false ->
  mapGet (loadedIn m g) p = None.
Proof.
  intros [Hcons _] Hnone.
  destruct (mapGet (loadedIn m g) p) as [plugin|] eqn:E; [|done].
  exfalso. destruct (proj1 (Hcons g p)) as (x & Hx & Hid & _); [by eexists|].
  apply existsb_hasItem_false in Hnone. apply Hnone.
  rewrite <- Hid. by apply elem_of_ids.
Qed.

(** X15: installing a plugin and then uninstalling it gives back the
    tables as they were: in every guild the installed and the loaded
    plugins are those from before the install, in the same order. *)
Theorem install_then_uninstall
    (g p : Str) (item : option MarketplaceItem) (download : Download)
    (m : PluginManager) :
  tablesOk m ->
  success (fst (installPluginFromMarketplace g p item download m)) = true ->
  let m1 := snd (installPluginFromMarketplace g p item download m) in
  fst (uninstallPlugin g p m1) = {| success := true; message := str "Uninstalled" |}
  /\ forall g',
       installedIn (snd (uninstallPlugin g p m1)) g' = installedIn m g'
       /\ loadedIn (snd (uninstallPlugin g p m1)) g' = loadedIn m g'.
Proof.
  intros Htables Hok m1.
  destruct (install_success g p item download m Hok)
    as (dslCode & manifest & -> & Hmanifest & Hvalid & Hnew & Hstate).
  cbv zeta in Hstate.
  pose proof (not_installed_not_loaded m g p Htables Hnew) as Hunloaded.
  unfold m1. rewrite Hstate. unfold uninstallPlugin.
  cbn [installedPlugins loadedPlugins setTables].
  rewrite lookup_insert_eq, existsb_app_new by done.
  split; [done|]. intros g'. cbn [snd].
  rewrite installedIn_setTables, loadedIn_setTables, default_insert, default_unload.
  rewrite lookup_insert_eq. cbn [default from_option]. unfold id.
  rewrite removeFirst_app_new by done.
  rewrite mapSet_absent by done.
  rewrite mapDelete_app, mapDelete_absent by done.
  cbn [mapDelete]. destruct (decide (p = p)); [|done]. rewrite app_nil_r.
  destruct (decide (g = g')) as [<-|Hne]; [done|].
  by rewrite !lookup_insert_ne.
Qed.

Lemma find_updateFirst (itemId : Str) (enabled : bool)
    (plugins : list InstalledPlugin) (plugin : InstalledPlugin) :
  List.find (hasItem itemId) plugins = Some plugin ->
  List.find (hasItem itemId) (updateFirst itemId enabled plugins)
  = Some (setEnabled plugin enabled).
Proof.
  induction plugins as [|q plugins IH]; simpl; [done|].
  destruct (hasItem itemId q) eqn:E; simpl.
  - intros [= ->]. unfold hasItem in *. cbn. by rewrite E.
  - rewrite E. apply IH.
Qed.

(** X16: disabling a plugin and enabling it again puts it last among the
    loaded plugins of its guild, behind those it preceded, so the
    first-match dispatch of commands and buttons may then choose another
    plugin; enabling a plugin that is loaded keeps the order. *)
Theorem reenable_moves_last
    (g p : Str) (plugins : list InstalledPlugin) (plugin : InstalledPlugin)
    (m : PluginManager) :
  installedPlugins m !! g = Some plugins ->
  List.find (hasItem p) plugins = Some plugin ->
  loadedIn (snd (togglePlugin g p true (snd (togglePlugin g p false m)))) g
  = mapDelete (loadedIn m g) p ++ [(p, buildPlugin (setEnabled plugin true))]
  /\ (is_Some (mapGet (loadedIn m g) p) ->
      map fst (loadedIn (snd (togglePlugin g p true m)) g)
      = map fst (loadedIn m g)).
Proof.
  intros Hinst Hfind.
  pose proof (find_hasItem p plugins plugin Hfind) as [_ Hid].
  split.
  - unfold togglePlugin at 2. rewrite Hinst, Hfind. cbn [snd].
    unfold togglePlugin.
    cbn [installedPlugins loadedPlugins setTables].
    rewrite lookup_insert_eq, (find_updateFirst p false plugins plugin Hfind).
    cbn [snd]. unfold loadInstalledPlugin.
    rewrite loadedIn_setTables.
    cbn [installedPlugins loadedPlugins setTables ip_itemId setEnabled].
    rewrite lookup_insert_eq. cbn [default from_option]. unfold id.
    rewrite default_unload. destruct (decide (g = g)); [|done].
    fold (loadedIn m g). rewrite Hid.
    rewrite mapSet_absent.
    + done.
    + rewrite mapGet_mapDelete. by destruct (decide (p = p)).
  - intros Hloaded. unfold togglePlugin. rewrite Hinst, Hfind. cbn [snd].
    unfold loadInstalledPlugin. rewrite loadedIn_setTables.
    cbn [installedPlugins loadedPlugins setTables ip_itemId setEnabled].
    rewrite lookup_insert_eq. cbn [default from_option]. unfold id. fold (loadedIn m g).
    rewrite Hid. by apply mapSet_keys.
Qed.

End InstallFacts.

Lemma has_scope_after_install_witness :
  Sandbox.has_scope (str "g1") (str "tickets") (str "messages.send")
    (snd (Manager.installPluginFromMarketplace (host := Sample.sampleHost)
            (str "g1") (str "tickets") (Some Sample.approved)
            (Manager.Downloaded Scenario.hiCode) (Model.newManager 0)))
  = true.
Proof.
  apply (has_scope_after_install (host := Sample.sampleHost)
           (str "g1") (str "tickets") (Some Sample.approved) Scenario.hiCode
           (str "messages.send") (Model.newManager 0)).
  - vm_compute. reflexivity.
  - exists (str "guilds.send"), [str "messages.send"]. split; [|split].
    + apply (bool_decide_unpack _). vm_compute. exact I.
    + exists (str "command hi { on_command { "), (str "(1, 2) } }"). reflexivity.
    + left.
Defined.

Lemma install_rejects_missing_scope_witness :
  Manager.installPluginFromMarketplace (host := Sample.sampleHost)
    (str "g1") (str "tickets") (Some Sample.approved)
    (Manager.Downloaded Scenario.wipeCode) (Model.newManager 0)
  = ({| Manager.success := false;
        Manager.message :=
          str "Scope validation failed: "
          ++ ImportValidator.missingScopesMessage
               (ImportValidator.missingScopes Scenario.wipeCode
                  (Model.mf_scopes Sample.sampleManifest)) |},
     Model.newManager 0).
Proof.
  apply (install_rejects_missing_scope (host := Sample.sampleHost)
           (str "g1") (str "tickets") Sample.approved Scenario.wipeCode
           (str "db.write") Sample.sampleManifest (Model.newManager 0)).
  - reflexivity.
  - reflexivity.
  - exists (str "db.delete"), [str "db.write"]. split; [|split].
    + apply (bool_decide_unpack _). vm_compute. exact I.
    + exists (str "command wipe { on_command { "), (str "(1) } }"). reflexivity.
    + left.
  - apply (bool_decide_unpack _). vm_compute. exact I.
Defined.

Lemma install_twice_witness :
  Manager.success
    (fst (Manager.installPluginFromMarketplace (host := Sample.sampleHost)
            (str "g1") (str "tickets") (Some Sample.approved)
            (Manager.Downloaded Scenario.wipeCode) Scenario.installedManager))
  = false
  /\ snd (Manager.installPluginFromMarketplace (host := Sample.sampleHost)
            (str "g1") (str "tickets") (Some Sample.approved)
            (Manager.Downloaded Scenario.wipeCode) Scenario.installedManager)
     = Scenario.installedManager
  /\ Manager.message
       (fst (Manager.installPluginFromMarketplace (host := Sample.sampleHost)
               (str "g1") (str "tickets") (Some Sample.approved)
               (Manager.Downloaded Scenario.hiCode) Scenario.installedManager))
     = str "Already installed".
Proof.
  apply (install_twice (host := Sample.sampleHost)
           (str "g1") (str "tickets") (Some Sample.approved) (Some Sample.approved)
           (Manager.Downloaded Scenario.hiCode)
           (Manager.Downloaded Scenario.wipeCode) (Model.newManager 0)).
  vm_compute. reflexivity.
Defined.

Lemma install_then_uninstall_witness :
  fst (Manager.uninstallPlugin (str "g1") (str "tickets") Scenario.installedManager)
  = {| Manager.success := true; Manager.message := str "Uninstalled" |}
  /\ forall g',
       Manager.installedIn
         (snd (Manager.uninstallPlugin (str "g1") (str "tickets")
                 Scenario.installedManager)) g'
       = Manager.installedIn (Model.newManager 0) g'
       /\ Manager.loadedIn
            (snd (Manager.uninstallPlugin (str "g1") (str "tickets")
                    Scenario.installedManager)) g'
          = Manager.loadedIn (Model.newManager 0) g'.
Proof.
  apply (install_then_uninstall (host := Sample.sampleHost)
           (str "g1") (str "tickets") (Some Sample.approved)
           (Manager.Downloaded Scenario.hiCode) (Model.newManager 0)).
  - apply newManager_ok.
  - vm_compute. reflexivity.
Defined.

Lemma reenable_moves_last_witness :
  Manager.loadedIn
    (snd (Manager.togglePlugin (host := Sample.sampleHost) (str "g1") (str "tickets")
            true
            (snd (Manager.togglePlugin (host := Sample.sampleHost) (str "g1")
                    (str "tickets") false Scenario.installedManager))))
    (str "g1")
  = Model.mapDelete (Manager.loadedIn Scenario.installedManager (str "g1"))
      (str "tickets")
    ++ [(str "tickets",
         Manager.buildPlugin (host := Sample.sampleHost)
           (Manager.setEnabled Scenario.hiInstalled true))]
  /\ (is_Some (Model.mapGet (Manager.loadedIn Scenario.installedManager (str "g1"))
                 (str "tickets")) ->
      map fst
        (Manager.loadedIn
           (snd (Manager.togglePlugin (host := Sample.sampleHost) (str "g1")
                   (str "tickets") true Scenario.installedManager))
           (str "g1"))
      = map fst (Manager.loadedIn Scenario.installedManager (str "g1"))).
Proof.
  apply (reenable_moves_last (host := Sample.sampleHost)
           (str "g1") (str "tickets") [Scenario.hiInstalled] Scenario.hiInstalled
           Scenario.installedManager).
  - vm_compute. reflexivity.
  - vm_compute. reflexivity.
Defined.

Section StartupFacts.
Import Text ImportValidator Model Manager Startup.
Context {host : Host}.
Variable lookup : InstalledRow -> option MarketplaceItem.
Variable fetch : InstalledRow -> Download.

Lemma rowPlugin_Loadable (row : InstalledRow) :
  is_Some (rowPlugin lookup fetch row) <-> Loadable lookup fetch row.
Proof.
  unfold rowPlugin, Loadable. split.
  - intros [ip Hip].
    destruct (lookup row) as [item|]; [|done].
    destruct (fetch row) as [dslCode|]; [|done].
    destruct (parseManifest dslCode) as [manifest|] eqn:Hmanifest; [|done].
    destruct (valid _) eqn:Hvalid; [|done].
    by exists item, dslCode, manifest.
  - intros (item & dslCode & manifest & -> & -> & -> & Hvalid).
    rewrite Hvalid. by eexists.
Qed.

Lemma rowPlugin_fields (row : InstalledRow) (ip : InstalledPlugin) :
  rowPlugin lookup fetch row = Some ip ->
  ip_itemId ip = row_itemId row /\ ip_enabled ip = row_enabled row.
Proof.
  unfold rowPlugin.
  destruct (lookup row) as [item|]; [|done].
  destruct (fetch row) as [dslCode|]; [|done].
  destruct (parseManifest dslCode) as [manifest|]; [|done].
  destruct (negb _); [done|]. by intros [= <-].
Qed.

Lemma loadRow_installed (m : PluginManager) (row : InstalledRow) (g : Str) :
  installedIn (loadRow lookup fetch m row) g
  = match rowPlugin lookup fetch row with
    | Some ip =>
        if decide (row_guildId row = g) then installedIn m g ++ [ip]
        else installedIn m g
    | None => installedIn m g
    end.
Proof.
  unfold loadRow. destruct (rowPlugin lookup fetch row) as [ip|]; [|done].
  unfold loadInstalledPlugin. rewrite installedIn_setTables. cbn.
  rewrite default_insert. by destruct (decide (row_guildId row = g)) as [<-|].
Qed.

Lemma loadRow_loaded (m : PluginManager) (row : InstalledRow) (g : Str) :
  loadedIn (loadRow lookup fetch m row) g
  = match rowPlugin lookup fetch row with
    | Some ip =>
        if decide (row_guildId row = g)
        then mapSet (loadedIn m g) (row_itemId row) (buildPlugin ip)
        else loadedIn m g
    | None => loadedIn m g
    end.
Proof.
  unfold loadRow. destruct (rowPlugin lookup fetch row) as [ip|] eqn:Hip; [|done].
  apply rowPlugin_fields in Hip as [Hid _].
  unfold loadInstalledPlugin. rewrite loadedIn_setTables. cbn.
  rewrite default_insert, Hid.
  by destruct (decide (row_guildId row = g)) as [<-|].
Qed.

Lemma loadRows_loaded (rs : list InstalledRow) (g p : Str) : forall m,
  is_Some (mapGet (loadedIn (fold_left (loadRow lookup fetch) rs m) g) p)
  <-> is_Some (mapGet (loadedIn m g) p)
      \/ exists row, row ∈ rs /\ rowKey row = (g, p) /\ Loadable lookup fetch row.
Proof.
  induction rs as [|r rs IH]; intros m; simpl.
  - split; [by left|]. intros [H|(row & Hin & _)]; [done|].
    by apply elem_of_nil in Hin.
  - rewrite IH, loadRow_loaded. split.
    + intros [Hm|(row & Hin & Hkey & Hload)].
      * destruct (rowPlugin lookup fetch r) as [ip|] eqn:Hip; [|by left].
        destruct (decide (row_guildId r = g)) as [Hg|]; [|by left].
        rewrite mapGet_mapSet in Hm.
        destruct (decide (row_itemId r = p)) as [Hp|]; [|by left].
        right. exists r. split; [left|]. split; [unfold rowKey; congruence|].
        apply rowPlugin_Loadable. by eexists.
      * right. exists row. split; [by right|done].
    + intros [Hm|(row & Hin & Hkey & Hload)].
      * left. destruct (rowPlugin lookup fetch r) as [ip|]; [|done].
        destruct (decide (row_guildId r = g)); [|done].
        rewrite mapGet_mapSet. by destruct (decide (row_itemId r = p)).
      * apply elem_of_cons in Hin as [->|Hin].
        -- left. apply rowPlugin_Loadable in Hload as [ip Hip]. rewrite Hip.
           injection Hkey as Hg Hp.
           destruct (decide (row_guildId r = g)); [|done].
           rewrite mapGet_mapSet. by destruct (decide (row_itemId r = p)).
        -- right. by exists row.
Qed.

Lemma elem_of_enabled_rows (rows : list InstalledRow) (row : InstalledRow) :
  row ∈ List.filter row_enabled rows <-> row ∈ rows /\ row_enabled row = true.
Proof. rewrite !list_elem_of_In. apply filter_In. Qed.

(** X17: after start-up a plugin is loaded in a guild exactly when the
    table has an enabled row for it whose marketplace item exists, whose
    file is fetched and has a manifest, and whose scopes validate.  The
    status of the marketplace item is not consulted: an item that is not
    approved, which cannot be installed, is still loaded. *)
Theorem startup_loads_exactly (rows : list InstalledRow) (t : Z) (g p : Str) :
  isLoaded (loadAllInstalledPlugins lookup fetch rows (newManager t)) g p
  <-> exists row,
        row ∈ rows /\ row_enabled row = true /\ rowKey row = (g, p)
        /\ Loadable lookup fetch row.
Proof.
  rewrite isLoaded_loadedIn. unfold loadAllInstalledPlugins.
  rewrite loadRows_loaded. split.
  - intros [Hm|(row & Hin & Hkey & Hload)].
    + unfold loadedIn, newManager in Hm. cbn in Hm.
      rewrite lookup_empty in Hm. by destruct Hm.
    + apply elem_of_enabled_rows in Hin as [Hin Hen]. by exists row.
  - intros (row & Hin & Hen & Hkey & Hload). right. exists row.
    split; [by apply elem_of_enabled_rows|done].
Qed.

Lemma loadRow_preserves (m : PluginManager) (row : InstalledRow) :
  tablesOk m ->
  row_enabled row = true ->
  row_itemId row ∉ map ip_itemId (installedIn m (row_guildId row)) ->
  tablesOk (loadRow lookup fetch m row).
Proof.
  intros Hok Hen Hfresh.
  destruct (rowPlugin lookup fetch row) as [ip|] eqn:Hip.
  2: { unfold loadRow. by rewrite Hip. }
  pose proof (rowPlugin_fields row ip Hip) as [Hid Henabled].
  pose proof Hok as [Hcons Hnd].
  apply (tablesOk_update m _ (row_guildId row)
           (installedIn m (row_guildId row) ++ [ip])
           (mapSet (loadedIn m (row_guildId row)) (row_itemId row) (buildPlugin ip)));
    [done| | | |].
  - intros g'. rewrite loadRow_installed, Hip.
    by destruct (decide (row_guildId row = g')) as [<-|].
  - intros g'. rewrite loadRow_loaded, Hip.
    by destruct (decide (row_guildId row = g')) as [<-|].
  - intros q. rewrite mapGet_mapSet.
    destruct (decide (row_itemId row = q)) as [<-|Hne].
    + split; [|by eexists]. intros _. exists ip.
      split; [apply elem_of_app; right; by left|]. split; [done|congruence].
    + rewrite (Hcons (row_guildId row) q). unfold EnabledIn. split.
      * intros (x & Hx & Hxid & Hxen). exists x. split; [|done].
        apply elem_of_app. by left.
      * intros (x & Hx & Hxid & Hxen). apply elem_of_app in Hx as [Hx|Hx].
        -- by exists x.
        -- apply list_elem_of_singleton in Hx. subst x. congruence.
  - rewrite map_app. apply NoDup_app. split; [apply Hnd|].
    split; [|apply NoDup_singleton].
    intros x Hx Hx'. simpl in Hx'. apply list_elem_of_singleton in Hx'.
    subst x. by rewrite Hid in Hx.
Qed.

Lemma loadRow_ids (m : PluginManager) (row : InstalledRow) (g x : Str) :
  x ∈ map ip_itemId (installedIn (loadRow lookup fetch m row) g) ->
  x ∈ map ip_itemId (installedIn m g) \/ rowKey row = (g, x).
Proof.
  rewrite loadRow_installed.
  destruct (rowPlugin lookup fetch row) as [ip|] eqn:Hip; [|by left].
  apply rowPlugin_fields in Hip as [Hid _].
  destruct (decide (row_guildId row = g)) as [Hg|]; [|by left].
  rewrite map_app. intros Hx. apply elem_of_app in Hx as [Hx|Hx]; [by left|].
  right. simpl in Hx. apply list_elem_of_singleton in Hx.
  unfold rowKey. congruence.
Qed.

Lemma loadRows_ids (rs : list InstalledRow) (g x : Str) : forall m,
  x ∈ map ip_itemId (installedIn (fold_left (loadRow lookup fetch) rs m) g) ->
  x ∈ map ip_itemId (installedIn m g)
  \/ exists row, row ∈ rs /\ rowKey row = (g, x).
Proof.
  induction rs as [|r rs IH]; intros m; simpl; [by left|].
  intros Hx. apply IH in Hx as [Hx|(row & Hin & Hkey)].
  - apply loadRow_ids in Hx as [Hx|Hkey]; [by left|].
    right. exists r. split; [left|done].
  - right. exists row. split; [by right|done].
Qed.

Lemma loadRows_preserve (rs : list InstalledRow) : forall m,
  tablesOk m ->
  Forall (fun row => row_enabled row = true) rs ->
  NoDup (map rowKey rs) ->
  (forall row, row ∈ rs ->
     row_itemId row ∉ map ip_itemId (installedIn m (row_guildId row))) ->
  tablesOk (fold_left (loadRow lookup fetch) rs m).
Proof.
  induction rs as [|r rs IH]; intros m Hok Hen Hnd Hfresh; simpl; [done|].
  inversion Hen as [|? ? Hr Hrest]; subst.
  simpl in Hnd. apply NoDup_cons in Hnd as [Hkey Hnd].
  apply IH; [|done|done|].
  - apply loadRow_preserves; [done|done|]. apply Hfresh. left.
  - intros row Hin Hx. apply loadRow_ids in Hx as [Hx|Heq].
    + by apply (Hfresh row); [right|].
    + apply Hkey. rewrite Heq. apply list_elem_of_fmap. by exists row.
Qed.

Lemma NoDup_map_filter {A B} (f : A -> B) (P : A -> bool) (l : list A) :
  NoDup (map f l) -> NoDup (map f (List.filter P l)).
Proof.
  induction l as [|a l IH]; simpl; intros Hnd; [done|].
  apply NoDup_cons in Hnd as [Ha Hnd].
  destruct (P a); simpl; [|by apply IH].
  apply NoDup_cons. split; [|by apply IH].
  intros Hin. apply Ha. apply list_elem_of_fmap in Hin as (y & Hy & Hin).
  apply list_elem_of_fmap. exists y. split; [done|].
  apply list_elem_of_In in Hin. apply filter_In in Hin as [Hin _].
  by apply list_elem_of_In.
Qed.

Lemma startup_ok (rows : list InstalledRow) (t : Z) :
  NoDup (map rowKey rows) ->
  tablesOk (loadAllInstalledPlugins lookup fetch rows (newManager t)).
Proof.
  intros Hnd. unfold loadAllInstalledPlugins.
  apply loadRows_preserve.
  - apply newManager_ok.
  - apply Forall_forall. intros row Hin.
    by apply elem_of_enabled_rows in Hin as [_ Hen].
  - by apply NoDup_map_filter.
  - intros row _ Hin. unfold installedIn, newManager in Hin. cbn in Hin.
    rewrite lookup_empty in Hin. by apply elem_of_nil in Hin.
Qed.

(** X18: when the table has at most one row for each guild and plugin,
    the tables that start-up builds agree (a plugin is loaded exactly
    when it is installed and enabled) and list no plugin twice, and they
    still agree after any installs, toggles and uninstalls. *)
Theorem startup_tables_consistent
    (rows : list InstalledRow) (t : Z) (ops : list Operation) :
  NoDup (map rowKey rows) ->
  tablesOk (loadAllInstalledPlugins lookup fetch rows (newManager t))
  /\ tablesConsistent
       (fold_left perform ops
          (loadAllInstalledPlugins lookup fetch rows (newManager t))).
Proof.
  intros Hnd. pose proof (startup_ok rows t Hnd) as Hok.
  split; [done|]. apply tablesConsistent_alt.
  by apply (perform_all_preserves ops).
Qed.

Lemma startup_not_installed (rows : list InstalledRow) (t : Z) (g p : Str) :
  (forall row, row ∈ rows -> rowKey row = (g, p) -> row_enabled row = false) ->
  p ∉ map ip_itemId
        (installedIn (loadAllInstalledPlugins lookup fetch rows (newManager t)) g).
Proof.
  intros Hdisabled Hin. unfold loadAllInstalledPlugins in Hin.
  apply loadRows_ids in Hin as [Hin|(row & Hrow & Hkey)].
  - unfold installedIn, newManager in Hin. cbn in Hin.
    rewrite lookup_empty in Hin. by apply elem_of_nil in Hin.
  - apply elem_of_enabled_rows in Hrow as [Hrow Hen].
    rewrite (Hdisabled row Hrow Hkey) in Hen. done.
Qed.

Lemma toggle_not_installed (g p : Str) (enabled : bool) (m : PluginManager) :
  p ∉ map ip_itemId (installedIn m g) ->
  togglePlugin g p enabled m
  = ({| success := false; message := str "Not found" |}, m).
Proof.
  intros Habsent. unfold togglePlugin.
  destruct (installedPlugins m !! g) as [plugins|] eqn:Hinst; [|done].
  destruct (List.find (hasItem p) plugins) as [plugin|] eqn:Hfind; [|done].
  exfalso. apply Habsent. apply find_hasItem in Hfind as [Hin Hid].
  unfold installedIn. rewrite Hinst. cbn. rewrite <- Hid. by apply elem_of_ids.
Qed.

(** X19: start-up reads only the enabled rows, so a plugin whose row is
    disabled is not installed in memory afterwards: enabling or disabling
    it answers "Not found" and changes nothing. *)
Theorem startup_forgets_disabled
    (rows : list InstalledRow) (t : Z) (g p : Str) (enabled : bool) :
  (forall row, row ∈ rows -> rowKey row = (g, p) -> row_enabled row = false) ->
  togglePlugin g p enabled (loadAllInstalledPlugins lookup fetch rows (newManager t))
  = ({| success := false; message := str "Not found" |},
     loadAllInstalledPlugins lookup fetch rows (newManager t)).
Proof.
  intros Hdisabled.
  apply toggle_not_installed.
  by apply startup_not_installed.
Qed.

End StartupFacts.

Lemma startup_tables_consistent_witness :
  Manager.tablesOk
    (Startup.loadAllInstalledPlugins (host := Sample.sampleHost)
       Scenario.sampleLookup Scenario.sampleFetch Scenario.sampleRows
       (Model.newManager 0))
  /\ Manager.tablesConsistent
       (fold_left (Manager.perform (host := Sample.sampleHost))
          Sample.sampleOperations
          (Startup.loadAllInstalledPlugins (host := Sample.sampleHost)
             Scenario.sampleLookup Scenario.sampleFetch Scenario.sampleRows
             (Model.newManager 0))).
Proof.
  apply (startup_tables_consistent (host := Sample.sampleHost)
           Scenario.sampleLookup Scenario.sampleFetch Scenario.sampleRows 0
           Sample.sampleOperations).
  apply (bool_decide_unpack _). vm_compute. exact I.
Defined.

Lemma startup_forgets_disabled_witness :
  Manager.togglePlugin (host := Sample.sampleHost) (str "g1") (str "polls") true
    (Startup.loadAllInstalledPlugins (host := Sample.sampleHost)
       Scenario.sampleLookup Scenario.sampleFetch Scenario.sampleRows
       (Model.newManager 0))
  = ({| Manager.success := false; Manager.message := str "Not found" |},
     Startup.loadAllInstalledPlugins (host := Sample.sampleHost)
       Scenario.sampleLookup Scenario.sampleFetch Scenario.sampleRows
       (Model.newManager 0)).
Proof.
  apply (startup_forgets_disabled (host := Sample.sampleHost)
           Scenario.sampleLookup Scenario.sampleFetch Scenario.sampleRows 0
           (str "g1") (str "polls") true).
  intros row Hin Hkey.
  apply elem_of_cons in Hin as [->|Hin].
  - vm_compute in Hkey. discriminate Hkey.
  - apply elem_of_cons in Hin as [->|Hin]; [reflexivity|].
    by apply elem_of_nil in Hin.
Defined.

Section ListenerFacts.
Import Text Model Manager Effects.
Context {host : Host}.




(** *** Positional binding *)

Lemma bind_other_key (args : list Str) (params : list (Str * ParameterDef))
    (key : Str) : forall (parameters : gmap Str Value) (argIndex : nat),
  key ∉ map fst params ->
  fst (fold_left (bindParameter args) params (parameters, argIndex)) !! key
  = parameters !! key.
Proof.
  induction params as [|[k d] params IH]; intros parameters argIndex Hnot;
    cbn [fold_left]; [done|].
  assert (Hk : k <> key) by (intros ->; apply Hnot; simpl; left).
  assert (Hrest : key ∉ map fst params) by (intros H; apply Hnot; simpl; by right).
  unfold bindParameter at 2.
  destruct (argIndex <? length args)%nat.
  - destruct (ptype d); rewrite IH by done; by rewrite objectSet_lookup_ne.
  - destruct (prequired d); rewrite IH by done; [by rewrite objectSet_lookup_ne|done].
Qed.

Lemma bind_never_proto (args : list Str) (params : list (Str * ParameterDef)) :
  forall (parameters : gmap Str Value) (argIndex : nat),
    parameters !! protoKey = None ->
    fst (fold_left (bindParameter args) params (parameters, argIndex)) !! protoKey
    = None.
Proof.
  assert (Hset : forall (obj : gmap Str Value) k v,
            obj !! protoKey = None -> objectSet obj k v !! protoKey = None).
  { intros obj k v Hobj. unfold objectSet.
    destruct (decide (k = protoKey)); [done|]. by rewrite lookup_insert_ne. }
  induction params as [|[k d] params IH]; intros parameters argIndex Hnone;
    cbn [fold_left]; [done|].
  unfold bindParameter at 2.
  destruct (argIndex <? length args)%nat.
  - destruct (ptype d); apply IH; by apply Hset.
  - destruct (prequired d); apply IH; [by apply Hset|done].
Qed.

Lemma bind_positional (args : list Str) (params : list (Str * ParameterDef)) :
  forall (parameters : gmap Str Value) (start i : nat) (key : Str)
         (def : ParameterDef) (token : Str),
    Forall (fun entry => isStringParam entry = false) params ->
    NoDup (map fst params) ->
    params !! i = Some (key, def) ->
    key <> protoKey ->
    args !! (start + i)%nat = Some token ->
    fst (fold_left (bindParameter args) params (parameters, start)) !! key
    = Some (coerce (ptype def) token).
Proof.
  induction params as [|[k d] params IH];
    intros parameters start i key def token Hns Hnd Hi Hproto Harg; [done|].
  inversion Hns as [|? ? Hd Hrest]; subst.
  simpl in Hnd. apply NoDup_cons in Hnd as [Hk Hnd].
  assert (Hlt : (start < length args)%nat).
  { apply lookup_lt_Some in Harg. lia. }
  cbn [fold_left]. unfold bindParameter at 2.
  replace (start <? length args)%nat with true
    by (symmetry; apply Nat.ltb_lt; lia).
  unfold isStringParam in Hd. cbn [snd] in Hd.
  destruct i as [|i].
  - injection Hi as -> ->. rewrite Nat.add_0_r in Harg. rewrite Harg. cbn [default].
    destruct (ptype def) eqn:Ht; [done| |].
    + rewrite bind_other_key by done. rewrite objectSet_lookup by done.
      unfold coerce. done.
    + rewrite bind_other_key by done. rewrite objectSet_lookup by done.
      unfold coerce. done.
  - simpl in Hi.
    replace (start + S i)%nat with (S start + i)%nat in Harg by lia.
    destruct (ptype d); [done| |]; by apply (IH _ (S start) i).
Qed.

(** X21: for a command whose parameters are all of type int or bool, the
    binding is positional: the i-th parameter, when it is not named
    [__proto__], is bound to the value read from the i-th token after the
    command name (an int that does not parse is kept as the string, a
    bool is true for "true" in any case and for "1").  A parameter named
    [__proto__] uses up its token and is never bound. *)
Theorem bindParameters_positional
    (handler : CommandHandler) (args : list Str) (i : nat) (key : Str)
    (def : ParameterDef) (token : Str) :
  Forall (fun entry => isStringParam entry = false) (cmd_parameters handler) ->
  NoDup (map fst (cmd_parameters handler)) ->
  cmd_parameters handler !! i = Some (key, def) ->
  args !! i = Some token ->
  (key <> protoKey ->
   bindParameters handler args !! key = Some (coerce (ptype def) token))
  /\ bindParameters handler args !! protoKey = None.
Proof.
  intros Hns Hnd Hi Harg. unfold bindParameters. split.
  - intros Hproto.
    by apply (bind_positional args (cmd_parameters handler) ∅ 0%nat i).
  - apply bind_never_proto. apply lookup_empty.
Qed.


Lemma bind_index_mono (args : list Str) (params : list (Str * ParameterDef)) :
  forall (parameters : gmap Str Value) (argIndex : nat),
    (argIndex <= snd (fold_left (bindParameter args) params (parameters, argIndex)))%nat.
Proof.
  induction params as [|[k d] params IH]; intros parameters argIndex;
    cbn [fold_left]; [simpl; lia|].
  destruct (bindParameter args (parameters, argIndex) (k, d)) as [ps idx] eqn:E.
  etransitivity; [|apply IH].
  destruct (decide (argIndex < length args)%nat) as [Hlt|Hge].
  - pose proof (bindParameter_consumes args parameters argIndex (k, d) Hlt) as H.
    rewrite E in H. simpl in H. lia.
  - rewrite bindParameter_exhausted in E by lia. injection E as _ <-. lia.
Qed.



End ListenerFacts.


Lemma bindParameters_positional_witness :
  (str "lucky" <> Manager.protoKey ->
   Manager.bindParameters (host := Scenario.listeningHost) Scenario.roll
     [str "6"; str "TRUE"] !! str "lucky"
   = Some (Effects.coerce (host := Scenario.listeningHost) Model.TBool (str "TRUE")))
  /\ Manager.bindParameters (host := Scenario.listeningHost) Scenario.roll
       [str "6"; str "TRUE"] !! Manager.protoKey
     = None.
Proof.
  apply (bindParameters_positional (host := Scenario.listeningHost)
           Scenario.roll [str "6"; str "TRUE"] 1 (str "lucky")
           {| Model.ptype := Model.TBool; Model.pdescription := str "Roll twice";
              Model.prequired := false |} (str "TRUE")).
  - repeat constructor.
  - apply (bool_decide_unpack _). vm_compute. exact I.
  - reflexivity.
  - reflexivity.
Defined.


Section TriggerDispatchFacts.
Import Text Model Manager Effects.
Context {host : Host}.

Lemma wellFormed_forallb (name : Str) :
  WellFormedName name ->
  exists c rest, name = c :: rest
    /\ forallb (fun c => negb (isLineTerminator c)) name = true.
Proof.
  intros [Hne Hall]. destruct name as [|c rest]; [done|].
  exists c, rest. split; [done|].
  apply forallb_forall. intros x Hx. apply list_elem_of_In in Hx.
  rewrite Forall_forall in Hall. by rewrite (Hall x Hx).
Qed.


Lemma parseTarget_command (name : Str) :
  WellFormedName name ->
  parseTarget (str "command:" ++ name) = Some (KindCommand, name).
Proof.
  intros Hwf. destruct (wellFormed_forallb name Hwf) as (c & rest & -> & Hall).
  unfold parseTarget.
  change (startsWith (str "event:") (str "command:" ++ c :: rest)) with false.
  change (startsWith (str "fun:") (str "command:" ++ c :: rest)) with false.
  change (startsWith (str "command:") (str "command:" ++ c :: rest)) with true.
  cbv beta iota.
  change (drop (length (str "command:")) (str "command:" ++ c :: rest))
    with (c :: rest).
  by rewrite Hall.
Qed.










(** X24: a command-kind trigger [command:name] looks the command up in
    the emitting plugin only.  When the plugin has it, the command's body
    is handed to [executeCode] at once, with parameters taken from the
    trigger's data ([data.parameters] when that is truthy, else the data
    itself, else an empty object): no parameter is bound or checked,
    whatever the command requires, and the trigger throws exactly when
    [executeCode] rejects on that body.  When the plugin has no such
    command, the trigger
    throws "Command '...' not found" and changes nothing, even if another
    plugin of the guild has a command of that name. *)
Theorem command_trigger_skips_checks
    (g i name : Str) (data : option (gmap Str Value)) (m : PluginManager)
    (plugins : list (Str * LoadedPlugin)) (plugin : LoadedPlugin) :
  WellFormedName name ->
  loadedPlugins m !! g = Some plugins ->
  mapGet plugins i = Some plugin ->
  match mapGet (lp_commands plugin) name with
  | Some handler =>
      fst (emitTrigger g i (str "command:" ++ name) data m)
      = outcomeOf
          (executeCodeThrows plugin (cmd_onCommand handler)
             (CommandTriggerContext g (commandTriggerParameters data) data) m)
      /\ snd (emitTrigger g i (str "command:" ++ name) data m)
         = executeCode plugin (cmd_onCommand handler)
             (CommandTriggerContext g (commandTriggerParameters data) data) m
      /\ trace (snd (emitTrigger g i (str "command:" ++ name) data m))
         = trace m
           ++ execEvents plugin (cmd_onCommand handler)
                (CommandTriggerContext g (commandTriggerParameters data) data)
  | None =>
      emitTrigger g i (str "command:" ++ name) data m
      = (Threw (commandNotFound name), m)
  end.
Proof.
  intros Hwf Hloaded Hplugin. unfold emitTrigger.
  rewrite (parseTarget_command name Hwf).
  unfold handleCommandTrigger. rewrite Hloaded, Hplugin.
  destruct (mapGet (lp_commands plugin) name) as [handler|]; [|done].
  unfold runBody. cbn [fst snd]. split; [done|]. split; [done|].
  apply executeCode_execEvents.
Qed.

End TriggerDispatchFacts.


Lemma command_trigger_skips_checks_witness :
  fst (Manager.emitTrigger (host := Scenario.listeningHost) (str "g1") (str "greeter")
         (str "command:" ++ str "remind") None Scenario.dispatchManager)
  = Manager.outcomeOf
      (Manager.executeCodeThrows (host := Scenario.listeningHost)
         Scenario.greeterPlugin (Model.cmd_onCommand Scenario.remind)
         (Model.CommandTriggerContext (str "g1") (Model.ParametersObject ∅) None)
         Scenario.dispatchManager)
  /\ snd (Manager.emitTrigger (host := Scenario.listeningHost) (str "g1")
            (str "greeter") (str "command:" ++ str "remind") None
            Scenario.dispatchManager)
     = Manager.executeCode (host := Scenario.listeningHost)
         Scenario.greeterPlugin (Model.cmd_onCommand Scenario.remind)
         (Model.CommandTriggerContext (str "g1") (Model.ParametersObject ∅) None)
         Scenario.dispatchManager
  /\ Model.trace
       (snd (Manager.emitTrigger (host := Scenario.listeningHost) (str "g1")
               (str "greeter") (str "command:" ++ str "remind") None
               Scenario.dispatchManager))
     = Model.trace Scenario.dispatchManager
       ++ Manager.execEvents Scenario.greeterPlugin
            (Model.cmd_onCommand Scenario.remind)
            (Model.CommandTriggerContext (str "g1") (Model.ParametersObject ∅) None).
Proof.
  apply (command_trigger_skips_checks (host := Scenario.listeningHost)
           (str "g1") (str "greeter") (str "remind") None
           Scenario.dispatchManager [(str "greeter", Scenario.greeterPlugin)]
           Scenario.greeterPlugin).
  - split; [discriminate|]. repeat constructor.
  - reflexivity.
  - reflexivity.
Defined.

Section HttpClientFacts.
Import Text Model Manager HttpAdmin.
Context {host : Host}.

(** X25: a request to a well-formed URL whose host is not blocked, made
    while the plugin is under both of its limits, makes exactly one
    network call; it is logged after the entries of the last hour (older
    ones are dropped), as a success or a failure according to the answer,
    which is returned or rethrown to the plugin. *)
Theorem makeRequest_accepted
    (guildId itemId : Str) (method : HttpMethod) (url hostname : Str)
    (reply : AxiosReply) (elapsed : Z) (m : PluginManager) :
  startsWith (str "http") url = true ->
  urlHostname url = Some hostname ->
  hostname ∉ blockedDomains m ->
  Z.of_nat (length (lastMinute (getHttpLogs guildId itemId m) (clock m)))
    < maxRequestsPerMinute (requestLimits m) ->
  Z.of_nat (length (recentLogs (getHttpLogs guildId itemId m) (clock m)))
    < maxRequestsPerHour (requestLimits m) ->
  let result := makeRequest guildId itemId method url reply elapsed m in
  trace (snd result) = trace m ++ [NetworkCall (methodName method) url]
  /\ (exists entry,
        getHttpLogs guildId itemId (snd result)
        = recentLogs (getHttpLogs guildId itemId m) (clock m) ++ [entry]
        /\ log_url entry = url
        /\ log_timestamp entry = clock m + Z.max 0 elapsed
        /\ log_success entry
           = match reply with AxiosResponse _ _ _ => true | AxiosFailure _ _ => false end)
  /\ fst result
     = match reply with
       | AxiosResponse _ data _ => HttpData data
       | AxiosFailure _ message =>
           HttpThrew (str "HTTP " ++ methodName method ++ str " failed: " ++ message)
       end.
Proof.
  intros Hhttp Hhost Hfree Hminute Hhour result.
  unfold result, makeRequest, issueRequest, settleRequest, failRequest.
  rewrite Hhttp, Hhost. cbn [negb].
  replace (bool_decide (hostname ∈ blockedDomains m)) with false
    by (symmetry; by apply bool_decide_eq_false).
  unfold checkHttpRateLimits. rewrite lastMinute_of_recent.
  unfold getHttpLogs in *.
  replace (maxRequestsPerMinute (requestLimits m) <=? _) with false
    by (symmetry; apply Z.leb_gt; lia).
  replace (maxRequestsPerHour (requestLimits m) <=? _) with false
    by (symmetry; apply Z.leb_gt; lia).
  destruct reply as [status data size|status message]; cbn [fst snd].
  - split; [done|]. split; [|done].
    eexists. unfold logHttpRequest. cbn.
    rewrite !lookup_insert_eq. cbn. done.
  - split; [done|]. split; [|done].
    eexists. unfold logHttpRequest. cbn.
    rewrite !lookup_insert_eq. cbn. done.
Qed.





(** X27: when the log of the plugin holds as many requests of the last
    hour as the per-hour limit, a request is rejected by throwing and
    makes no network call; the rejection is itself logged as a failure,
    after the unpruned log. *)
Theorem makeRequest_hour_limit
    (guildId itemId : Str) (method : HttpMethod) (url : Str)
    (reply : AxiosReply) (elapsed : Z) (m : PluginManager) :
  maxRequestsPerHour (requestLimits m)
    <= Z.of_nat (length (recentLogs (getHttpLogs guildId itemId m) (clock m))) ->
  let result := makeRequest guildId itemId method url reply elapsed m in
  (exists message, fst result = HttpThrew message)
  /\ trace (snd result) = trace m
  /\ exists entry,
       getHttpLogs guildId itemId (snd result)
       = getHttpLogs guildId itemId m ++ [entry]
       /\ log_success entry = false /\ log_timestamp entry = clock m.
Proof.
  intros Hfull result. unfold result, makeRequest, issueRequest, settleRequest, failRequest,
    getHttpLogs in *.
  assert (Hlogged : forall status message,
            exists entry,
              default []
                (httpLogs
                   (logHttpRequest
                      {| log_timestamp := clock m; log_method := methodName method;
                         log_url := url; log_status := status;
                         log_responseSize := 0;
                         log_duration := clock m - clock m;
                         log_pluginId := itemId; log_guildId := guildId;
                         log_success := false;
                         log_errorReason := Some message |} m)
                 !! httpKey guildId itemId)
              = default [] (httpLogs m !! httpKey guildId itemId) ++ [entry]
              /\ log_success entry = false /\ log_timestamp entry = clock m).
  { intros status message. eexists. unfold logHttpRequest. cbn.
    rewrite lookup_insert_eq. cbn. done. }
  destruct (startsWith (str "http") url); cbn [negb fst snd];
    [|split; [by eexists|split; [done|apply Hlogged]]].
  destruct (urlHostname url) as [hostname|]; cbn [fst snd];
    [|split; [by eexists|split; [done|apply Hlogged]]].
  destruct (bool_decide (hostname ∈ blockedDomains m)); cbn [fst snd];
    [split; [by eexists|split; [done|apply Hlogged]]|].
  unfold checkHttpRateLimits.
  destruct (maxRequestsPerMinute (requestLimits m) <=? _); cbn [fst snd];
    [split; [by eexists|split; [done|apply Hlogged]]|].
  replace (maxRequestsPerHour (requestLimits m) <=? _) with true
    by (symmetry; apply Z.leb_le; lia).
  cbn [fst snd]. split; [by eexists|split; [done|apply Hlogged]].
Qed.

Lemma setBlockedDomains_same (m : PluginManager) :
  setBlockedDomains m (blockedDomains m) = m.
Proof. by destruct m. Qed.

(** X28: after [blockDomain] every request to that host is rejected by
    throwing, without a network call; [unblockDomain] removes the host
    from the blocked set, and undoes a [blockDomain] of a host that was
    not blocked before. *)
Theorem blockDomain_round_trip
    (domain : Str) (m : PluginManager) (guildId itemId : Str)
    (method : HttpMethod) (url : Str) (reply : AxiosReply) (elapsed : Z) :
  urlHostname url = Some domain ->
  ((exists message,
      fst (makeRequest guildId itemId method url reply elapsed (blockDomain domain m))
      = HttpThrew message)
   /\ trace (snd (makeRequest guildId itemId method url reply elapsed
                    (blockDomain domain m)))
      = trace m)
  /\ (domain ∉ blockedDomains (unblockDomain domain (blockDomain domain m)))
  /\ (domain ∉ blockedDomains m ->
      unblockDomain domain (blockDomain domain m) = m).
Proof.
  intros Hhost. split; [|split].
  - apply (makeRequest_rejected_gen guildId itemId method url reply elapsed
             (blockDomain domain m)).
    right. exists domain. split; [done|].
    unfold blockDomain. cbn. apply elem_of_union. left. by apply elem_of_singleton.
  - unfold unblockDomain, blockDomain. cbn.
    rewrite elem_of_difference, elem_of_singleton. by intros [_ Hne].
  - intros Hfree. unfold unblockDomain, blockDomain, setBlockedDomains. cbn.
    replace (({[domain]} ∪ blockedDomains m) ∖ {[domain]}) with (blockedDomains m).
    + by destruct m.
    + apply leibniz_equiv, set_equiv. intros x.
      rewrite elem_of_difference, elem_of_union, !elem_of_singleton. split.
      * intros Hx. split; [by right|]. by intros ->.
      * by intros [[->|Hx] Hne].
Qed.

End HttpClientFacts.

Lemma makeRequest_accepted_witness :
  Model.trace
    (snd (Manager.makeRequest (host := Sample.sampleHost) (str "g1") (str "tickets")
            Manager.GET (str "https://api.example/status")
            (Manager.AxiosResponse 200 (str "ok") 2) 10 Sample.sampleManager))
  = Model.trace Sample.sampleManager
    ++ [Model.NetworkCall (Manager.methodName Manager.GET)
          (str "https://api.example/status")]
  /\ (exists entry,
        HttpAdmin.getHttpLogs (str "g1") (str "tickets")
          (snd (Manager.makeRequest (host := Sample.sampleHost) (str "g1")
                  (str "tickets") Manager.GET (str "https://api.example/status")
                  (Manager.AxiosResponse 200 (str "ok") 2) 10 Sample.sampleManager))
        = Manager.recentLogs
            (HttpAdmin.getHttpLogs (str "g1") (str "tickets") Sample.sampleManager)
            (Model.clock Sample.sampleManager)
          ++ [entry]
        /\ Model.log_url entry = str "https://api.example/status"
        /\ Model.log_timestamp entry = Model.clock Sample.sampleManager + Z.max 0 10
        /\ Model.log_success entry = true)
  /\ fst (Manager.makeRequest (host := Sample.sampleHost) (str "g1") (str "tickets")
            Manager.GET (str "https://api.example/status")
            (Manager.AxiosResponse 200 (str "ok") 2) 10 Sample.sampleManager)
     = Manager.HttpData (str "ok").
Proof.
  apply (makeRequest_accepted (host := Sample.sampleHost) (str "g1") (str "tickets")
           Manager.GET (str "https://api.example/status") (str "api.example")
           (Manager.AxiosResponse 200 (str "ok") 2) 10 Sample.sampleManager).
  - reflexivity.
  - reflexivity.
  - apply (bool_decide_unpack _). vm_compute. exact I.
  - vm_compute. reflexivity.
  - vm_compute. reflexivity.
Defined.


Lemma makeRequest_hour_limit_witness :
  (exists message,
     fst (Manager.makeRequest (host := Sample.sampleHost) (str "g1") (str "tickets")
            Manager.GET (str "https://api.example/status")
            (Manager.AxiosResponse 200 (str "ok") 2) 10 Scenario.hourlyManager)
     = Manager.HttpThrew message)
  /\ Model.trace
       (snd (Manager.makeRequest (host := Sample.sampleHost) (str "g1")
               (str "tickets") Manager.GET (str "https://api.example/status")
               (Manager.AxiosResponse 200 (str "ok") 2) 10 Scenario.hourlyManager))
     = Model.trace Scenario.hourlyManager
  /\ exists entry,
       HttpAdmin.getHttpLogs (str "g1") (str "tickets")
         (snd (Manager.makeRequest (host := Sample.sampleHost) (str "g1")
                 (str "tickets") Manager.GET (str "https://api.example/status")
                 (Manager.AxiosResponse 200 (str "ok") 2) 10 Scenario.hourlyManager))
       = HttpAdmin.getHttpLogs (str "g1") (str "tickets") Scenario.hourlyManager
         ++ [entry]
       /\ Model.log_success entry = false
       /\ Model.log_timestamp entry = Model.clock Scenario.hourlyManager.
Proof.
  apply (makeRequest_hour_limit (host := Sample.sampleHost) (str "g1") (str "tickets")
           Manager.GET (str "https://api.example/status")
           (Manager.AxiosResponse 200 (str "ok") 2) 10 Scenario.hourlyManager).
  vm_compute. discriminate.
Defined.

Lemma blockDomain_round_trip_witness :
  ((exists message,
      fst (Manager.makeRequest (host := Sample.sampleHost) (str "g1") (str "tickets")
             Manager.POST (str "http://evil.example/collect")
             (Manager.AxiosResponse 200 (str "ok") 2) 10
             (HttpAdmin.blockDomain (str "evil.example") Sample.sampleManager))
      = Manager.HttpThrew message)
   /\ Model.trace
        (snd (Manager.makeRequest (host := Sample.sampleHost) (str "g1")
                (str "tickets") Manager.POST (str "http://evil.example/collect")
                (Manager.AxiosResponse 200 (str "ok") 2) 10
                (HttpAdmin.blockDomain (str "evil.example") Sample.sampleManager)))
      = Model.trace Sample.sampleManager)
  /\ (str "evil.example"
        ∉ Model.blockedDomains
            (HttpAdmin.unblockDomain (str "evil.example")
               (HttpAdmin.blockDomain (str "evil.example") Sample.sampleManager)))
  /\ (str "evil.example" ∉ Model.blockedDomains Sample.sampleManager ->
      HttpAdmin.unblockDomain (str "evil.example")
        (HttpAdmin.blockDomain (str "evil.example") Sample.sampleManager)
      = Sample.sampleManager).
Proof.
  apply (blockDomain_round_trip (host := Sample.sampleHost) (str "evil.example")
           Sample.sampleManager (str "g1") (str "tickets") Manager.POST
           (str "http://evil.example/collect")
           (Manager.AxiosResponse 200 (str "ok") 2) 10).
  reflexivity.
Defined.

Section ClientButtonFacts.
Import Text Model Manager.
Context {host : Host}.

Lemma executePluginCode_tables (guildId itemId code : Str) (ctx : Context)
    (m : PluginManager) :
  loadedPlugins (executePluginCode guildId itemId code ctx m) = loadedPlugins m.
Proof.
  unfold executePluginCode.
  destruct (loadedPlugins m !! guildId) as [plugins|]; [|done].
  destruct (mapGet plugins itemId) as [plugin|]; [|done].
  apply executeCode_tables.
Qed.

Lemma runButtonCode_tables (guildId itemId : Str) (handler : ButtonHandler)
    (interaction : ButtonInteraction) (m : PluginManager) :
  loadedPlugins (runButtonCode guildId itemId handler interaction m)
  = loadedPlugins m.
Proof.
  unfold runButtonCode.
  destruct (executePluginCodeThrows _ _ _ _ _); [simpl|];
    apply executePluginCode_tables.
Qed.

(** X29: the client's button handler enforces the cooldown that a button
    declares.  After a click that passes, a click on a button of the same
    id by the same user, in the same or in another guild, made before
    [seconds * 1000] milliseconds have passed, runs no plugin code: it is
    answered with the fixed cooldown text and the remaining seconds, and
    the cooldown store is left as it is. *)
Theorem buttonHandler_enforces_cooldown
    (first second : ButtonInteraction) (clientCooldowns : gmap Str Z)
    (m : PluginManager)
    (g : Str) (plugins : list (Str * LoadedPlugin)) (itemId : Str)
    (plugin : LoadedPlugin) (handler : ButtonHandler) (seconds : Z)
    (g2 : Str) (plugins2 : list (Str * LoadedPlugin)) (itemId2 : Str)
    (plugin2 : LoadedPlugin) (handler2 : ButtonHandler) (seconds2 : Z) :
  bi_guild first = Some g ->
  loadedPlugins m !! g = Some plugins ->
  findButtonEntry plugins (bi_customId first) = Some (itemId, plugin, handler) ->
  truthyNumber (btn_cooldown handler) = Some seconds ->
  default 0 (clientCooldowns
               !! buttonCooldownKey (bi_customId first) (bi_userId first))
    <= clock m ->
  bi_customId second = bi_customId first ->
  bi_userId second = bi_userId first ->
  bi_guild second = Some g2 ->
  loadedPlugins m !! g2 = Some plugins2 ->
  findButtonEntry plugins2 (bi_customId second) = Some (itemId2, plugin2, handler2) ->
  truthyNumber (btn_cooldown handler2) = Some seconds2 ->
  let state1 := buttonHandler first (clientCooldowns, m) in
  clock (snd state1) < clock m + seconds * 1000 ->
  buttonHandler second state1
  = (fst state1,
     emit (snd state1)
       (InteractionReply second
          (buttonCooldownMessage
             (ceilSeconds (clock m + seconds * 1000 - clock (snd state1)))))).
Proof.
  intros Hg Hloaded Hfind Hcd Hfree Hid Huser Hg2 Hloaded2 Hfind2 Hcd2.
  assert (Hfirst :
            buttonHandler first (clientCooldowns, m)
            = (<[buttonCooldownKey (bi_customId first) (bi_userId first)
                 := clock m + seconds * 1000]> clientCooldowns,
               runButtonCode g itemId handler first m)).
  { unfold buttonHandler. rewrite Hg, Hloaded, Hfind, Hcd.
    by replace (clock m <? _) with false by (symmetry; apply Z.ltb_ge; lia). }
  rewrite Hfirst. cbn [fst snd]. intros Hsoon.
  set (m1 := runButtonCode g itemId handler first m) in *.
  unfold buttonHandler.
  rewrite Hg2, (runButtonCode_tables g itemId handler first m : loadedPlugins m1 = _),
    Hloaded2, Hfind2, Hcd2, Hid, Huser, lookup_insert_eq.
  cbn [default from_option]. unfold id.
  by replace (clock m1 <? clock m + seconds * 1000) with true
    by (symmetry; apply Z.ltb_lt; lia).
Qed.

End ClientButtonFacts.

Lemma buttonHandler_enforces_cooldown_witness :
  Manager.buttonHandler (host := Sample.sampleHost) Sample.click
    (Manager.buttonHandler (host := Sample.sampleHost) Sample.click
       (∅, Sample.sampleManager))
  = (fst (Manager.buttonHandler (host := Sample.sampleHost) Sample.click
            (∅, Sample.sampleManager)),
     Model.emit
       (snd (Manager.buttonHandler (host := Sample.sampleHost) Sample.click
               (∅, Sample.sampleManager)))
       (Model.InteractionReply Sample.click
          (Manager.buttonCooldownMessage
             (Manager.ceilSeconds
                (Model.clock Sample.sampleManager + 5 * 1000
                 - Model.clock
                     (snd (Manager.buttonHandler (host := Sample.sampleHost)
                             Sample.click (∅, Sample.sampleManager)))))))).
Proof.
  apply (buttonHandler_enforces_cooldown (host := Sample.sampleHost)
           Sample.click Sample.click ∅ Sample.sampleManager
           (str "g1") [(str "tickets", Sample.samplePlugin)] (str "tickets")
           Sample.samplePlugin Sample.close_ticket 5
           (str "g1") [(str "tickets", Sample.samplePlugin)] (str "tickets")
           Sample.samplePlugin Sample.close_ticket 5).
  - reflexivity.
  - reflexivity.
  - reflexivity.
  - reflexivity.
  - vm_compute. discriminate.
  - reflexivity.
  - reflexivity.
  - reflexivity.
  - reflexivity.
  - reflexivity.
  - reflexivity.
  - vm_compute. reflexivity.
Defined.

Section CommandSurfaceFacts.
Import Text Model Manager Startup PluginCommand.
Context {host : Host}.
Variable lookup : InstalledRow -> option MarketplaceItem.
Variable fetch : InstalledRow -> Download.

Lemma findRow_spec (rows : list InstalledRow) (g p : Str) (row : InstalledRow) :
  findRow rows g p = Some row -> row ∈ rows /\ rowKey row = (g, p).
Proof.
  intros H. apply find_some in H as [Hin Hkey].
  split; [by apply list_elem_of_In|by apply bool_decide_eq_true in Hkey].
Qed.

Lemma unique_row (rows : list InstalledRow) (row row' : InstalledRow) :
  NoDup (map rowKey rows) ->
  row ∈ rows -> row' ∈ rows -> rowKey row = rowKey row' -> row = row'.
Proof.
  induction rows as [|r rows IH]; simpl; intros Hnd Hin Hin' Hkey.
  - by apply elem_of_nil in Hin.
  - apply NoDup_cons in Hnd as [Hr Hnd].
    apply elem_of_cons in Hin as [->|Hin]; apply elem_of_cons in Hin' as [->|Hin'].
    + done.
    + exfalso. apply Hr. rewrite Hkey. apply list_elem_of_fmap. by exists row'.
    + exfalso. apply Hr. rewrite <- Hkey. apply list_elem_of_fmap. by exists row.
    + by apply IH.
Qed.

(** X30: a plugin that was disabled before a restart cannot be enabled
    from the command surface afterwards.  Start-up has not installed it
    in memory, so [?plugin enable] is answered with "Failed to enable
    plugin: Not found", and neither the database nor the manager
    changes. *)
Theorem enable_after_restart_fails
    (db : Database) (t : Z) (message : Message) (g p : Str) (row : InstalledRow) :
  msg_guild message = Some g ->
  p <> [] ->
  NoDup (map rowKey (db_installed db)) ->
  findRow (db_installed db) g p = Some row ->
  row_enabled row = false ->
  let m := loadAllInstalledPlugins lookup fetch (db_installed db) (newManager t) in
  handleEnable message (Some p) db m
  = (Some (ReplyText (str "❌ Failed to enable plugin: Not found")), db, m).
Proof.
  intros Hguild Hp Hnd Hrow Hdisabled m.
  pose proof (findRow_spec _ _ _ _ Hrow) as [Hin Hkey].
  assert (Htoggle : togglePlugin g p true m
                    = ({| success := false; message := str "Not found" |}, m)).
  { apply toggle_not_installed. apply startup_not_installed.
    intros row' Hin' Hkey'.
    assert (row = row') as <-; [|done].
    apply (unique_row (db_installed db)); [done|done|done|congruence]. }
  unfold handleEnable. destruct p as [|c p']; [done|].
  rewrite Hguild, Hrow, Hdisabled, Htoggle. done.
Qed.

End CommandSurfaceFacts.

Lemma enable_after_restart_fails_witness :
  PluginCommand.handleEnable (host := Sample.sampleHost)
    (Sample.messageOf (str "?plugin enable polls")) (Some (str "polls"))
    {| PluginCommand.db_installed := Scenario.sampleRows;
       PluginCommand.db_logs := [] |}
    (Startup.loadAllInstalledPlugins (host := Sample.sampleHost)
       Scenario.sampleLookup Scenario.sampleFetch Scenario.sampleRows
       (Model.newManager 0))
  = (Some (PluginCommand.ReplyText (str "❌ Failed to enable plugin: Not found")),
     {| PluginCommand.db_installed := Scenario.sampleRows;
        PluginCommand.db_logs := [] |},
     Startup.loadAllInstalledPlugins (host := Sample.sampleHost)
       Scenario.sampleLookup Scenario.sampleFetch Scenario.sampleRows
       (Model.newManager 0)).
Proof.
  apply (enable_after_restart_fails (host := Sample.sampleHost)
           Scenario.sampleLookup Scenario.sampleFetch
           {| PluginCommand.db_installed := Scenario.sampleRows;
              PluginCommand.db_logs := [] |}
           0 (Sample.messageOf (str "?plugin enable polls"))
           (str "g1") (str "polls") Scenario.pollsRow).
  - reflexivity.
  - discriminate.
  - apply (bool_decide_unpack _). vm_compute. exact I.
  - reflexivity.
  - reflexivity.
Defined.

Section SettingsFacts.
Import Text ImportValidator Model Manager Startup Sandbox.
Context {host : Host}.
Variable lookup : InstalledRow -> option MarketplaceItem.
Variable fetch : InstalledRow -> Download.

Lemma applySaved_get (key : Str) (saved : list (Str * Value)) :
  forall settings : list (Str * SettingDef),
    NoDup (map fst saved) ->
    mapGet (fold_left applySaved saved settings) key
    = match mapGet settings key with
      | None => None
      | Some def =>
          Some (match mapGet saved key with
                | Some v => withValue def v
                | None => def
                end)
      end.
Proof.
  induction saved as [|[k v] saved IH]; intros settings Hnd; cbn [fold_left].
  - simpl. by destruct (mapGet settings key).
  - simpl in Hnd. apply NoDup_cons in Hnd as [Hk Hnd].
    rewrite IH by done. cbn [mapGet applySaved]. unfold member.
    destruct (decide (k = key)) as [->|Hne].
    + assert (Hrest : mapGet saved key = None).
      { destruct (mapGet saved key) as [v'|] eqn:E; [|done].
        exfalso. apply Hk. clear -E.
        induction saved as [|[k0 v0] saved IH]; simpl in *; [done|].
        destruct (decide (k0 = key)) as [->|]; [left|right; by apply IH]. }
      rewrite Hrest.
      destruct (mapGet settings key) as [def|] eqn:Hdef.
      * rewrite mapGet_mapSet. by destruct (decide (key = key)).
      * destruct (bool_decide (key ∈ objectPrototypeKeys)); by rewrite Hdef.
    + destruct (mapGet settings k) as [dk|] eqn:Hdk;
        [|by destruct (bool_decide (k ∈ objectPrototypeKeys))].
      rewrite mapGet_mapSet. by destruct (decide (k = key)).
Qed.

Lemma absent_existsb (p : Str) (plugins : list InstalledPlugin) :
  p ∉ map ip_itemId plugins -> existsb (hasItem p) plugins = false.
Proof.
  induction plugins as [|q plugins IH]; simpl; intros Hnot; [done|].
  apply orb_false_iff. split.
  - apply hasItem_false. intros Heq. apply Hnot. rewrite Heq. left.
  - apply IH. intros Hin. apply Hnot. by right.
Qed.

Lemma find_app_keep (p : Str) (l extra : list InstalledPlugin) (ip : InstalledPlugin) :
  List.find (hasItem p) l = Some ip -> List.find (hasItem p) (l ++ extra) = Some ip.
Proof.
  induction l as [|q l IH]; simpl; [done|].
  destruct (hasItem p q); [done|apply IH].
Qed.

Lemma loadRows_find_keep (rs : list InstalledRow) (g p : Str) (ip : InstalledPlugin) :
  forall m,
    List.find (hasItem p) (installedIn m g) = Some ip ->
    List.find (hasItem p) (installedIn (fold_left (loadRow lookup fetch) rs m) g)
    = Some ip.
Proof.
  induction rs as [|r rs IH]; intros m Hfind; simpl; [done|].
  apply IH. rewrite loadRow_installed.
  destruct (rowPlugin lookup fetch r) as [x|]; [|done].
  destruct (decide (row_guildId r = g)); [|done].
  by apply find_app_keep.
Qed.

Lemma loadRows_find (rs : list InstalledRow) (row : InstalledRow)
    (ip : InstalledPlugin) : forall m,
  NoDup (map rowKey rs) ->
  row ∈ rs ->
  rowPlugin lookup fetch row = Some ip ->
  row_itemId row ∉ map ip_itemId (installedIn m (row_guildId row)) ->
  List.find (hasItem (row_itemId row))
    (installedIn (fold_left (loadRow lookup fetch) rs m) (row_guildId row))
  = Some ip.
Proof.
  induction rs as [|r rs IH]; intros m Hnd Hin Hip Hfresh; simpl.
  - by apply elem_of_nil in Hin.
  - simpl in Hnd. apply NoDup_cons in Hnd as [Hr Hnd].
    apply elem_of_cons in Hin as [->|Hin].
    + apply loadRows_find_keep. rewrite loadRow_installed, Hip.
      destruct (decide (row_guildId r = row_guildId r)); [|done].
      apply find_app_new; [by apply absent_existsb|].
      by apply rowPlugin_fields in Hip as [Hid _].
    + apply IH; [done|done|done|].
      intros Hx. apply loadRow_ids in Hx as [Hx|Hkey]; [done|].
      apply Hr. apply list_elem_of_fmap. exists row. split; [|done].
      by rewrite Hkey.
Qed.

(** X9: when no row of the table has a saved setting whose key is an
    inherited member of a plain object ([toString], [__proto__], ...), and
    the plugin declares no setting named [__proto__], then after start-up
    [settings.get(key)] answers a loaded plugin with the value saved in
    its row when the plugin declares the key and a value is saved for it,
    with the declared default when the key is declared and nothing is
    saved, and with undefined for a key the plugin does not declare, even
    if the row has a saved value for it. *)
Theorem settings_after_startup
    (rows : list InstalledRow) (t : Z) (row : InstalledRow)
    (marketplaceItem : MarketplaceItem) (dslCode : Str)
    (manifest : PluginManifest) (key : Str) :
  NoDup (map rowKey rows) ->
  row ∈ rows ->
  row_enabled row = true ->
  lookup row = Some marketplaceItem ->
  fetch row = Downloaded dslCode ->
  parseManifest dslCode = Some manifest ->
  valid (validate dslCode (extractImports dslCode) (mf_scopes manifest)) = true ->
  NoDup (map fst (row_settings row)) ->
  Forall (fun saved : InstalledRow =>
            Forall (fun k => k ∉ objectPrototypeKeys)
              (map fst (row_settings saved))) rows ->
  protoKey ∉ map fst (parseSettings dslCode) ->
  settings_get (row_guildId row) (row_itemId row) key
    (loadAllInstalledPlugins lookup fetch rows (newManager t))
  = match mapGet (parseSettings dslCode) key with
    | None => VUndefined
    | Some def =>
        match mapGet (row_settings row) key with
        | Some VUndefined => st_default def
        | Some v => v
        | None =>
            match st_value def with
            | None | Some VUndefined => st_default def
            | Some v => v
            end
        end
    end.
Proof.
  intros Hnd Hin Hen Hlookup Hfetch Hmanifest Hvalid Hsaved _ _.
  set (ip := {| ip_itemId := row_itemId row; ip_guildId := row_guildId row;
                ip_manifest := manifest; ip_dslCode := dslCode;
                ip_settings :=
                  fold_left applySaved (row_settings row) (parseSettings dslCode);
                ip_installedAt := row_installedAt row;
                ip_enabled := row_enabled row;
                ip_imports := extractImports dslCode |}).
  assert (Hip : rowPlugin lookup fetch row = Some ip).
  { unfold rowPlugin. by rewrite Hlookup, Hfetch, Hmanifest, Hvalid. }
  assert (Hfind : List.find (hasItem (row_itemId row))
                    (installedIn
                       (loadAllInstalledPlugins lookup fetch rows (newManager t))
                       (row_guildId row))
                  = Some ip).
  { unfold loadAllInstalledPlugins. apply loadRows_find.
    - by apply NoDup_map_filter.
    - by apply elem_of_enabled_rows.
    - done.
    - unfold installedIn, newManager. cbn. rewrite lookup_empty. cbn.
      apply not_elem_of_nil. }
  unfold settings_get, findInstalled.
  unfold installedIn in Hfind.
  destruct (installedPlugins _ !! row_guildId row) as [plugins|];
    cbn [default from_option] in Hfind; [|done].
  unfold id in Hfind. rewrite Hfind. cbn [ip_settings ip]. unfold member.
  rewrite applySaved_get by done.
  destruct (mapGet (parseSettings dslCode) key) as [def|];
    [|by destruct (bool_decide (key ∈ objectPrototypeKeys))].
  destruct (mapGet (row_settings row) key) as [v|]; [|done].
  cbn [st_value withValue st_default]. by destruct v.
Qed.

End SettingsFacts.

Lemma settings_after_startup_witness :
  Sandbox.settings_get (str "g1") (str "tickets") (str "prefix")
    (Startup.loadAllInstalledPlugins (host := Scenario.settingsHost)
       Scenario.sampleLookup Scenario.sampleFetch
       [Scenario.configuredRow; Scenario.pollsRow] (Model.newManager 0))
  = Model.VString (str "$").
Proof.
  apply (settings_after_startup (host := Scenario.settingsHost)
           Scenario.sampleLookup Scenario.sampleFetch
           [Scenario.configuredRow; Scenario.pollsRow] 0 Scenario.configuredRow
           Sample.approved Scenario.hiCode Sample.sampleManifest (str "prefix")).
  - apply (bool_decide_unpack _). vm_compute. exact I.
  - left.
  - reflexivity.
  - reflexivity.
  - reflexivity.
  - reflexivity.
  - vm_compute. reflexivity.
  - apply (bool_decide_unpack _). vm_compute. exact I.
  - apply (bool_decide_unpack _). vm_compute. exact I.
  - apply (bool_decide_unpack _). vm_compute. exact I.
Defined.
